(** * Laser-vehicle duel: the simulation-and-scoring engine

    A shallow embedding of the Python sources

      - [laser_vehicle.py]       (class [LaserVehicle]),
      - [combat_arena.py]        (class [CombatArena]),
      - [advanced_train.py]      (classes [AdvancedLaserVehicleEnv] and
                                  [CurriculumCallback]),
      - [curriculum_learning.py] (class [CurriculumManager]),

    followed by the properties of the specification that speak about them,
    and by further properties of the same code.

    Conventions of the embedding.

      - Python floats are idealised as real numbers ([R]); the curriculum's
        win rates are exact rationals ([Q]).
      - An object is a record; a method is a function in the monad [M] of
        state and exceptions.  A raise keeps the mutations made before it,
        as in Python.
      - The physics engine (PyBullet) is an external collaborator.  What it
        answers to the queries of one instant is a record [Physics] handed
        to the method; every answer may be a raised engine error.  Wall
        clock readings ([time.time()]) are handed in the same way.
      - Logging, printing and the GUI overlay have no effect on the state
        the properties speak about and are left out ([render_mode] is not
        ['gui']). *)

From Stdlib Require Import String QArith ZArith List Bool Lia.
From Stdlib Require Import Reals Lra.
Import ListNotations.

(** ** Python values, exceptions, and the method monad *)

Inductive exn : Set :=
| ValueError | AttributeError | KeyError | IndexError | ZeroDivisionError
| PhysicsError.

Inductive result (A : Type) : Type :=
| Ok (a : A)
| Raised (e : exn).
Arguments Ok {A} a.
Arguments Raised {A} e.

Definition is_ok {A} (r : result A) : bool :=
  match r with Ok _ => true | Raised _ => false end.

(** A method of an object of state [St]: it returns the state it leaves
    behind together with its value or the exception it raised. *)
Definition M (St A : Type) : Type := St -> St * result A.

Definition ret {St A} (a : A) : M St A := fun s => (s, Ok a).
Definition raise {St A} (e : exn) : M St A := fun s => (s, Raised e).
Definition bind {St A B} (c : M St A) (k : A -> M St B) : M St B :=
  fun s => match c s with
           | (s', Ok a) => k a s'
           | (s', Raised e) => (s', Raised e)
           end.
Definition get {St} : M St St := fun s => (s, Ok s).
Definition modify {St} (f : St -> St) : M St unit := fun s => (f s, Ok tt).
(** An answer of a collaborator, lifted into the method. *)
Definition lift {St A} (r : result A) : M St A := fun s => (s, r).
(** [try: c except Exception: h] *)
Definition try_except {St A} (c : M St A) (h : exn -> M St A) : M St A :=
  fun s => match c s with
           | (s', Ok a) => (s', Ok a)
           | (s', Raised e) => h e s'
           end.

Declare Scope py_scope.
Delimit Scope py_scope with py.
Notation "x <- c ;; k" := (bind c (fun x => k))
  (at level 61, c at next level, right associativity) : py_scope.
Notation "' pat <- c ;; k" := (bind c (fun x => match x with pat => k end))
  (at level 61, pat pattern, c at next level, right associativity) : py_scope.
Notation "c ;; k" := (bind c (fun _ => k))
  (at level 61, right associativity) : py_scope.

(** [collections.deque(maxlen=n).append(x)]: the oldest entries fall off
    the left end. *)
Definition deque_append {A} (maxlen : nat) (d : list A) (x : A) : list A :=
  let d' := d ++ [x] in skipn (length d' - maxlen) d'.

(** The slice [l[-n:]]; [l[-0:]] is the whole list. *)
Definition last_n {A} (n : nat) (l : list A) : list A :=
  match n with
  | O => l
  | _ => skipn (length l - n) l
  end.

(** ** [curriculum_learning.py]: class [CurriculumManager] *)

Module CurriculumManager.

Inductive opponent_type : Set :=
| static | uniform_motion | simple_rules | adversarial.

Record StageParams : Set := {
  opponent : opponent_type;
  mines_enabled : bool;
  opponent_difficulty : Q;
  noise_level : Q;
  random_start : bool;
  random_field : bool;
  victory_threshold : Q;
  episode_timeout : Q;
  reward_scale : Q
}.

(** [_init_stage_params]: the table of the six stages ([None]: the key is
    not in the dictionary). *)
Definition _init_stage_params (stage : Z) : option StageParams :=
  match stage with
  | 1%Z => Some {| opponent := static; mines_enabled := false;
                   opponent_difficulty := 0.0; noise_level := 0.0;
                   random_start := false; random_field := false;
                   victory_threshold := 2.0; episode_timeout := 60.0;
                   reward_scale := 1.0 |}
  | 2%Z => Some {| opponent := uniform_motion; mines_enabled := false;
                   opponent_difficulty := 0.2; noise_level := 0.0;
                   random_start := false; random_field := false;
                   victory_threshold := 2.0; episode_timeout := 60.0;
                   reward_scale := 1.0 |}
  | 3%Z => Some {| opponent := simple_rules; mines_enabled := false;
                   opponent_difficulty := 0.4; noise_level := 0.1;
                   random_start := false; random_field := false;
                   victory_threshold := 2.5; episode_timeout := 90.0;
                   reward_scale := 1.2 |}
  | 4%Z => Some {| opponent := simple_rules; mines_enabled := true;
                   opponent_difficulty := 0.5; noise_level := 0.2;
                   random_start := false; random_field := false;
                   victory_threshold := 2.5; episode_timeout := 90.0;
                   reward_scale := 1.5 |}
  | 5%Z => Some {| opponent := adversarial; mines_enabled := true;
                   opponent_difficulty := 0.7; noise_level := 0.3;
                   random_start := false; random_field := false;
                   victory_threshold := 3.0; episode_timeout := 120.0;
                   reward_scale := 1.8 |}
  | 6%Z => Some {| opponent := adversarial; mines_enabled := true;
                   opponent_difficulty := 1.0; noise_level := 0.5;
                   random_start := true; random_field := true;
                   victory_threshold := 3.0; episode_timeout := 120.0;
                   reward_scale := 2.0 |}
  | _ => None
  end.

Record Config : Set := {
  promotion_threshold : Q;
  demotion_threshold : Q;
  promotion_window : nat;
  demotion_window : nat;
  initial_stage : Z;
  max_stage : Z
}.

(** The default configuration of [__init__]. *)
Definition default_config : Config :=
  {| promotion_threshold := 0.75;
     demotion_threshold := 0.40;
     promotion_window := 10;
     demotion_window := 5;
     initial_stage := 1;
     max_stage := 6 |}.

(** The manager's own state.  [win_history] is the deque of 1/0 outcomes,
    oldest first; its [maxlen] is fixed by the configuration. *)
Record t : Set := {
  config : Config;
  current_stage : Z;
  win_history : list Z
}.

Definition maxlen (m : t) : nat :=
  Nat.max (promotion_window (config m)) (demotion_window (config m)).

Definition __init__ (cfg : Config) : t :=
  {| config := cfg; current_stage := initial_stage cfg; win_history := [] |}.

Definition set_stage (z : Z) (m : t) : t :=
  {| config := config m; current_stage := z; win_history := win_history m |}.
Definition set_history (h : list Z) (m : t) : t :=
  {| config := config m; current_stage := current_stage m; win_history := h |}.

(** [self.config['stage_names'][i]] over the six names: negative indices
    count from the end. *)
Definition stage_name (i : Z) : result unit :=
  if ((-6 <=? i) && (i <? 6))%Z then Ok tt else Raised IndexError.

(** [setup_environment]: looks the stage up in the table, rebuilds the
    arena's mine bodies and refreshes the on-screen label.  Only the
    look-ups can fail inside the manager; the bodies live in the engine. *)
Definition setup_environment : M t StageParams :=
  fun m =>
    match _init_stage_params (current_stage m) with
    | None => (m, Raised KeyError)
    | Some params =>
        match stage_name (current_stage m - 1) with
        | Raised e => (m, Raised e)
        | Ok _ => (m, Ok params)
        end
    end.

Definition _promote : M t unit :=
  fun m =>
    if (current_stage m <? max_stage (config m))%Z then
      (modify (set_stage (current_stage m + 1)) ;;
       modify (set_history []) ;;
       m' <- get ;;
       lift (stage_name (current_stage m' - 1)) ;;
       setup_environment ;;
       ret tt)%py m
    else (m, Ok tt).

Definition _demote : M t unit :=
  fun m =>
    if (1 <? current_stage m)%Z then
      (modify (set_stage (current_stage m - 1)) ;;
       modify (set_history []) ;;
       m' <- get ;;
       lift (stage_name (current_stage m' - 1)) ;;
       setup_environment ;;
       ret tt)%py m
    else (m, Ok tt).

(** [sum(recent_wins) / len(recent_wins)] *)
Definition win_rate (recent_wins : list Z) : result Q :=
  match recent_wins with
  | [] => Raised ZeroDivisionError
  | _ => Ok (inject_Z (fold_right Z.add 0%Z recent_wins)
             / inject_Z (Z.of_nat (length recent_wins)))
  end.

(** The second half of [_check_for_promotion_or_demotion]. *)
Definition check_demotion : M t unit :=
  fun m =>
    let cfg := config m in
    if (demotion_window cfg <=? length (win_history m))%nat then
      match win_rate (last_n (demotion_window cfg) (win_history m)) with
      | Raised e => (m, Raised e)
      | Ok demotion_win_rate =>
          if Qle_bool demotion_win_rate (demotion_threshold cfg)
          then _demote m
          else (m, Ok tt)
      end
    else (m, Ok tt).

Definition _check_for_promotion_or_demotion : M t unit :=
  fun m =>
    let cfg := config m in
    if (length (win_history m)
        <? Nat.min (promotion_window cfg) (demotion_window cfg))%nat
    then (m, Ok tt)
    else if (promotion_window cfg <=? length (win_history m))%nat then
      match win_rate (last_n (promotion_window cfg) (win_history m)) with
      | Raised e => (m, Raised e)
      | Ok promotion_win_rate =>
          if Qle_bool (promotion_threshold cfg) promotion_win_rate
          then _promote m
          else check_demotion m
      end
    else check_demotion m.

Definition record_outcome (win : bool) : M t unit :=
  (modify (fun m => set_history
             (deque_append (maxlen m) (win_history m) (if win then 1 else 0)%Z) m) ;;
   _check_for_promotion_or_demotion)%py.

(** The two conditions the check reads off the history [h]. *)
Definition promotion_due (cfg : Config) (h : list Z) : bool :=
  (promotion_window cfg <=? length h)%nat
  && match win_rate (last_n (promotion_window cfg) h) with
     | Ok rate => Qle_bool (promotion_threshold cfg) rate
     | Raised _ => false
     end.

Definition demotion_due (cfg : Config) (h : list Z) : bool :=
  (demotion_window cfg <=? length h)%nat
  && match win_rate (last_n (demotion_window cfg) h) with
     | Ok rate => Qle_bool rate (demotion_threshold cfg)
     | Raised _ => false
     end.

(** Feeding a sequence of outcomes, stopping at the first exception. *)
Fixpoint record_outcomes (wins : list bool) : M t unit :=
  match wins with
  | [] => ret tt
  | w :: ws => (record_outcome w ;; record_outcomes ws)%py
  end.

(** [get_current_stage_params]: [self.stage_params[self.current_stage]] *)
Definition get_current_stage_params : M t StageParams :=
  fun m =>
    match _init_stage_params (current_stage m) with
    | Some params => (m, Ok params)
    | None => (m, Raised KeyError)
    end.

(** [reset]: back to the initial stage, with an empty history. *)
Definition reset : M t unit :=
  (m <- get ;;
   modify (set_stage (initial_stage (config m))) ;;
   modify (set_history []) ;;
   setup_environment ;;
   ret tt)%py.

End CurriculumManager.

(** ** Floats and NumPy *)

Local Open Scope R_scope.

Definition Rltb (x y : R) : bool := if Rlt_dec x y then true else false.
Definition Rleb (x y : R) : bool := if Rle_dec x y then true else false.

(** A three-element array: a position [x, y, z], Euler angles
    [roll, pitch, yaw], a velocity. *)
Record Vec3 : Type := vec3 { at0 : R; at1 : R; at2 : R }.

Definition np_array (v : Vec3) : list R := [at0 v; at1 v; at2 v].
Definition np_zeros (n : nat) : list R := repeat 0 n.

(** [np.clip(x, lo, hi)], that is [minimum(maximum(x, lo), hi)]. *)
Definition np_clip (x lo hi : R) : R := Rmin (Rmax x lo) hi.

(** [np.linalg.norm] of a three-element array. *)
Definition np_linalg_norm (v : Vec3) : R :=
  sqrt (at0 v * at0 v + at1 v * at1 v + at2 v * at2 v).

(** [np.min] of a non-empty array. *)
Definition np_min (x : R) (xs : list R) : R := fold_left Rmin xs x.

(** [np.sum] *)
Definition np_sum (xs : list R) : R := fold_right Rplus 0 xs.

(** [np.arctan2(y, x)], the angle of the point [(x, y)] in [[-pi, pi]]. *)
Definition np_arctan2 (y x : R) : R :=
  if Rlt_dec 0 x then atan (y / x)
  else if Rlt_dec x 0 then
         if Rle_dec 0 y then atan (y / x) + PI else atan (y / x) - PI
  else if Rlt_dec 0 y then PI / 2
  else if Rlt_dec y 0 then - PI / 2
  else 0.

(** [int(x)]: truncation towards zero. *)
Definition py_int (x : R) : Z :=
  if Rle_dec 0 x then Int_part x else (- Int_part (- x))%Z.

(** Element-wise [a - b] of one-dimensional arrays, with NumPy's
    broadcasting of a one-element array; other shapes do not match. *)
Definition np_sub (a b : list R) : result (list R) :=
  if (length a =? length b)%nat then Ok (map (fun p => fst p - snd p) (combine a b))
  else match a, b with
       | [x], _ => Ok (map (fun y => x - y) b)
       | _, [y] => Ok (map (fun x => x - y) a)
       | _, _ => Raised ValueError
       end.

(** The two loops
<<
    while angle > pi:  angle -= 2 * pi
    while angle < -pi: angle += 2 * pi
>>
    Each is run for as many rounds as its argument can need
    ([loops_needed]); [normalize_angle_range] below shows that this is
    enough for the loops' exit conditions to hold. *)
Fixpoint wrap_down (rounds : nat) (angle : R) : R :=
  match rounds with
  | O => angle
  | S n => if Rltb PI angle then wrap_down n (angle - 2 * PI) else angle
  end.

Fixpoint wrap_up (rounds : nat) (angle : R) : R :=
  match rounds with
  | O => angle
  | S n => if Rltb angle (- PI) then wrap_up n (angle + 2 * PI) else angle
  end.

Definition loops_needed (excess : R) : nat := Z.to_nat (up (excess / (2 * PI))).

Definition normalize_angle (angle : R) : R :=
  let angle := wrap_down (loops_needed (angle - PI)) angle in
  wrap_up (loops_needed (- PI - angle)) angle.

(** A dictionary with string keys, in insertion order. *)
Definition Dict : Type := list (string * R).

Fixpoint dict_get (k : string) (d : Dict) : option R :=
  match d with
  | [] => None
  | (k', v) :: d' => if String.eqb k k' then Some v else dict_get k d'
  end.

(** [d[k] = v] *)
Fixpoint dict_set (k : string) (v : R) (d : Dict) : Dict :=
  match d with
  | [] => [(k, v)]
  | (k', v') :: d' =>
      if String.eqb k k' then (k, v) :: d' else (k', v') :: dict_set k v d'
  end.

(** [d[k]] for a key the dictionary holds. *)
Definition dict_val (k : string) (d : Dict) : R :=
  match dict_get k d with Some v => v | None => 0 end.

(** [d[k] += v] *)
Definition dict_add (k : string) (v : R) (d : Dict) : Dict :=
  dict_set k (dict_val k d + v) d.

Definition dict_values (d : Dict) : list R := map snd d.

Definition item (k : string) (v : R) : string * R := (k, v).

(** ** The physics engine, as seen at one instant

    The answers PyBullet gives about the primary vehicle between two
    simulation ticks.  Nothing the controller does between two ticks moves
    a body, so all queries of one instant read the same record. *)

(** One entry of [p.rayTest]: the body hit ([-1] for none), the hit
    fraction and the hit position. *)
Record RayHit : Type := {
  hit_object : Z;
  hit_fraction : R;
  hit_position : Vec3
}.

Record Physics : Type := {
  (** [p.getBasePositionAndOrientation] followed by
      [p.getEulerFromQuaternion]: position and Euler angles *)
  getBasePositionAndOrientation : result (Vec3 * Vec3);
  (** [p.getBaseVelocity]: linear and angular velocity *)
  getBaseVelocity : result (Vec3 * Vec3);
  (** [len(p.getContactPoints(bodyA=vehicle_id))] *)
  getContactPoints : result nat;
  (** [p.rayTest] along the [i]-th ray of the 16-ray fan *)
  rayTest_fan : result (nat -> RayHit);
  (** [p.rayTest] along the forward laser beam of the controller *)
  rayTest_beam : result RayHit
}.

(** ** [laser_vehicle.py]: class [LaserVehicle] *)

Module LaserVehicle.

Record t : Type := {
  vehicle_id : Z;
  size : Vec3;                      (* (length, width, height) *)
  mass : R;
  max_velocity : R;
  max_angular_velocity : R;
  max_acceleration : R;
  laser_angle_h : R;
  laser_angle_v : R;
  laser_max_distance : R;
  laser_cooldown_time : R;
  laser_damage : R;
  opponent_id : option Z
}.

Definition math_radians (deg : R) : R := deg * PI / 180.

Definition __init__ (body : Z) (vehicle_size : Vec3) (mass : R) : t :=
  {| vehicle_id := body;
     size := vehicle_size;
     mass := mass;
     max_velocity := 2.0;
     max_angular_velocity := PI * 1.5;
     max_acceleration := 2.5;
     laser_angle_h := math_radians 60;
     laser_angle_v := math_radians 15;
     laser_max_distance := 5.0;
     laser_cooldown_time := 0.0;
     laser_damage := 1.0;
     opponent_id := None |}.

Definition set_opponent (opponent : Z) (v : t) : t :=
  {| vehicle_id := vehicle_id v; size := size v; mass := mass v;
     max_velocity := max_velocity v;
     max_angular_velocity := max_angular_velocity v;
     max_acceleration := max_acceleration v;
     laser_angle_h := laser_angle_h v; laser_angle_v := laser_angle_v v;
     laser_max_distance := laser_max_distance v;
     laser_cooldown_time := laser_cooldown_time v;
     laser_damage := laser_damage v;
     opponent_id := Some opponent |}.

Definition set_difficulty (difficulty : R) (v : t) : t :=
  {| vehicle_id := vehicle_id v; size := size v; mass := mass v;
     max_velocity := 2.0 + difficulty;
     max_angular_velocity := PI * (1.5 + 0.5 * difficulty);
     max_acceleration := 2.5 + difficulty;
     laser_angle_h := laser_angle_h v; laser_angle_v := laser_angle_v v;
     laser_max_distance := laser_max_distance v;
     laser_cooldown_time := 2.0 - difficulty;
     laser_damage := 1.0 + difficulty;
     opponent_id := opponent_id v |}.

Definition get_position_and_orientation (v : t) (ph : Physics)
  : result (Vec3 * Vec3) :=
  getBasePositionAndOrientation ph.

Definition get_velocity (v : t) (ph : Physics) : result Vec3 :=
  match getBaseVelocity ph with
  | Ok (linear_vel, _) => Ok linear_vel
  | Raised e => Raised e
  end.

Definition get_angular_velocity (v : t) (ph : Physics) : result Vec3 :=
  match getBaseVelocity ph with
  | Ok (_, angular_vel) => Ok angular_vel
  | Raised e => Raised e
  end.

Definition check_collision (v : t) (ph : Physics) : result bool :=
  match getContactPoints ph with
  | Ok contact_points => Ok (0 <? contact_points)%nat
  | Raised e => Raised e
  end.

(** [get_laser_distances]: sixteen rays; a ray that hits nothing keeps
    the maximal distance. *)
Definition get_laser_distances (v : t) (ph : Physics) : result (list R) :=
  match get_position_and_orientation v ph with
  | Raised e => Raised e
  | Ok _ =>
      match rayTest_fan ph with
      | Raised e => Raised e
      | Ok ray =>
          Ok (map (fun i =>
                     if (hit_object (ray i) =? -1)%Z
                     then laser_max_distance v
                     else hit_fraction (ray i) * laser_max_distance v)
                  (seq 0 16))
      end
  end.

(** What [apply_action] hands to [p.resetBaseVelocity]. *)
Record VelocityCommand : Type := {
  linearVelocity : Vec3;
  angularVelocity : Vec3
}.

(** [apply_action]: the differential-drive command for an action
    [[left, right]].  The laser beam and the direction indicator it
    draws afterwards live in the engine. *)
Definition apply_action (v : t) (ph : Physics) (action : list R)
  : result VelocityCommand :=
  match action with
  | [a0; a1] =>
      let left_wheel_vel := np_clip a0 (-1.0) 1.0 * max_velocity v in
      let right_wheel_vel := np_clip a1 (-1.0) 1.0 * max_velocity v in
      let linear_vel := (left_wheel_vel + right_wheel_vel) / 2 in
      let angular_vel :=
        (right_wheel_vel - left_wheel_vel) / (at1 (size v) * 1.1) in
      let angular_vel :=
        np_clip angular_vel (- max_angular_velocity v) (max_angular_velocity v) in
      match get_position_and_orientation v ph with
      | Raised e => Raised e
      | Ok (_, orientation) =>
          let yaw := at2 orientation in
          let vel_x := linear_vel * cos yaw in
          let vel_y := linear_vel * sin yaw in
          Ok {| linearVelocity := vec3 vel_x vel_y 0;
                angularVelocity := vec3 0 0 angular_vel |}
      end
  | _ => Raised ValueError
  end.

(** The speed a command asks of the body. *)
Definition linear_speed (c : VelocityCommand) : R :=
  np_linalg_norm (linearVelocity c).
Definition angular_speed (c : VelocityCommand) : R :=
  np_linalg_norm (angularVelocity c).

End LaserVehicle.

(** ** [combat_arena.py]: class [CombatArena] *)

Module CombatArena.

Record t : Type := {
  debug : bool;
  (** the engine's next body id: [p.createMultiBody] numbers bodies
      consecutively, from 0 after [p.resetSimulation] *)
  next_body : Z;
  vehicle : option LaserVehicle.t;
  arena_size : R;
  arena_half_size : R;
  mine_radius : R;
  mine_height : R;
  mine_positions : list Vec3;
  mines : list Z;
  mine_objects : list Z;
  boundaries : list Z;
  start_positions : list Vec3
}.

Definition default_mine_positions (mine_height : R) : list Vec3 :=
  [vec3 (-1.0) 0 (mine_height / 2);
   vec3 0 0 (mine_height / 2);
   vec3 1.0 0 (mine_height / 2)].

(** [_create_ground]: one body. *)
Definition _create_ground (a : t) : t :=
  {| debug := debug a; next_body := next_body a + 1; vehicle := vehicle a;
     arena_size := arena_size a; arena_half_size := arena_half_size a;
     mine_radius := mine_radius a; mine_height := mine_height a;
     mine_positions := mine_positions a; mines := mines a;
     mine_objects := mine_objects a; boundaries := boundaries a;
     start_positions := start_positions a |}.

(** [_create_boundaries]: four marking lines and four invisible walls. *)
Definition _create_boundaries (a : t) : t :=
  {| debug := debug a; next_body := next_body a + 8; vehicle := vehicle a;
     arena_size := arena_size a; arena_half_size := arena_half_size a;
     mine_radius := mine_radius a; mine_height := mine_height a;
     mine_positions := mine_positions a; mines := mines a;
     mine_objects := mine_objects a;
     boundaries := map (fun i => next_body a + Z.of_nat i)%Z (seq 0 8);
     start_positions := start_positions a |}.

(** One round of the loop of [_create_mines]: the outer ring, the inner
    disc and the mine itself, three bodies. *)
Fixpoint create_mine_bodies (positions : list Vec3) (next : Z)
  (mines mine_objects : list Z) : Z * list Z * list Z :=
  match positions with
  | [] => (next, mines, mine_objects)
  | _ :: rest =>
      create_mine_bodies rest (next + 3)%Z
        (mines ++ [next]) (mine_objects ++ [(next + 2)%Z])
  end.

Definition _create_mines (a : t) : t :=
  let '(next, ms, objs) := create_mine_bodies (mine_positions a) (next_body a) [] [] in
  {| debug := debug a; next_body := next; vehicle := vehicle a;
     arena_size := arena_size a; arena_half_size := arena_half_size a;
     mine_radius := mine_radius a; mine_height := mine_height a;
     mine_positions := mine_positions a; mines := ms;
     mine_objects := objs; boundaries := boundaries a;
     start_positions := start_positions a |}.

(** [_create_start_markers] (debug mode): two marker bodies, and the
    start positions move to the markers. *)
Definition _create_start_markers (a : t) : t :=
  let marker_size_x := 0.2 * 1.5 in
  let marker_size_y := 0.15 * 1.5 in
  let left_bottom_pos :=
    vec3 (- arena_half_size a + marker_size_x / 2)
         (- arena_half_size a + marker_size_y / 2) 0.001 in
  let right_top_pos :=
    vec3 (arena_half_size a - marker_size_x / 2)
         (arena_half_size a - marker_size_y / 2) 0.001 in
  {| debug := debug a; next_body := next_body a + 2; vehicle := vehicle a;
     arena_size := arena_size a; arena_half_size := arena_half_size a;
     mine_radius := mine_radius a; mine_height := mine_height a;
     mine_positions := mine_positions a; mines := mines a;
     mine_objects := mine_objects a; boundaries := boundaries a;
     start_positions := [left_bottom_pos; right_top_pos] |}.

(** [__init__]: the plane loaded from the URDF is body 0. *)
Definition __init__ (debug : bool) : t :=
  let arena_size := 4.0 in
  let mine_height := 0.001 in
  let a :=
    {| debug := debug; next_body := 1; vehicle := None;
       arena_size := arena_size; arena_half_size := arena_size / 2;
       mine_radius := 0.5; mine_height := mine_height;
       mine_positions := default_mine_positions mine_height;
       mines := []; mine_objects := []; boundaries := [];
       start_positions :=
         [vec3 (- (arena_size / 2) + 0.5) (- (arena_size / 2) + 0.5) 0.1;
          vec3 (arena_size / 2 - 0.5) (arena_size / 2 + 0.5) 0.1] |} in
  let a := _create_mines (_create_boundaries (_create_ground a)) in
  if debug then _create_start_markers a else a.

(** [reset]: the simulation is wiped and the field is built again. *)
Definition reset (a : t) : t :=
  let a :=
    {| debug := debug a; next_body := 0; vehicle := None;
       arena_size := arena_size a; arena_half_size := arena_half_size a;
       mine_radius := mine_radius a; mine_height := mine_height a;
       mine_positions := default_mine_positions (mine_height a);
       mines := []; mine_objects := []; boundaries := [];
       start_positions := start_positions a |} in
  let a := _create_mines (_create_boundaries (_create_ground a)) in
  if debug a then _create_start_markers a else a.

(** [add_mine]: three more bodies and one more position. *)
Definition add_mine (position : Vec3) (a : t) : t :=
  {| debug := debug a; next_body := next_body a + 3; vehicle := vehicle a;
     arena_size := arena_size a; arena_half_size := arena_half_size a;
     mine_radius := mine_radius a; mine_height := mine_height a;
     mine_positions := mine_positions a ++ [position];
     mines := mines a ++ [next_body a];
     mine_objects := mine_objects a ++ [(next_body a + 2)%Z];
     boundaries := boundaries a;
     start_positions := start_positions a |}.

(** [spawn_vehicle]: the body and its four reflective panels; the first
    vehicle spawned becomes the primary one.  Returns the body id. *)
Definition spawn_vehicle (mass : R) (size : Vec3) (a : t) : t * Z :=
  let v := LaserVehicle.__init__ (next_body a) size mass in
  ({| debug := debug a; next_body := next_body a + 5;
      vehicle := match vehicle a with None => Some v | Some v0 => Some v0 end;
      arena_size := arena_size a; arena_half_size := arena_half_size a;
      mine_radius := mine_radius a; mine_height := mine_height a;
      mine_positions := mine_positions a; mines := mines a;
      mine_objects := mine_objects a; boundaries := boundaries a;
      start_positions := start_positions a |},
   LaserVehicle.vehicle_id v).

Definition set_vehicle (v : option LaserVehicle.t) (a : t) : t :=
  {| debug := debug a; next_body := next_body a; vehicle := v;
     arena_size := arena_size a; arena_half_size := arena_half_size a;
     mine_radius := mine_radius a; mine_height := mine_height a;
     mine_positions := mine_positions a; mines := mines a;
     mine_objects := mine_objects a; boundaries := boundaries a;
     start_positions := start_positions a |}.

End CombatArena.

(** ** [advanced_train.py]: class [AdvancedLaserVehicleEnv] *)

Module AdvancedLaserVehicleEnv.

Record ObservationConfig : Set := {
  history_length : nat;
  lasers : nat
}.

Definition default_observation_config : ObservationConfig :=
  {| history_length := 4; lasers := 16 |}.

Definition reward_metrics_keys : list string :=
  ["distance_reward"; "rotation_reward"; "collision_reward"; "laser_reward";
   "goal_reward"; "time_penalty"; "total_reward"]%string.

Record t : Type := {
  (* configuration *)
  difficulty : R;
  max_steps : Z;
  (* laser state *)
  laser_hit : bool;
  continuous_hit_start : option R;
  boundary_crossed : bool;
  (* game state *)
  steps : Z;
  terminated : bool;
  truncated : bool;
  laser_hits_count : Z;
  consecutive_laser_hits : option Z;
  last_laser_hit_time : option R;
  reward_history : option (list R);
  (* recorded coordinates *)
  start_position : Vec3;
  opponent_position : option Vec3;
  opponent_id : option Z;
  mine_positions : list Vec3;
  (* observation layout; [observation_space] is its [shape[0]] *)
  observation_config : ObservationConfig;
  observation_space : nat;
  (* reward bookkeeping *)
  episode_reward : R;
  episode_metrics : Dict;
  (* the field and its primary vehicle *)
  arena : CombatArena.t;
  (* attributes created on the way ([None]: not there, or [None]) *)
  current_action : option (list R);
  previous_action : option (list R);
  current_position : option Vec3;
  visited_positions : option (list (Z * Z));
  _observation_history : option (list (list R));
  (* the samples the process-wide NumPy generator delivers next *)
  np_random : nat -> R
}.

(** The object spelt out attribute by attribute; an assignment
    [self.a = x] replaces the one attribute [a] in it. *)
Definition attributes (s : t) : t :=
  {| difficulty := difficulty s; max_steps := max_steps s;
     laser_hit := laser_hit s;
     continuous_hit_start := continuous_hit_start s;
     boundary_crossed := boundary_crossed s; steps := steps s;
     terminated := terminated s; truncated := truncated s;
     laser_hits_count := laser_hits_count s;
     consecutive_laser_hits := consecutive_laser_hits s;
     last_laser_hit_time := last_laser_hit_time s;
     reward_history := reward_history s; start_position := start_position s;
     opponent_position := opponent_position s; opponent_id := opponent_id s;
     mine_positions := mine_positions s;
     observation_config := observation_config s;
     observation_space := observation_space s;
     episode_reward := episode_reward s;
     episode_metrics := episode_metrics s; arena := arena s;
     current_action := current_action s;
     previous_action := previous_action s;
     current_position := current_position s;
     visited_positions := visited_positions s;
     _observation_history := _observation_history s;
     np_random := np_random s |}.

Ltac assign old new s :=
  let body := eval cbv beta delta [attributes] in (attributes s) in
  let f := eval pattern old in body in
  lazymatch f with
  | ?g _ => let r := eval cbv beta in (g new) in exact r
  end.

Definition set_difficulty (x : R) (s : t) : t :=
  ltac:(assign (difficulty s) x s).
Definition set_laser_hit (x : bool) (s : t) : t :=
  ltac:(assign (laser_hit s) x s).
Definition set_continuous_hit_start (x : option R) (s : t) : t :=
  ltac:(assign (continuous_hit_start s) x s).
Definition set_boundary_crossed (x : bool) (s : t) : t :=
  ltac:(assign (boundary_crossed s) x s).
Definition set_steps (x : Z) (s : t) : t :=
  ltac:(assign (steps s) x s).
Definition set_terminated (x : bool) (s : t) : t :=
  ltac:(assign (terminated s) x s).
Definition set_truncated (x : bool) (s : t) : t :=
  ltac:(assign (truncated s) x s).
Definition set_laser_hits_count (x : Z) (s : t) : t :=
  ltac:(assign (laser_hits_count s) x s).
Definition set_consecutive_laser_hits (x : option Z) (s : t) : t :=
  ltac:(assign (consecutive_laser_hits s) x s).
Definition set_last_laser_hit_time (x : option R) (s : t) : t :=
  ltac:(assign (last_laser_hit_time s) x s).
Definition set_reward_history (x : option (list R)) (s : t) : t :=
  ltac:(assign (reward_history s) x s).
Definition set_opponent_position (x : option Vec3) (s : t) : t :=
  ltac:(assign (opponent_position s) x s).
Definition set_opponent_id (x : option Z) (s : t) : t :=
  ltac:(assign (opponent_id s) x s).
Definition set_mine_positions (x : list Vec3) (s : t) : t :=
  ltac:(assign (mine_positions s) x s).
Definition set_episode_reward (x : R) (s : t) : t :=
  ltac:(assign (episode_reward s) x s).
Definition set_episode_metrics (x : Dict) (s : t) : t :=
  ltac:(assign (episode_metrics s) x s).
Definition set_arena (x : CombatArena.t) (s : t) : t :=
  ltac:(assign (arena s) x s).
Definition set_current_action (x : option (list R)) (s : t) : t :=
  ltac:(assign (current_action s) x s).
Definition set_previous_action (x : option (list R)) (s : t) : t :=
  ltac:(assign (previous_action s) x s).
Definition set_current_position (x : option Vec3) (s : t) : t :=
  ltac:(assign (current_position s) x s).
Definition set_visited_positions (x : option (list (Z * Z))) (s : t) : t :=
  ltac:(assign (visited_positions s) x s).
Definition set_observation_history (x : option (list (list R))) (s : t) : t :=
  ltac:(assign (_observation_history s) x s).
Definition set_np_random (x : nat -> R) (s : t) : t :=
  ltac:(assign (np_random s) x s).

Definition history_of (s : t) : list (list R) :=
  match _observation_history s with Some h => h | None => [] end.

(** *** Construction *)

Section Generator.

(** NumPy's generator: the samples of [[0, 1)] it delivers after
    [np.random.seed(seed)]. *)
Variable seeded : Z -> nat -> R.

(** [__init__(render_mode, difficulty, reward_config, observation_config,
    max_steps)]; building the arena seeds the generator from the clock. *)
Definition __init__ (difficulty : R) (observation_config : ObservationConfig)
  (max_steps : Z) (clock : Z) : t :=
  let arena := CombatArena.__init__ true in
  {| difficulty := np_clip difficulty 0.1 1.0;
     max_steps := max_steps;
     laser_hit := false;
     continuous_hit_start := None;
     boundary_crossed := false;
     steps := 0;
     terminated := false;
     truncated := false;
     laser_hits_count := 0;
     consecutive_laser_hits := None;
     last_laser_hit_time := None;
     reward_history := None;
     start_position :=
       vec3 (- CombatArena.arena_half_size arena + 0.5)
            (- CombatArena.arena_half_size arena + 0.5) 0.1;
     opponent_position := None;
     opponent_id := None;
     mine_positions := [];
     observation_config := observation_config;
     observation_space :=
       (lasers observation_config + 24) * history_length observation_config;
     episode_reward := 0.0;
     episode_metrics := map (fun key => (key, 0.0)) reward_metrics_keys;
     arena := arena;
     current_action := None;
     previous_action := None;
     current_position := None;
     visited_positions := None;
     _observation_history := None;
     np_random := seeded clock |}.

(** [set_difficulty] *)
Definition set_difficulty_ (d : R) : M t unit :=
  modify (set_difficulty (np_clip d 0.1 1.0)).

(** *** Sensing *)

(** [self.arena.vehicle], about to be called: [AttributeError] on [None]. *)
Definition the_vehicle : M t LaserVehicle.t :=
  fun s => match CombatArena.vehicle (arena s) with
           | Some v => (s, Ok v)
           | None => (s, Raised AttributeError)
           end.

(** [_check_boundary_crossed]: the one-way latch. *)
Definition _check_boundary_crossed (ph : Physics) : M t unit :=
  (v <- the_vehicle ;;
   ' (position, _) <- lift (LaserVehicle.get_position_and_orientation v ph) ;;
   s <- get ;;
   if Rltb 0 (at1 position) && negb (boundary_crossed s)
   then modify (set_boundary_crossed true)
   else ret tt)%py.

(** [_check_laser_hit]: the forward beam against the opponent's body. *)
Definition _check_laser_hit (ph : Physics) (now : R) : M t bool :=
  (v <- the_vehicle ;;
   ' (position, orientation) <- lift (LaserVehicle.get_position_and_orientation v ph) ;;
   s <- get ;;
   if negb (boundary_crossed s) then
     modify (set_laser_hit false) ;;
     modify (set_continuous_hit_start None) ;;
     ret false
   else
     match opponent_id s, opponent_position s with
     | Some opponent, Some _ =>
         results <- lift (rayTest_beam ph) ;;
         if negb (hit_object results =? -1)%Z then
           if (hit_object results =? opponent)%Z then
             (if negb (laser_hit s) then
                modify (set_laser_hit true) ;;
                modify (set_continuous_hit_start (Some now))
              else ret tt) ;;
             ret true
           else
             modify (set_laser_hit false) ;;
             modify (set_continuous_hit_start None) ;;
             ret false
         else
           modify (set_laser_hit false) ;;
           modify (set_continuous_hit_start None) ;;
           ret false
     | _, _ => ret false
     end)%py.

(** The four opponent-relative entries of a frame. *)
Definition opponent_info (s : t) (position orientation : Vec3) : list R :=
  match opponent_position s with
  | Some opponent_position =>
      let dx := at0 opponent_position - at0 position in
      let dy := at1 opponent_position - at1 position in
      let distance := sqrt (dx * dx + dy * dy) in
      let angle := np_arctan2 dy dx in
      let relative_angle := normalize_angle (angle - at2 orientation) in
      [distance; relative_angle; cos relative_angle; sin relative_angle]
  | None => np_zeros 4
  end.

Definition boundary_info (s : t) (position : Vec3) : list R :=
  [Rabs (at1 position); if boundary_crossed s then 1.0 else 0.0].

(** The loop over [self.mine_positions]; [None] is [float('inf')]. *)
Fixpoint nearest_mine (position orientation : Vec3) (mines : list Vec3)
  (min_mine_distance : option R) (nearest_mine_angle : R) : option R * R :=
  match mines with
  | [] => (min_mine_distance, nearest_mine_angle)
  | mine_pos :: rest =>
      let dx_mine := at0 mine_pos - at0 position in
      let dy_mine := at1 mine_pos - at1 position in
      let dist_mine := sqrt (dx_mine * dx_mine + dy_mine * dy_mine) in
      if match min_mine_distance with
         | None => true
         | Some m => Rltb dist_mine m
         end
      then nearest_mine position orientation rest (Some dist_mine)
             (normalize_angle (np_arctan2 dy_mine dx_mine - at2 orientation))
      else nearest_mine position orientation rest
             min_mine_distance nearest_mine_angle
  end.

Definition mine_info (s : t) (position orientation : Vec3) : list R :=
  match mine_positions s with
  | [] => np_zeros 2
  | mines =>
      match nearest_mine position orientation mines None 0 with
      | (Some min_mine_distance, nearest_mine_angle) =>
          [min_mine_distance; nearest_mine_angle]
      | (None, nearest_mine_angle) => [0; nearest_mine_angle]
      end
  end.

Definition laser_info (s : t) (now : R) : list R :=
  [if laser_hit s then 1.0 else 0.0;
   match continuous_hit_start s with
   | None => 0.0
   | Some start => Rmin (now - start) 10.0
   end].

(** The frame of one instant: 16 + 3 + 3 + 3 + 3 + 4 + 2 + 2 + 2 + 2
    entries. *)
Definition current_observation (s : t) (laser_distances : list R)
  (position orientation velocity angular_velocity : Vec3) (now : R) : list R :=
  laser_distances ++ np_array position ++ np_array orientation
  ++ np_array velocity ++ np_array angular_velocity
  ++ opponent_info s position orientation
  ++ boundary_info s position
  ++ mine_info s position orientation
  ++ laser_info s now
  ++ np_zeros 2.

(** [_get_observation]: the frame of this instant, pushed on the history,
    and the history flattened, oldest frame first.  Any exception on the
    way is answered by a zero vector. *)
Definition _get_observation (ph : Physics) (now : R) : M t (list R) :=
  try_except
    (s <- get ;;
     match CombatArena.vehicle (arena s) with
     | None => ret (np_zeros (observation_space s))
     | Some v =>
         laser_distances <- lift (LaserVehicle.get_laser_distances v ph) ;;
         ' (position, orientation) <-
             lift (LaserVehicle.get_position_and_orientation v ph) ;;
         velocity <- lift (LaserVehicle.get_velocity v ph) ;;
         angular_velocity <- lift (LaserVehicle.get_angular_velocity v ph) ;;
         let current_observation :=
           current_observation s laser_distances position orientation
             velocity angular_velocity now in
         let history_length := history_length (observation_config s) in
         match _observation_history s with
         | None =>
             modify (set_observation_history
                       (Some (repeat current_observation history_length)))
         | Some _ => ret tt
         end ;;
         modify (fun s => set_observation_history
                   (Some (deque_append history_length (history_of s)
                            current_observation)) s) ;;
         s <- get ;;
         ret (concat (history_of s))
     end)%py
    (fun _ => s <- get ;; ret (np_zeros (observation_space s)))%py.

(** *** Reward *)

(** The Python value [_compute_reward] receives as [info]. *)
Inductive PyInfo : Type :=
| PyBool (b : bool)
| PyDict (d : list (string * bool)).

(** [info.get(key, default)] *)
Fixpoint info_get (key : string) (default : bool) (d : list (string * bool)) : bool :=
  match d with
  | [] => default
  | (k, b) :: d' => if String.eqb key k then b else info_get key default d'
  end.

(** [info.get('laser_hit', False)] when [info] is a dictionary, [False]
    otherwise. *)
Definition laser_hit_of (info : PyInfo) : bool :=
  match info with
  | PyDict d => info_get "laser_hit" false d
  | PyBool _ => false
  end.

Definition initial_reward_components : Dict :=
  [item "survival_reward" 0.01;
   item "distance_reward" 0.0;
   item "rotation_reward" 0.0;
   item "waypoint_reward" 0.0;
   item "laser_reward" 0.0;
   item "goal_reward" 0.0;
   item "mine_penalty" 0.0;
   item "collision_reward" 0.0;
   item "out_of_bounds" 0.0;
   item "smooth_reward" 0.0;
   item "exploration_reward" 0.0;
   item "energy_conservation" 0.0;
   item "time_penalty" (-0.005);
   item "total_reward" 0.0].

(** [{key: 0.0 for key in self.reward_metrics_keys}] *)
Definition zero_metrics : Dict := map (fun key => (key, 0.0)) reward_metrics_keys.

Definition reward_out_of_bounds (s : t) (position : Vec3) (d : Dict) : Dict :=
  if Rltb (CombatArena.arena_half_size (arena s)) (Rabs (at0 position))
     || Rltb (CombatArena.arena_half_size (arena s)) (Rabs (at1 position))
  then dict_set "out_of_bounds" (-5.0) d
  else d.

(** The loop over [self.arena.mine_positions], with its [break]. *)
Fixpoint reward_mines (position : Vec3) (mines : list Vec3) (d : Dict) : Dict :=
  match mines with
  | [] => d
  | mine_pos :: rest =>
      let dx := at0 position - at0 mine_pos in
      let dy := at1 position - at1 mine_pos in
      let distance_to_mine := sqrt (dx * dx + dy * dy) in
      if Rltb distance_to_mine (0.075 + 0.15) then
        dict_set "mine_penalty" (-15.0) d
      else if Rltb distance_to_mine (0.075 + 0.3) then
        let close_penalty := -2.0 * (1.0 - (distance_to_mine - 0.075) / 0.3) in
        reward_mines position rest
          (dict_set "mine_penalty"
             (Rmin (dict_val "mine_penalty" d) close_penalty) d)
      else if Rltb distance_to_mine 0.7 && Rltb 0.3 distance_to_mine then
        let avoid_reward := 0.2 * ((distance_to_mine - 0.3) / 0.4) in
        reward_mines position rest (dict_add "mine_penalty" avoid_reward d)
      else reward_mines position rest d
  end.

Definition reward_collision (collision : bool) (d : Dict) : Dict :=
  if collision then dict_set "collision_reward" (-5.0) d else d.

(** Distance, facing and lap rewards, when an opponent is recorded. *)
Definition reward_opponent (s : t) (position orientation : Vec3) (d : Dict)
  : Dict :=
  match opponent_position s with
  | None => d
  | Some opponent_position =>
      let dx := at0 opponent_position - at0 position in
      let dy := at1 opponent_position - at1 position in
      let distance := sqrt (dx * dx + dy * dy) in
      let angle := np_arctan2 dy dx in
      let relative_angle := normalize_angle (angle - at2 orientation) in
      let d :=
        if boundary_crossed s then
          let ideal_distance := 1.0 in
          let proximity_factor :=
            if Rltb distance ideal_distance
            then 1.0 - (ideal_distance - distance) / ideal_distance
            else 1.0 - Rmin 1.0 ((distance - ideal_distance) / 2.0) in
          dict_set "distance_reward" (0.8 * proximity_factor) d
        else d in
      let d :=
        if boundary_crossed s then
          let alignment := cos relative_angle in
          dict_set "rotation_reward" (0.5 * Rmax 0 alignment) d
        else d in
      let half := CombatArena.arena_half_size (arena s) in
      let start_pos := vec3 (- half + 0.5) (- half + 0.5) 0.1 in
      let dx_start := at0 position - at0 start_pos in
      let dy_start := at1 position - at1 start_pos in
      let distance_to_start := sqrt (dx_start * dx_start + dy_start * dy_start) in
      if Rltb distance_to_start 0.5 && (100 <? steps s)%Z
      then dict_add "goal_reward" 3.0 d
      else d
  end.

Definition reward_waypoint (s : t) (d : Dict) : Dict :=
  if boundary_crossed s then dict_set "waypoint_reward" 0.3 d else d.

(** The hit reward, its ramp, and the victory bonus. *)
Definition reward_laser (s : t) (now : R) (laser_hit : bool) (d : Dict) : Dict :=
  if laser_hit then
    let d := dict_set "laser_reward" 2.0 d in
    match continuous_hit_start s with
    | Some start =>
        let hit_duration := now - start in
        let d := dict_add "laser_reward" (Rmin 5.0 (hit_duration * 2.0)) d in
        if Rleb 2.0 hit_duration
        then dict_set "goal_reward" 50.0 d
        else d
    | None => d
    end
  else d.

Definition reward_obstacles (laser_distances : list R) (d : Dict) : Dict :=
  let min_laser :=
    match laser_distances with
    | [] => 999
    | x :: xs => np_min x xs
    end in
  if Rltb min_laser 0.3 then
    let obstacle_penalty := -0.5 * (0.3 - min_laser) / 0.3 in
    dict_add "laser_reward" obstacle_penalty d
  else
    match laser_distances with
    | x :: xs => if Rltb 0.3 (np_min x xs)
                 then dict_add "laser_reward" 0.1 d
                 else d
    | [] => d
    end.

Definition reward_speed (speed : R) (d : Dict) : Dict :=
  let ideal_speed := 1.5 in
  let speed_diff := Rabs (speed - ideal_speed) in
  if Rltb speed_diff 0.5
  then dict_add "smooth_reward" (0.2 * (1.0 - speed_diff / 0.5)) d
  else dict_add "smooth_reward" (- (0.1 * Rmin 1.0 ((speed_diff - 0.5) / 1.0))) d.

Definition reward_smooth (s : t) (action : list R) (d : Dict) : result Dict :=
  match previous_action s with
  | Some previous_action =>
      match np_sub action previous_action with
      | Raised e => Raised e
      | Ok diff =>
          let action_diff := np_sum (map Rabs diff) in
          let smoothness := exp (- action_diff) in
          Ok (dict_add "smooth_reward" (0.2 * smoothness) d)
      end
  | None => Ok d
  end.

Definition reward_energy (action : list R) (d : Dict) : Dict :=
  let energy := np_sum (map (fun a => a * a) action) in
  let energy_factor := exp (- energy) in
  dict_set "energy_conservation" (0.1 * energy_factor) d.

Definition grid_eqb (p q : Z * Z) : bool :=
  ((fst p =? fst q) && (snd p =? snd q))%Z.

(** The exploration bonus for a grid cell not visited before. *)
Definition reward_exploration (position : Vec3) (d : Dict) : M t Dict :=
  fun s =>
    let half := CombatArena.arena_half_size (arena s) in
    let grid_x := py_int ((at0 position + half) / 0.2) in
    let grid_y := py_int ((at1 position + half) / 0.2) in
    let grid_pos := (grid_x, grid_y) in
    match visited_positions s with
    | Some visited =>
        if negb (existsb (grid_eqb grid_pos) visited)
        then (set_visited_positions (Some (visited ++ [grid_pos])) s,
              Ok (dict_set "exploration_reward" 0.1 d))
        else (s, Ok d)
    | None => (set_visited_positions (Some [grid_pos]) s, Ok d)
    end.

(** The dictionary [_compute_reward] has built when it reaches the
    action-smoothness term, as a function of what it has read. *)
Definition shaped (s : t) (position orientation velocity : Vec3)
  (collision : bool) (laser_distances : list R) (now : R) (laser_hit : bool)
  : Dict :=
  reward_speed (np_linalg_norm velocity)
    (reward_obstacles laser_distances
       (reward_laser s now laser_hit
          (reward_waypoint s
             (reward_opponent s position orientation
                (reward_collision collision
                   (reward_mines position (CombatArena.mine_positions (arena s))
                      (reward_out_of_bounds s position
                         initial_reward_components))))))).

(** [_compute_reward(action, info)] *)
Definition _compute_reward (ph : Physics) (now : R) (action : list R)
  (info : PyInfo) : M t (R * Dict) :=
  try_except
    (s <- get ;;
     match CombatArena.vehicle (arena s) with
     | None => ret (0.0, zero_metrics)
     | Some v =>
         let reward_components := initial_reward_components in
         ' (position, orientation) <-
             lift (LaserVehicle.get_position_and_orientation v ph) ;;
         velocity <- lift (LaserVehicle.get_velocity v ph) ;;
         let speed := np_linalg_norm velocity in
         let laser_hit := laser_hit_of info in
         modify (set_current_position (Some position)) ;;
         let reward_components :=
           reward_out_of_bounds s position reward_components in
         let reward_components :=
           reward_mines position (CombatArena.mine_positions (arena s))
             reward_components in
         collision <- lift (LaserVehicle.check_collision v ph) ;;
         let reward_components := reward_collision collision reward_components in
         let reward_components :=
           reward_opponent s position orientation reward_components in
         let reward_components := reward_waypoint s reward_components in
         let reward_components :=
           reward_laser s now laser_hit reward_components in
         laser_distances <- lift (LaserVehicle.get_laser_distances v ph) ;;
         let reward_components :=
           reward_obstacles laser_distances reward_components in
         let reward_components := reward_speed speed reward_components in
         reward_components <- lift (reward_smooth s action reward_components) ;;
         let reward_components := reward_energy action reward_components in
         reward_components <- reward_exploration position reward_components ;;
         modify (set_previous_action (Some action)) ;;
         let total_reward := np_sum (dict_values reward_components) in
         ret (total_reward,
              dict_set "total_reward" total_reward reward_components)
     end)%py
    (fun _ => ret (0.0, zero_metrics)).

(** *** Termination *)

Definition touches_mine (position mine_pos : Vec3) : bool :=
  let dx := at0 position - at0 mine_pos in
  let dy := at1 position - at1 mine_pos in
  let distance_to_mine := sqrt (dx * dx + dy * dy) in
  Rltb distance_to_mine (0.075 + 0.15).

Definition is_empty {A} (l : list A) : bool :=
  match l with [] => true | _ => false end.

(** [_is_terminated]: collision, mine contact, victory, far out of
    bounds. *)
Definition _is_terminated (ph : Physics) (now : R) : M t bool :=
  (v <- the_vehicle ;;
   collision <- lift (LaserVehicle.check_collision v ph) ;;
   if collision : bool then ret true else
   ' (position, _) <- lift (LaserVehicle.get_position_and_orientation v ph) ;;
   s <- get ;;
   if negb (is_empty (CombatArena.mine_objects (arena s)))
      && existsb (touches_mine position) (CombatArena.mine_positions (arena s))
   then ret true else
   if match continuous_hit_start s with
      | Some start => Rleb 2.0 (now - start)
      | None => false
      end
   then ret true else
   if Rltb 3.5 (Rabs (at0 position)) || Rltb 3.5 (Rabs (at1 position))
   then ret true
   else ret false)%py.

Definition _is_truncated : M t bool :=
  (s <- get ;; ret (max_steps s <=? steps s)%Z)%py.

(** *** One step *)

(** What the outside world contributes to one call of [step]: the
    engine's answers before and after the simulation tick, whether the
    tick itself went through, and the clock readings of the call. *)
Record StepInput : Type := {
  before : Physics;
  tick : result unit;
  after : Physics;
  t_laser : R;
  t_observation : R;
  t_reward : R;
  t_terminated : R;
  t_info : R
}.

Record StepInfo : Type := {
  info_episode_reward : R;
  info_current_step : Z;
  info_reward_components : Dict;
  info_difficulty : R;
  info_laser_hit : bool;
  info_continuous_hit_time : R
}.

(** The tuple [step] returns, and the velocity command it sent to the
    engine on the way. *)
Record StepOutput : Type := {
  command : LaserVehicle.VelocityCommand;
  observation : list R;
  reward : R;
  reward_components : Dict;
  is_terminated : bool;
  is_truncated : bool;
  info : StepInfo
}.

(** [step(action)] *)
Definition step (action : list R) (i : StepInput) : M t StepOutput :=
  (modify (fun s => set_steps (steps s + 1) s) ;;
   modify (set_current_action (Some action)) ;;
   let scaled_action := map (fun a => a * 3.0) action in
   v <- the_vehicle ;;
   command <- lift (LaserVehicle.apply_action v (before i) scaled_action) ;;
   lift (tick i) ;;
   _check_boundary_crossed (after i) ;;
   hit <- _check_laser_hit (after i) (t_laser i) ;;
   observation <- _get_observation (after i) (t_observation i) ;;
   ' (reward, reward_components) <-
       _compute_reward (after i) (t_reward i) action (PyBool hit) ;;
   modify (fun s => set_episode_reward (episode_reward s + reward) s) ;;
   modify (set_previous_action (Some action)) ;;
   modify (set_episode_metrics reward_components) ;;
   terminated <- _is_terminated (after i) (t_terminated i) ;;
   truncated <- _is_truncated ;;
   s <- get ;;
   ret {| command := command;
          observation := observation;
          reward := reward;
          reward_components := reward_components;
          is_terminated := terminated;
          is_truncated := truncated;
          info :=
            {| info_episode_reward := episode_reward s;
               info_current_step := steps s;
               info_reward_components := episode_metrics s;
               info_difficulty := difficulty s;
               info_laser_hit := laser_hit s;
               info_continuous_hit_time :=
                 match continuous_hit_start s with
                 | None => 0
                 | Some start => t_info i - start
                 end |} |})%py.

(** A run of steps with no reset in between, whatever each step returns
    or raises: the state it leaves behind. *)
Fixpoint run_steps (calls : list (list R * StepInput)) (s : t) : t :=
  match calls with
  | [] => s
  | (action, i) :: rest => run_steps rest (fst (step action i s))
  end.

(** *** Reset *)

(** [np.random.rand()] *)
Definition np_random_rand : M t R :=
  fun s => (set_np_random (fun n => np_random s (S n)) s, Ok (np_random s O)).

(** [np.random.uniform(low, high)] *)
Definition np_random_uniform (low high : R) : M t R :=
  (u <- np_random_rand ;; ret (low + (high - low) * u))%py.

(** [_get_random_start_position]: the lower-left or the upper-right
    corner. *)
Definition _get_random_start_position : M t Vec3 :=
  (u <- np_random_rand ;;
   s <- get ;;
   let half := CombatArena.arena_half_size (arena s) in
   if Rltb 0.5 u
   then ret (vec3 (- half + 0.5) (- half + 0.5) 0.1)
   else ret (vec3 (half - 0.5) (half - 0.5) 0.1))%py.

(** What the outside world contributes to one call of [reset]: whether
    the engine rebuilt the scene, its answers about the freshly spawned
    vehicle, and the clock reading of the first observation. *)
Record ResetInput : Type := {
  rebuild : result unit;
  spawned : Physics;
  t_first_observation : R
}.

(** The loop that draws the controller's own mine positions; the arena
    has no [spawn_mine], so they stay with the controller. *)
Fixpoint draw_mines (mine_count : nat) : M t unit :=
  match mine_count with
  | O => ret tt
  | S n =>
      (mine_x <- np_random_uniform (-2.0) 2.0 ;;
       mine_y <- np_random_uniform (-2.0) 2.0 ;;
       modify (fun s => set_mine_positions
                          (mine_positions s ++ [vec3 mine_x mine_y 0.05]) s) ;;
       draw_mines n)%py
  end.

(** [self.arena.spawn_vehicle(...)] *)
Definition spawn_vehicle (mass : R) (size : Vec3) : M t Z :=
  fun s =>
    let '(a, body) := CombatArena.spawn_vehicle mass size (arena s) in
    (set_arena a s, Ok body).

(** The body of [_reset_environment] up to the first observation: the
    field is rebuilt, the two vehicles are spawned at opposite corners and
    the controller's mines are drawn. *)
Definition respawn (i : ResetInput) : M t unit :=
  (lift (rebuild i) ;;
   modify (fun s => set_arena (CombatArena.reset (arena s)) s) ;;
   start_pos <- _get_random_start_position ;;
   start_yaw <- np_random_uniform (- PI) PI ;;
   spawn_vehicle 1.5 (vec3 0.2 0.15 0.1) ;;
   s <- get ;;
   let half := CombatArena.arena_half_size (arena s) in
   let opponent_pos :=
     if Rltb (at0 start_pos) 0
     then vec3 (half - 0.5) (half - 0.5) 0.1
     else vec3 (- half + 0.5) (- half + 0.5) 0.1 in
   opponent_yaw <- np_random_uniform (- PI) PI ;;
   modify (set_opponent_position (Some opponent_pos)) ;;
   opponent <- spawn_vehicle 1.5 (vec3 0.2 0.15 0.1) ;;
   modify (set_opponent_id (Some opponent)) ;;
   modify (fun s =>
             match CombatArena.vehicle (arena s) with
             | Some v =>
                 set_arena
                   (CombatArena.set_vehicle
                      (Some (LaserVehicle.set_opponent opponent v)) (arena s)) s
             | None => s
             end) ;;
   s <- get ;;
   let mine_count := Z.to_nat (py_int (difficulty s * 8)) in
   modify (set_mine_positions []) ;;
   draw_mines mine_count)%py.

(** [_reset_environment]; the empty [info] dictionary it returns beside
    the observation is left out. *)
Definition _reset_environment (i : ResetInput) : M t (list R) :=
  try_except
    (respawn i ;;
     _get_observation (spawned i) (t_first_observation i))%py
    (fun _ => s <- get ;; ret (np_zeros (observation_space s)))%py.

(** [reset(seed)] *)
Definition reset (seed : option Z) (i : ResetInput) : M t (list R) :=
  (match seed with
   | Some seed => modify (set_np_random (seeded seed))
   | None => ret tt
   end ;;
   modify (set_steps 0) ;;
   modify (set_terminated false) ;;
   modify (set_truncated false) ;;
   modify (set_laser_hits_count 0) ;;
   modify (set_consecutive_laser_hits (Some 0%Z)) ;;
   modify (set_last_laser_hit_time (Some 0)) ;;
   modify (set_reward_history (Some [])) ;;
   observation <- _reset_environment i ;;
   modify (set_previous_action None) ;;
   ret observation)%py.

End Generator.

End AdvancedLaserVehicleEnv.

(** ** [laser_vehicle.py]: what a vehicle reports of itself

    [get_state], [normalize_state], [get_flattened_state] and
    [get_laser_cooldown_normalized] of class [LaserVehicle]. *)

Module LaserVehicleState.

(** [x == y] on floats. *)
Definition Reqb (x y : R) : bool := if Req_dec_T x y then true else false.

(** [x / y] on Python floats: division by zero raises. *)
Definition py_div (x y : R) : result R :=
  if Reqb y 0 then Raised ZeroDivisionError else Ok (x / y).

(** The attributes [get_state] reads besides those of [LaserVehicle.t]:
    what [set_mine_info] wrote, and the deque of the laser detector. *)
Record Memory : Type := {
  mine_positions : list Vec3;
  mine_radius : R;
  laser_hit_times : list R
}.

(** As [__init__] leaves them. *)
Definition fresh : Memory :=
  {| mine_positions := []; mine_radius := 0.5; laser_hit_times := [] |}.

(** [set_mine_info] *)
Definition set_mine_info (positions : list Vec3) (radius : R) (m : Memory)
  : Memory :=
  {| mine_positions := positions; mine_radius := radius;
     laser_hit_times := laser_hit_times m |}.

(** What the engine answers to the queries of [get_state]: about the
    vehicle itself, and about its opponent. *)
Record Answers : Type := {
  own : Physics;
  opponent_pose : result (Vec3 * Vec3);
  opponent_velocity : result (Vec3 * Vec3)
}.

(** The dictionary [get_state] returns, entry by entry; a two-element
    array is a pair. *)
Record SelfState : Type := {
  position : R * R;
  orientation : R;
  linear_velocity : R;
  angular_velocity : R
}.

Record OpponentState : Type := {
  relative_position : R * R;
  relative_velocity : R * R;
  relative_orientation : R;
  opponent_orientation : R;          (* ['opponent']['orientation'] *)
  laser_hit_time : R
}.

Record EnvironmentState : Type := {
  mine_distance : R;
  border_distance : R;
  in_opponent_field : R;
  boundary_distance : R * R
}.

Record State : Type := {
  self : SelfState;
  opponent : OpponentState;
  environment : EnvironmentState
}.

(** [get_laser_hit_time]: [sum(self.laser_hit_times)] *)
Definition get_laser_hit_time (m : Memory) : R :=
  fold_right Rplus 0 (laser_hit_times m).

(** The loop over [self.mine_positions]; [None] is [float('inf')]. *)
Fixpoint nearest_edge (x y radius : R) (mines : list Vec3)
  (min_mine_dist : option R) : option R :=
  match mines with
  | [] => min_mine_dist
  | mine_pos :: rest =>
      let dx := x - at0 mine_pos in
      let dy := y - at1 mine_pos in
      let dist_to_center := sqrt (dx ^ 2 + dy ^ 2) in
      let dist_to_edge := Rmax 0 (dist_to_center - radius) in
      nearest_edge x y radius rest
        (Some match min_mine_dist with
              | None => dist_to_edge
              | Some m => Rmin m dist_to_edge
              end)
  end.

(** [get_state] *)
Definition get_state (v : LaserVehicle.t) (m : Memory) (ans : Answers)
  : result State :=
  match getBasePositionAndOrientation (own ans) with
  | Raised e => Raised e
  | Ok (pos, euler) =>
  match getBaseVelocity (own ans) with
  | Raised e => Raised e
  | Ok (linear_vel, angular_vel) =>
      let linear_speed := sqrt (at0 linear_vel ^ 2 + at1 linear_vel ^ 2) in
      let self_state :=
        {| position := (at0 pos, at1 pos);
           orientation := at2 euler;
           linear_velocity := linear_speed;
           angular_velocity := at2 angular_vel |} in
      let opponent_state :=
        match LaserVehicle.opponent_id v with
        | Some _ =>
            match opponent_pose ans with
            | Raised e => Raised e
            | Ok (opp_pos, opp_euler) =>
            match opponent_velocity ans with
            | Raised e => Raised e
            | Ok (opp_linear_vel, _) =>
                Ok {| relative_position :=
                        (at0 opp_pos - at0 pos, at1 opp_pos - at1 pos);
                      relative_velocity :=
                        (at0 opp_linear_vel - at0 linear_vel,
                         at1 opp_linear_vel - at1 linear_vel);
                      relative_orientation :=
                        normalize_angle (at2 opp_euler - at2 euler);
                      opponent_orientation := at2 opp_euler;
                      laser_hit_time := get_laser_hit_time m |}
            end
            end
        | None =>
            Ok {| relative_position := (0.0, 0.0);
                  relative_velocity := (0.0, 0.0);
                  relative_orientation := 0.0;
                  opponent_orientation := 0.0;
                  laser_hit_time := 0.0 |}
        end in
      match opponent_state with
      | Raised e => Raised e
      | Ok opponent_state =>
          let min_mine_dist :=
            match nearest_edge (at0 pos) (at1 pos) (mine_radius m)
                    (mine_positions m) None with
            | Some d => d
            | None => 0.0
            end in
          let distance_to_border := Rabs (at1 pos) in
          let in_opponent_field :=
            if (Rltb 0 (at1 pos) && Rltb (at0 pos) 0)
               || (Rltb (at1 pos) 0 && Rltb 0 (at0 pos))
            then 1.0 else 0.0 in
          let distance_to_x_boundary :=
            Rmin (2.0 - Rabs (at0 pos)) (Rabs (at0 pos) + 2.0) in
          let distance_to_y_boundary :=
            Rmin (2.0 - Rabs (at1 pos)) (Rabs (at1 pos) + 2.0) in
          Ok {| self := self_state;
                opponent := opponent_state;
                environment :=
                  {| mine_distance := min_mine_dist;
                     border_distance := distance_to_border;
                     in_opponent_field := in_opponent_field;
                     boundary_distance :=
                       (distance_to_x_boundary, distance_to_y_boundary) |} |}
      end
  end
  end.

(** [normalize_state]; the two divisions of floats by an attribute of the
    vehicle raise when that attribute is zero. *)
Definition normalize_state (v : LaserVehicle.t) (state : State) : result State :=
  match py_div (linear_velocity (self state)) (LaserVehicle.max_velocity v) with
  | Raised e => Raised e
  | Ok linear =>
  match py_div (angular_velocity (self state))
          (LaserVehicle.max_angular_velocity v) with
  | Raised e => Raised e
  | Ok angular =>
      Ok {| self :=
              {| position := (fst (position (self state)) / 2.0,
                              snd (position (self state)) / 2.0);
                 orientation := orientation (self state) / PI;
                 linear_velocity := linear;
                 angular_velocity := angular |};
            opponent :=
              {| relative_position :=
                   (fst (relative_position (opponent state)) / 4.0,
                    snd (relative_position (opponent state)) / 4.0);
                 relative_velocity :=
                   (fst (relative_velocity (opponent state))
                    / (2 * LaserVehicle.max_velocity v),
                    snd (relative_velocity (opponent state))
                    / (2 * LaserVehicle.max_velocity v));
                 relative_orientation :=
                   relative_orientation (opponent state) / PI;
                 opponent_orientation :=
                   opponent_orientation (opponent state) / PI;
                 laser_hit_time :=
                   Rmin 1.0 (laser_hit_time (opponent state) / 0.5) |};
            environment :=
              {| mine_distance :=
                   Rmin 1.0 (mine_distance (environment state) / 4.0);
                 border_distance := border_distance (environment state) / 2.0;
                 in_opponent_field :=
                   in_opponent_field (environment state) * 2.0 - 1.0;
                 boundary_distance :=
                   (fst (boundary_distance (environment state)) / 2.0,
                    snd (boundary_distance (environment state)) / 2.0) |} |}
  end
  end.

(** The concatenation of [get_flattened_state]. *)
Definition flatten (state : State) : list R :=
  let s := self state in
  let o := opponent state in
  let e := environment state in
  [fst (position s); snd (position s)]
  ++ [orientation s]
  ++ [linear_velocity s]
  ++ [angular_velocity s]
  ++ [fst (relative_position o); snd (relative_position o)]
  ++ [fst (relative_velocity o); snd (relative_velocity o)]
  ++ [relative_orientation o]
  ++ [opponent_orientation o]
  ++ [laser_hit_time o]
  ++ [mine_distance e]
  ++ [border_distance e]
  ++ [in_opponent_field e]
  ++ [fst (boundary_distance e); snd (boundary_distance e)].

(** [get_flattened_state(normalized)] *)
Definition get_flattened_state (v : LaserVehicle.t) (m : Memory)
  (ans : Answers) (normalized : bool) : result (list R) :=
  match get_state v m ans with
  | Raised e => Raised e
  | Ok state =>
      if normalized then
        match normalize_state v state with
        | Raised e => Raised e
        | Ok state => Ok (flatten state)
        end
      else Ok (flatten state)
  end.

(** [self.last_fire_time]: set to 0 by [__init__]; no method writes it. *)
Definition last_fire_time (v : LaserVehicle.t) : R := 0.

(** [get_laser_cooldown_normalized], [current_time] being what
    [time.time()] reads. *)
Definition get_laser_cooldown_normalized (v : LaserVehicle.t)
  (current_time : R) : result R :=
  let time_since_fire := current_time - last_fire_time v in
  match py_div time_since_fire (LaserVehicle.laser_cooldown_time v) with
  | Raised e => Raised e
  | Ok ratio =>
      let cooldown_progress := Rmin 1.0 ratio in
      Ok (1.0 - cooldown_progress)
  end.

End LaserVehicleState.

(** ** [curriculum_learning.py]: the mines of the last stage

    The methods of [CurriculumManager] that work on the arena.  Python's
    own generator ([random]) is the state: the samples of [[0, 1)] it
    delivers next. *)

Module CurriculumField.

(** [random.random()] *)
Definition random_random : M (nat -> R) R :=
  fun g => (fun n => g (S n), Ok (g O)).

(** [random.uniform(a, b)], that is [a + (b - a) * random()]. *)
Definition random_uniform (a b : R) : M (nat -> R) R :=
  (u <- random_random ;; ret (a + (b - a) * u))%py.

(** The [for] loop over the mines placed so far, with its [break]. *)
Definition overlap (mine_radius x y : R) (mines : list Vec3) : bool :=
  existsb (fun m =>
             let dist := sqrt ((x - at0 m) ^ 2 + (y - at1 m) ^ 2) in
             Rltb dist (2 * mine_radius))
          mines.

(** The first [while] loop; [attempts_left] is [max_attempts - attempts]. *)
Fixpoint sample_mines (attempts_left : nat) (arena : CombatArena.t)
  (mines : list Vec3) : M (nat -> R) (list Vec3) :=
  match attempts_left with
  | O => ret mines
  | S n =>
      if (length mines <? 3)%nat then
        (x <- random_uniform (-1.5) 1.5 ;;
         y <- random_uniform (-1.5) 1.5 ;;
         if overlap (CombatArena.mine_radius arena) x y mines
         then sample_mines n arena mines
         else sample_mines n arena
                (mines ++ [vec3 x y (CombatArena.mine_height arena / 2)]))%py
      else ret mines
  end.

(** The second [while] loop, which appends [default_positions[len(mines)]]
    until there are three; three rounds are all it can need. *)
Fixpoint fill_mines (rounds : nat) (default_positions mines : list Vec3)
  : M (nat -> R) (list Vec3) :=
  match rounds with
  | O => ret mines
  | S n =>
      if (length mines <? 3)%nat then
        match nth_error default_positions (length mines) with
        | Some position => fill_mines n default_positions (mines ++ [position])
        | None => raise IndexError
        end
      else ret mines
  end.

(** [_generate_random_mine_positions] *)
Definition _generate_random_mine_positions (arena : CombatArena.t)
  : M (nat -> R) (list Vec3) :=
  let max_attempts := 100%nat in
  (mines <- sample_mines max_attempts arena [] ;;
   let default_positions :=
     [vec3 (-1.0) 0 (CombatArena.mine_height arena / 2);
      vec3 0 0 (CombatArena.mine_height arena / 2);
      vec3 1.0 0 (CombatArena.mine_height arena / 2)] in
   fill_mines 3 default_positions mines)%py.

End CurriculumField.

(** ** [curriculum_learning.py]: the rule-based opponent's way out

    [_find_safe_direction] of [CurriculumManager]. *)

Module CurriculumOpponent.

Import LaserVehicleState.

(** [np.linspace(start, stop, num, endpoint=False)] *)
Definition np_linspace_open (start stop : R) (num : nat) : list R :=
  map (fun k => start + INR k * ((stop - start) / INR num)) (seq 0 num).

(** [np.argmax]: the index of the first of the largest entries. *)
Fixpoint argmax_from (best_index : nat) (best : R) (index : nat) (xs : list R)
  : nat :=
  match xs with
  | [] => best_index
  | x :: rest =>
      if Rltb best x then argmax_from index x (S index) rest
      else argmax_from best_index best (S index) rest
  end.

Definition np_argmax (xs : list R) : result nat :=
  match xs with
  | [] => Raised ValueError
  | x :: rest => Ok (argmax_from 0 x 1 rest)
  end.

(** The loop over the directions: one ray of two metres each, cast from
    just above the ground. *)
Fixpoint safe_distances (rayTest : Vec3 -> Vec3 -> result RayHit)
  (pos : R * R) (orient : R) (angles : list R) : result (list R) :=
  match angles with
  | [] => Ok []
  | angle :: rest =>
      let ray_dir := vec3 (cos (orient + angle)) (sin (orient + angle)) 0 in
      let ray_start := vec3 (fst pos) (snd pos) 0.05 in
      let ray_end :=
        vec3 (at0 ray_start + at0 ray_dir * 2.0)
             (at1 ray_start + at1 ray_dir * 2.0)
             (at2 ray_start + at2 ray_dir * 2.0) in
      match rayTest ray_start ray_end with
      | Raised e => Raised e
      | Ok result =>
          let distance :=
            if Rleb 1.0 (hit_fraction result) then 2.0
            else hit_fraction result * 2.0 in
          match safe_distances rayTest pos orient rest with
          | Raised e => Raised e
          | Ok distances => Ok (distance :: distances)
          end
      end
  end.

(** [_find_safe_direction(vehicle)]: the wheel speeds that turn the
    vehicle towards the direction with the longest free ray. *)
Definition _find_safe_direction (vehicle : LaserVehicle.t) (m : Memory)
  (ans : Answers) (rayTest : Vec3 -> Vec3 -> result RayHit) : result (list R) :=
  match get_state vehicle m ans with
  | Raised e => Raised e
  | Ok state =>
      let pos := position (self state) in
      let orient := orientation (self state) in
      let angles := np_linspace_open 0 (2 * PI) 8 in
      match safe_distances rayTest pos orient angles with
      | Raised e => Raised e
      | Ok distances =>
          match np_argmax distances with
          | Raised e => Raised e
          | Ok safest_idx =>
              let safest_angle := nth safest_idx angles 0 in
              let angle_diff := safest_angle in
              let angle_diff :=
                if Rltb PI angle_diff then angle_diff - 2 * PI else angle_diff in
              if Rltb (Rabs angle_diff) 0.2 then Ok [0.7; 0.7]
              else if Rltb 0 angle_diff then
                let turn_rate := Rmin 0.7 (angle_diff / PI) in
                Ok [0.7 - turn_rate; 0.7 + turn_rate]
              else
                let turn_rate := Rmin 0.7 (- angle_diff / PI) in
                Ok [0.7 + turn_rate; 0.7 - turn_rate]
          end
      end
  end.

End CurriculumOpponent.

(** ** [advanced_train.py]: class [CurriculumCallback] *)

Module CurriculumCallback.

Record t : Type := {
  check_freq : Z;
  current_difficulty : R;
  difficulty_increment : R;
  success_threshold : R;
  episode_rewards : list R;
  win_count : Z;
  episode_count : Z;
  (** [self.training_env]: the environments of the vectorised
      environment the callback is attached to *)
  training_env : list AdvancedLaserVehicleEnv.t
}.

(** [__init__], then attached to the environments of a training run. *)
Definition __init__ (check_freq : Z)
  (initial_difficulty difficulty_increment success_threshold : R)
  (envs : list AdvancedLaserVehicleEnv.t) : t :=
  {| check_freq := check_freq;
     current_difficulty := initial_difficulty;
     difficulty_increment := difficulty_increment;
     success_threshold := success_threshold;
     episode_rewards := [];
     win_count := 0;
     episode_count := 0;
     training_env := envs |}.

Definition set_current_difficulty (x : R) (c : t) : t :=
  {| check_freq := check_freq c; current_difficulty := x;
     difficulty_increment := difficulty_increment c;
     success_threshold := success_threshold c;
     episode_rewards := episode_rewards c; win_count := win_count c;
     episode_count := episode_count c; training_env := training_env c |}.

Definition set_tally (rewards : list R) (wins episodes : Z) (c : t) : t :=
  {| check_freq := check_freq c; current_difficulty := current_difficulty c;
     difficulty_increment := difficulty_increment c;
     success_threshold := success_threshold c;
     episode_rewards := rewards; win_count := wins;
     episode_count := episodes; training_env := training_env c |}.

Definition set_training_env (envs : list AdvancedLaserVehicleEnv.t) (c : t) : t :=
  {| check_freq := check_freq c; current_difficulty := current_difficulty c;
     difficulty_increment := difficulty_increment c;
     success_threshold := success_threshold c;
     episode_rewards := episode_rewards c; win_count := win_count c;
     episode_count := episode_count c; training_env := envs |}.

(** [a / b] on Python integers. *)
Definition int_div (a b : Z) : result R :=
  if (b =? 0)%Z then Raised ZeroDivisionError else Ok (IZR a / IZR b).

(** [training_env.env_method("set_difficulty", difficulty)] *)
Definition env_method_set_difficulty (difficulty : R) : M t unit :=
  modify (fun c =>
            set_training_env
              (map (fun env =>
                      fst (AdvancedLaserVehicleEnv.set_difficulty_ difficulty env))
                   (training_env c)) c).

(** [_on_step] *)
Definition _on_step : M t bool :=
  (c <- get ;;
   if (check_freq c <=? Z.of_nat (length (episode_rewards c)))%Z then
     success_rate <- lift (int_div (win_count c) (episode_count c)) ;;
     (if Rleb (success_threshold c) success_rate
      then modify (set_current_difficulty
                     (Rmin 1.0 (current_difficulty c + difficulty_increment c)))
      else ret tt) ;;
     modify (set_tally [] 0 0) ;;
     c <- get ;;
     env_method_set_difficulty (current_difficulty c) ;;
     ret true
   else ret true)%py.

(** [update_stats(reward, win)] *)
Definition update_stats (reward : R) (win : bool) : M t unit :=
  modify (fun c =>
            set_tally (episode_rewards c ++ [reward])
              (if win then win_count c + 1 else win_count c)%Z
              (episode_count c + 1)%Z c).

(** The training loop: [n] calls of [_on_step], stopping at the first
    exception. *)
Fixpoint on_steps (n : nat) : M t unit :=
  match n with
  | O => ret tt
  | S k => (_on_step ;; on_steps k)%py
  end.

End CurriculumCallback.

(** ** Notions the properties are stated with *)

(** The distance of two points in the plane of the field. *)
Definition planar_distance (p q : Vec3) : R :=
  sqrt ((at0 p - at0 q) * (at0 p - at0 q) + (at1 p - at1 q) * (at1 p - at1 q)).

(** Mine radius (7.5 cm) plus half the vehicle's width (15 cm). *)
Definition contact_radius : R := 0.075 + 0.15.

(** The victory threshold the controller tests against, in seconds. *)
Definition victory_threshold : R := 2.0.

(** A method keeps a relation [P] between the state it is called in and
    the state it leaves behind, on every path, returning or raising. *)
Definition keeps {St A : Type} (P : St -> St -> Prop) (c : M St A) : Prop :=
  forall s, P s (fst (c s)).

(** An attribute (or any reading [f] of the state) is left as it was. *)
Definition unchanged {St X : Type} (f : St -> X) (s s' : St) : Prop :=
  f s' = f s.

(** The one-way latch: once true, still true. *)
Definition latch_kept (s s' : AdvancedLaserVehicleEnv.t) : Prop :=
  AdvancedLaserVehicleEnv.boundary_crossed s = true ->
  AdvancedLaserVehicleEnv.boundary_crossed s' = true.

(** A method that returns from every state, raising nothing. *)
Definition returns {St A : Type} (c : M St A) : Prop :=
  forall s, is_ok (snd (c s)) = true.

(** The controllers one can come to hold: constructed, then reset,
    stepped and re-tuned any number of times, in any order. *)
Inductive reachable (seeded : Z -> nat -> R)
  (cfg : AdvancedLaserVehicleEnv.ObservationConfig)
  : AdvancedLaserVehicleEnv.t -> Prop :=
| reachable_init difficulty max_steps clock :
    reachable seeded cfg
      (AdvancedLaserVehicleEnv.__init__ seeded difficulty cfg max_steps clock)
| reachable_reset s seed i :
    reachable seeded cfg s ->
    reachable seeded cfg (fst (AdvancedLaserVehicleEnv.reset seeded seed i s))
| reachable_step s action i :
    reachable seeded cfg s ->
    reachable seeded cfg (fst (AdvancedLaserVehicleEnv.step action i s))
| reachable_set_difficulty s d :
    reachable seeded cfg s ->
    reachable seeded cfg (fst (AdvancedLaserVehicleEnv.set_difficulty_ d s)).

(** The construction of an observation fails: there is no vehicle, or one
    of the four engine queries it makes raises. *)
Definition observation_fails (ph : Physics) (s : AdvancedLaserVehicleEnv.t)
  : Prop :=
  match CombatArena.vehicle (AdvancedLaserVehicleEnv.arena s) with
  | None => True
  | Some v =>
      is_ok (LaserVehicle.get_laser_distances v ph) = false
      \/ is_ok (LaserVehicle.get_position_and_orientation v ph) = false
      \/ is_ok (LaserVehicle.get_velocity v ph) = false
      \/ is_ok (LaserVehicle.get_angular_velocity v ph) = false
  end.

(** Every mine position of the arena has its mine body. *)
Definition mines_consistent (a : CombatArena.t) : Prop :=
  length (CombatArena.mine_objects a) = length (CombatArena.mine_positions a).

(** The entries of the reward breakdown that the last blocks of
    [_compute_reward] never write. *)
Definition early_key (k : string) : Prop :=
  k <> "smooth_reward"%string /\ k <> "energy_conservation"%string
  /\ k <> "exploration_reward"%string /\ k <> "total_reward"%string.

(** The primary vehicle, once on the field, is still there. *)
Definition manned_kept (s s' : AdvancedLaserVehicleEnv.t) : Prop :=
  CombatArena.vehicle (AdvancedLaserVehicleEnv.arena s) <> None ->
  CombatArena.vehicle (AdvancedLaserVehicleEnv.arena s') <> None.

(** The length of the frame of one instant, and where the vehicle's
    x coordinate stands in it: right after the sixteen laser distances. *)
Definition frame_length : nat := 40.

Definition position_x (frame : list R) : R := nth 16 frame 0.

(** What [_get_observation] finds as the history when it has built
    [frame]: the deque of the earlier calls, or, on the very first call,
    the frame itself replicated. *)
Definition history_before (s : AdvancedLaserVehicleEnv.t) (frame : list R)
  : list (list R) :=
  match AdvancedLaserVehicleEnv._observation_history s with
  | Some h => h
  | None =>
      repeat frame
        (AdvancedLaserVehicleEnv.history_length
           (AdvancedLaserVehicleEnv.observation_config s))
  end.

(** The history once [frame] is appended to it. *)
Definition pushed (s : AdvancedLaserVehicleEnv.t) (frame : list R)
  : list (list R) :=
  deque_append
    (AdvancedLaserVehicleEnv.history_length
       (AdvancedLaserVehicleEnv.observation_config s))
    (history_before s frame) frame.

(** The corner [_get_random_start_position] picks on the sample [u], and
    the opposite one, where [_reset_environment] puts the opponent. *)
Definition start_corner (u half : R) : Vec3 :=
  if Rltb 0.5 u
  then vec3 (- half + 0.5) (- half + 0.5) 0.1
  else vec3 (half - 0.5) (half - 0.5) 0.1.

Definition opponent_corner (u half : R) : Vec3 :=
  if Rltb (at0 (start_corner u half)) 0
  then vec3 (half - 0.5) (half - 0.5) 0.1
  else vec3 (- half + 0.5) (- half + 0.5) 0.1.

(** The mine positions the loop of [_reset_environment] draws from the
    samples [rand]. *)
Fixpoint drawn (rand : nat -> R) (mine_count : nat) : list Vec3 :=
  match mine_count with
  | O => []
  | S n =>
      vec3 (-2.0 + (2.0 - -2.0) * rand 0%nat) (-2.0 + (2.0 - -2.0) * rand 1%nat) 0.05
      :: drawn (fun k => rand (S (S k))) n
  end.

(** What [reset] leaves alone, as far as the first observation of the
    new episode reads it. *)
Definition kept (s : AdvancedLaserVehicleEnv.t) :=
  (AdvancedLaserVehicleEnv.boundary_crossed s,
   AdvancedLaserVehicleEnv.laser_hit s,
   AdvancedLaserVehicleEnv.continuous_hit_start s,
   AdvancedLaserVehicleEnv.observation_config s,
   AdvancedLaserVehicleEnv.observation_space s,
   AdvancedLaserVehicleEnv.difficulty s).

(** What a frame reads of the controller. *)
Definition frame_inputs (s : AdvancedLaserVehicleEnv.t) :=
  (AdvancedLaserVehicleEnv.opponent_position s,
   AdvancedLaserVehicleEnv.boundary_crossed s,
   AdvancedLaserVehicleEnv.mine_positions s,
   AdvancedLaserVehicleEnv.laser_hit s,
   AdvancedLaserVehicleEnv.continuous_hit_start s).

(** A curriculum manager in order: its stage is one of the configured
    ones, the table of stages knows all of them, and the history fits its
    deque, which holds at least one outcome. *)
Definition in_order (m : CurriculumManager.t) : Prop :=
  (1 <= CurriculumManager.current_stage m
   <= CurriculumManager.max_stage (CurriculumManager.config m))%Z
  /\ (CurriculumManager.max_stage (CurriculumManager.config m) <= 6)%Z
  /\ (1 <= CurriculumManager.maxlen m)%nat
  /\ (length (CurriculumManager.win_history m) <= CurriculumManager.maxlen m)%nat.

(** A method keeps the invariant [I] on every path, returning or raising,
    and what it returns satisfies [Q]. *)
Definition ensures {St A : Type} (Inv : St -> Prop) (Q : A -> Prop) (c : M St A)
  : Prop :=
  forall s, Inv s ->
    Inv (fst (c s)) /\ match snd (c s) with Ok a => Q a | Raised _ => True end.




(** An invariant [Inv] stays true from [s] to [s']. *)
Definition preserved {St : Type} (Inv : St -> Prop) (s s' : St) : Prop :=
  Inv s -> Inv s'.




(** The laser's latch and its streak go together, and only behind the
    open gate. *)
Definition streak_consistent (s : AdvancedLaserVehicleEnv.t) : Prop :=
  (AdvancedLaserVehicleEnv.laser_hit s = true
   <-> AdvancedLaserVehicleEnv.continuous_hit_start s <> None)
  /\ (AdvancedLaserVehicleEnv.laser_hit s = true ->
      AdvancedLaserVehicleEnv.boundary_crossed s = true).

(** What the streak reads of the controller. *)
Definition streak_of (s : AdvancedLaserVehicleEnv.t) :=
  (AdvancedLaserVehicleEnv.laser_hit s,
   AdvancedLaserVehicleEnv.continuous_hit_start s,
   AdvancedLaserVehicleEnv.boundary_crossed s).

(** The arena as [__init__] and [reset] build it: the field of four
    metres, and the three default mines, each with its ring and its
    body. *)
Definition arena_in_order (a : CombatArena.t) : Prop :=
  CombatArena.arena_half_size a = 4.0 / 2
  /\ CombatArena.mine_height a = 0.001
  /\ CombatArena.mine_positions a = CombatArena.default_mine_positions 0.001
  /\ length (CombatArena.mines a) = 3%nat
  /\ length (CombatArena.mine_objects a) = 3%nat.

(** The same, of the arena a controller holds. *)
Definition arena_ok (s : AdvancedLaserVehicleEnv.t) : Prop :=
  arena_in_order (AdvancedLaserVehicleEnv.arena s).

(** The keys of a dictionary, in insertion order. *)
Definition dict_keys (d : Dict) : list string := map fst d.

(** The fourteen keys of the breakdown [_compute_reward] builds. *)
Definition breakdown_keys : list string :=
  dict_keys AdvancedLaserVehicleEnv.initial_reward_components.

(** The cell of the exploration grid a position falls in. *)
Definition cell_of (s : AdvancedLaserVehicleEnv.t) (position : Vec3) : Z * Z :=
  let half := CombatArena.arena_half_size (AdvancedLaserVehicleEnv.arena s) in
  (py_int ((at0 position + half) / 0.2), py_int ((at1 position + half) / 0.2)).

(** The cell is in the set of visited cells. *)
Definition visited (cell : Z * Z) (s : AdvancedLaserVehicleEnv.t) : Prop :=
  match AdvancedLaserVehicleEnv.visited_positions s with
  | Some cells => existsb (AdvancedLaserVehicleEnv.grid_eqb cell) cells = true
  | None => False
  end.

(** The bearing of a mine as the observation reports it: relative to the
    vehicle's heading, brought into range. *)
Definition bearing (position orientation mine_pos : Vec3) : R :=
  normalize_angle
    (np_arctan2 (at1 mine_pos - at1 position) (at0 mine_pos - at0 position)
     - at2 orientation).

(** A point of the central square the random mines are drawn from. *)
Definition in_centre (height : R) (p : Vec3) : Prop :=
  -1.5 <= at0 p <= 1.5 /\ -1.5 <= at1 p <= 1.5 /\ at2 p = height / 2.

(** Two mine discs of radius [mine_radius] that do not overlap. *)
Definition apart (mine_radius : R) (p q : Vec3) : Prop :=
  2 * mine_radius <= planar_distance q p.

(** Every ray the engine is asked for comes back, and comes back free. *)
Definition all_free (rayTest : Vec3 -> Vec3 -> result RayHit) : Prop :=
  forall ray_start ray_end,
    exists hit, rayTest ray_start ray_end = Ok hit /\ 1 <= hit_fraction hit.

(** The callback's tally is in step: one reward per episode counted, and
    no more wins than episodes. *)
Definition tallied (c : CurriculumCallback.t) : Prop :=
  CurriculumCallback.episode_count c
  = Z.of_nat (length (CurriculumCallback.episode_rewards c))
  /\ (0 <= CurriculumCallback.win_count c <= CurriculumCallback.episode_count c)%Z.

(** The clock has not gone back since the current hit started. *)
Definition clock_after_hit (s : AdvancedLaserVehicleEnv.t) (now : R) : Prop :=
  match AdvancedLaserVehicleEnv.continuous_hit_start s with
  | Some start => start <= now
  | None => True
  end.

(** The primary vehicle, when there is one, has the laser range its
    constructor gives it. *)
Definition range_ok (s : AdvancedLaserVehicleEnv.t) : Prop :=
  forall v,
    CombatArena.vehicle (AdvancedLaserVehicleEnv.arena s) = Some v ->
    LaserVehicle.laser_max_distance v = 5.0.

(** ** Concrete scenes

    Inputs on which the examples below run the controller. *)

Module Scene.

Import AdvancedLaserVehicleEnv.

(** The engine's answers for a vehicle at rest at the given pose, touching
    nothing, with every ray free. *)
Definition at_rest (position orientation : Vec3) : Physics :=
  let miss := {| hit_object := -1; hit_fraction := 1;
                 hit_position := vec3 0 0 0 |} in
  {| getBasePositionAndOrientation := Ok (position, orientation);
     getBaseVelocity := Ok (vec3 0 0 0, vec3 0 0 0);
     getContactPoints := Ok O;
     rayTest_fan := Ok (fun _ => miss);
     rayTest_beam := Ok miss |}.

(** The same vehicle with the forward beam on the body [target]. *)
Definition aiming_at (target : Z) (position orientation : Vec3) : Physics :=
  {| getBasePositionAndOrientation := Ok (position, orientation);
     getBaseVelocity := Ok (vec3 0 0 0, vec3 0 0 0);
     getContactPoints := Ok O;
     rayTest_fan := rayTest_fan (at_rest position orientation);
     rayTest_beam := Ok {| hit_object := target; hit_fraction := 0.5;
                           hit_position := vec3 0 0 0 |} |}.

(** An engine that has lost its connection. *)
Definition disconnected : Physics :=
  {| getBasePositionAndOrientation := Raised PhysicsError;
     getBaseVelocity := Raised PhysicsError;
     getContactPoints := Raised PhysicsError;
     rayTest_fan := Raised PhysicsError;
     rayTest_beam := Raised PhysicsError |}.

(** A generator that delivers the same sample whatever the seed. *)
Definition constant_generator (u : R) : Z -> nat -> R := fun _ _ => u.

(** A controller as constructed with the default arguments. *)
Definition constructed : t :=
  __init__ (constant_generator 0.25) 0.5 default_observation_config 1000 0.

(** The same controller once a primary vehicle and an opponent stand on
    the field, as [_reset_environment] spawns them. *)
Definition manned : t :=
  let '(a, _) := CombatArena.spawn_vehicle 1.5 (vec3 0.2 0.15 0.1)
                   (CombatArena.reset (arena constructed)) in
  let '(a, opponent) := CombatArena.spawn_vehicle 1.5 (vec3 0.2 0.15 0.1) a in
  set_opponent_id (Some opponent)
    (set_opponent_position (Some (vec3 (-1.5) (-1.5) 0.1))
       (set_arena a constructed)).

(** One call of [step] in which the engine reports the vehicle at rest at
    [position], all clocks reading [now]. *)
Definition quiet_step (position : Vec3) (now : R) : StepInput :=
  {| before := at_rest position (vec3 0 0 0);
     tick := Ok tt;
     after := at_rest position (vec3 0 0 0);
     t_laser := now; t_observation := now; t_reward := now;
     t_terminated := now; t_info := now |}.

(** One call of [reset] in which the engine rebuilds the scene and
    reports the vehicle at rest at [position]. *)
Definition quiet_reset (position : Vec3) : ResetInput :=
  {| rebuild := Ok tt;
     spawned := at_rest position (vec3 0 0 0);
     t_first_observation := 0 |}.

(** An episode of one step, driven from the upper-right corner, and the
    controller it leaves behind. *)
Definition after_one_episode : t :=
  let generator := constant_generator 0.25 in
  let s := fst (reset generator (Some 7%Z) (quiet_reset (vec3 1.5 1.5 0.1))
                  constructed) in
  fst (step [1; 1] (quiet_step (vec3 1.4 1.5 0.1) 0) s).

(** The curriculum manager after [n] wins in a row from the default
    start. *)
Definition after_wins (n : nat) : CurriculumManager.t :=
  fst (CurriculumManager.record_outcomes (repeat true n)
         (CurriculumManager.__init__ CurriculumManager.default_config)).

End Scene.

(* ===================================================================== *)
(** * Properties *)

Module CM := CurriculumManager.

(** ** Curriculum manager *)

Section Curriculum.

Import CurriculumManager.

Lemma promote_below_top (m : t) :
  (current_stage m <? max_stage (config m))%Z = true ->
  fst (_promote m)
  = {| config := config m; current_stage := current_stage m + 1;
       win_history := [] |}.
Proof.
  intros Hlt. unfold _promote. rewrite Hlt.
  unfold bind, modify, get, lift, setup_environment, ret, set_history, set_stage.
  cbn [config current_stage win_history].
  destruct (stage_name _); cbn; [|reflexivity].
  destruct (_init_stage_params _); reflexivity.
Qed.

Lemma promote_at_top (m : t) :
  (current_stage m <? max_stage (config m))%Z = false ->
  _promote m = (m, Ok tt).
Proof. intros Hge. unfold _promote. now rewrite Hge. Qed.

Lemma demote_above_bottom (m : t) :
  (1 <? current_stage m)%Z = true ->
  fst (_demote m)
  = {| config := config m; current_stage := current_stage m - 1;
       win_history := [] |}.
Proof.
  intros Hlt. unfold _demote. rewrite Hlt.
  unfold bind, modify, get, lift, setup_environment, ret, set_history, set_stage.
  cbn [config current_stage win_history].
  destruct (stage_name _); cbn; [|reflexivity].
  destruct (_init_stage_params _); reflexivity.
Qed.

Lemma demote_at_bottom (m : t) :
  (1 <? current_stage m)%Z = false -> _demote m = (m, Ok tt).
Proof. intros Hge. unfold _demote. now rewrite Hge. Qed.

(** When the promotion condition holds the check is the promotion and
    nothing else: the demotion window is not looked at. *)
Lemma check_promotion_first (m : t) :
  promotion_due (config m) (win_history m) = true ->
  _check_for_promotion_or_demotion m = _promote m.
Proof.
  unfold promotion_due, _check_for_promotion_or_demotion.
  intros Hdue. apply andb_prop in Hdue as [Hlen Hrate].
  assert (Hmin : (length (win_history m)
                  <? Nat.min (promotion_window (config m))
                             (demotion_window (config m)))%nat = false).
  { apply Nat.ltb_ge. apply Nat.leb_le in Hlen. lia. }
  cbv zeta. rewrite Hmin, Hlen.
  destruct (win_rate _) as [rate|e]; [|discriminate].
  now rewrite Hrate.
Qed.

(** C4 (as amended).  After an outcome is appended, if the history holds
    at least [promotion_window] entries whose win rate over the last
    [promotion_window] reaches the promotion threshold, [record_outcome]
    is exactly the promotion step (the demotion check is not evaluated):
    below the top stage the stage grows by one and the history is
    cleared; at the top stage neither the stage nor the history
    changes. *)
Theorem record_outcome_promotion (m : t) (win : bool) :
  let h := deque_append (maxlen m) (win_history m) (if win then 1 else 0)%Z in
  promotion_due (config m) h = true ->
  record_outcome win m = _promote (set_history h m)
  /\ (if (current_stage m <? max_stage (config m))%Z
      then current_stage (fst (record_outcome win m)) = (current_stage m + 1)%Z
           /\ win_history (fst (record_outcome win m)) = []
      else current_stage (fst (record_outcome win m)) = current_stage m
           /\ win_history (fst (record_outcome win m)) = h).
Proof.
  intros h Hdue.
  assert (Hrec : record_outcome win m = _promote (set_history h m)).
  { unfold record_outcome, bind, modify. fold h.
    now apply check_promotion_first. }
  split; [exact Hrec|]. rewrite Hrec.
  destruct (current_stage m <? max_stage (config m))%Z eqn:Hlt.
  - rewrite promote_below_top by exact Hlt. cbn. split; reflexivity.
  - rewrite promote_at_top by exact Hlt. cbn. split; reflexivity.
Qed.

Lemma record_outcome_promotion_witness :
  promotion_due (config (Scene.after_wins 9))
    (deque_append (maxlen (Scene.after_wins 9)) (win_history (Scene.after_wins 9)) 1%Z) = true
  /\ current_stage (fst (record_outcome true (Scene.after_wins 9))) = 2%Z
  /\ win_history (fst (record_outcome true (Scene.after_wins 9))) = [].
Proof.
  split; [vm_compute; reflexivity|].
  exact (proj2 (record_outcome_promotion (Scene.after_wins 9) true
                  ltac:(vm_compute; reflexivity))).
Defined.

(** C4 as stated fails at the top stage: after 59 wins in a row the
    manager is at stage 6 with nine wins in its history; the sixtieth win
    fills the promotion window with a win rate of 1, the stage stays 6
    and the history is not cleared. *)
Lemma record_outcome_top_stage_keeps_history :
  current_stage (Scene.after_wins 59) = 6%Z
  /\ promotion_due (config (Scene.after_wins 59))
       (deque_append (maxlen (Scene.after_wins 59)) (win_history (Scene.after_wins 59)) 1%Z)
     = true
  /\ current_stage (fst (record_outcome true (Scene.after_wins 59))) = 6%Z
  /\ win_history (fst (record_outcome true (Scene.after_wins 59)))
     = repeat 1%Z 10
  /\ win_history (fst (record_outcome true (Scene.after_wins 59))) <> [].
Proof.
  repeat split; try (vm_compute; reflexivity).
  vm_compute. discriminate.
Qed.

End Curriculum.

(** ** Floats and dictionaries *)

Section Floats.

Lemma Rltb_true (x y : R) : x < y -> Rltb x y = true.
Proof. intros H. unfold Rltb. destruct (Rlt_dec x y); [reflexivity|contradiction]. Qed.

Lemma Rltb_false (x y : R) : y <= x -> Rltb x y = false.
Proof. intros H. unfold Rltb. destruct (Rlt_dec x y); [lra|reflexivity]. Qed.

Lemma Rltb_lt (x y : R) : Rltb x y = true <-> x < y.
Proof.
  unfold Rltb. destruct (Rlt_dec x y); split; intros; try discriminate; auto.
Qed.

Lemma Rleb_true (x y : R) : x <= y -> Rleb x y = true.
Proof. intros H. unfold Rleb. destruct (Rle_dec x y); [reflexivity|contradiction]. Qed.

Lemma Rleb_false (x y : R) : y < x -> Rleb x y = false.
Proof. intros H. unfold Rleb. destruct (Rle_dec x y); [lra|reflexivity]. Qed.

Lemma Rleb_le (x y : R) : Rleb x y = true <-> x <= y.
Proof.
  unfold Rleb. destruct (Rle_dec x y); split; intros; try discriminate; auto.
Qed.

End Floats.

(** The rounds given to the two angle loops are enough. *)

Section Angles.

Lemma loops_needed_enough (excess : R) :
  excess / (2 * PI) <= INR (loops_needed excess).
Proof.
  unfold loops_needed.
  destruct (archimed (excess / (2 * PI))) as [Hup _].
  destruct (Z_lt_le_dec (up (excess / (2 * PI))) 0) as [Hneg|Hpos].
  - pose proof (IZR_lt _ _ Hneg) as Hlt.
    destruct (up (excess / (2 * PI))) as [|p|p]; try lia. cbn. lra.
  - rewrite INR_IZR_INZ, Z2Nat.id by exact Hpos. lra.
Qed.

Lemma wrap_down_upper (rounds : nat) (angle : R) :
  (angle - PI) / (2 * PI) <= INR rounds -> wrap_down rounds angle <= PI.
Proof.
  pose proof PI_RGT_0 as Hpi.
  revert angle. induction rounds as [|n IH]; intros angle Hn.
  - cbn in *. apply (Rmult_le_compat_r (2 * PI)) in Hn; [|lra].
    unfold Rdiv in Hn. rewrite Rmult_assoc, Rinv_l in Hn by lra. lra.
  - cbn [wrap_down]. unfold Rltb. destruct (Rlt_dec PI angle) as [Hgt|Hle]; [|lra].
    apply IH. rewrite S_INR in Hn.
    replace ((angle - 2 * PI - PI) / (2 * PI))
      with ((angle - PI) / (2 * PI) - 1) by (field; lra).
    lra.
Qed.

Lemma wrap_down_lower (rounds : nat) (angle : R) :
  - PI <= angle -> - PI <= wrap_down rounds angle.
Proof.
  pose proof PI_RGT_0 as Hpi.
  revert angle. induction rounds as [|n IH]; intros angle Ha; cbn [wrap_down].
  - exact Ha.
  - unfold Rltb. destruct (Rlt_dec PI angle); [apply IH; lra|exact Ha].
Qed.

Lemma wrap_up_lower (rounds : nat) (angle : R) :
  (- PI - angle) / (2 * PI) <= INR rounds -> - PI <= wrap_up rounds angle.
Proof.
  pose proof PI_RGT_0 as Hpi.
  revert angle. induction rounds as [|n IH]; intros angle Hn.
  - cbn in *. apply (Rmult_le_compat_r (2 * PI)) in Hn; [|lra].
    unfold Rdiv in Hn. rewrite Rmult_assoc, Rinv_l in Hn by lra. lra.
  - cbn [wrap_up]. unfold Rltb. destruct (Rlt_dec angle (- PI)) as [Hlt|Hge]; [|lra].
    apply IH. rewrite S_INR in Hn.
    replace ((- PI - (angle + 2 * PI)) / (2 * PI))
      with ((- PI - angle) / (2 * PI) - 1) by (field; lra).
    lra.
Qed.

Lemma wrap_up_upper (rounds : nat) (angle : R) :
  angle <= PI -> wrap_up rounds angle <= PI.
Proof.
  pose proof PI_RGT_0 as Hpi.
  revert angle. induction rounds as [|n IH]; intros angle Ha; cbn [wrap_up].
  - exact Ha.
  - unfold Rltb. destruct (Rlt_dec angle (- PI)); [apply IH; lra|exact Ha].
Qed.

(** X2.  The two loops that bring a relative angle back into range come
    to their exit conditions: the normalised angle lies in [[-pi, pi]],
    whatever the angle they start from. *)
Lemma normalize_angle_range (angle : R) :
  - PI <= normalize_angle angle <= PI.
Proof.
  unfold normalize_angle. cbv zeta. split.
  - apply wrap_up_lower, loops_needed_enough.
  - apply wrap_up_upper, wrap_down_upper, loops_needed_enough.
Qed.

End Angles.

Section Dictionaries.

Lemma dict_get_set_same (k : string) (v : R) (d : Dict) :
  dict_get k (dict_set k v d) = Some v.
Proof.
  induction d as [|[k' v'] d IH]; cbn.
  - now rewrite String.eqb_refl.
  - destruct (String.eqb k k') eqn:E; cbn; rewrite ?String.eqb_refl, ?E; auto.
Qed.

Lemma dict_get_set_other (k k' : string) (v : R) (d : Dict) :
  k <> k' -> dict_get k (dict_set k' v d) = dict_get k d.
Proof.
  intros Hne. apply String.eqb_neq in Hne.
  induction d as [|[k0 v0] d IH]; cbn.
  - now rewrite Hne.
  - destruct (String.eqb k' k0) eqn:E; cbn.
    + apply String.eqb_eq in E. subst k0. now rewrite Hne.
    + now rewrite IH.
Qed.

Lemma dict_get_add_other (k k' : string) (v : R) (d : Dict) :
  k <> k' -> dict_get k (dict_add k' v d) = dict_get k d.
Proof. intros Hne. unfold dict_add. now apply dict_get_set_other. Qed.

Lemma dict_get_add_same (k : string) (v : R) (d : Dict) :
  dict_get k (dict_add k v d) = Some (dict_val k d + v).
Proof. unfold dict_add. apply dict_get_set_same. Qed.

Lemma dict_val_get (k : string) (v : R) (d : Dict) :
  dict_get k d = Some v -> dict_val k d = v.
Proof. intros H. unfold dict_val. now rewrite H. Qed.

End Dictionaries.

Ltac key_neq := first [assumption | discriminate].

Ltac dict_simpl :=
  repeat first
    [ rewrite dict_get_set_same
    | rewrite dict_get_set_other by key_neq
    | rewrite dict_get_add_other by key_neq
    | rewrite dict_get_add_same ].

(** ** The reward computation *)

Module Env := AdvancedLaserVehicleEnv.

Section Reward.

Import AdvancedLaserVehicleEnv.

Lemma compute_reward_unfold ph now action info s :
  _compute_reward ph now action info s =
  match CombatArena.vehicle (arena s) with
  | None => (s, Ok (0.0, zero_metrics))
  | Some v =>
    match LaserVehicle.get_position_and_orientation v ph with
    | Raised _ => (s, Ok (0.0, zero_metrics))
    | Ok (position, orientation) =>
      match LaserVehicle.get_velocity v ph with
      | Raised _ => (s, Ok (0.0, zero_metrics))
      | Ok velocity =>
        let s1 := set_current_position (Some position) s in
        match LaserVehicle.check_collision v ph with
        | Raised _ => (s1, Ok (0.0, zero_metrics))
        | Ok collision =>
          match LaserVehicle.get_laser_distances v ph with
          | Raised _ => (s1, Ok (0.0, zero_metrics))
          | Ok laser_distances =>
            match reward_smooth s action
                    (shaped s position orientation velocity collision
                       laser_distances now (laser_hit_of info)) with
            | Raised _ => (s1, Ok (0.0, zero_metrics))
            | Ok d =>
              let '(s2, r) :=
                reward_exploration position (reward_energy action d) s1 in
              match r with
              | Raised _ => (s2, Ok (0.0, zero_metrics))
              | Ok d' =>
                (set_previous_action (Some action) s2,
                 Ok (np_sum (dict_values d'),
                     dict_set "total_reward" (np_sum (dict_values d')) d'))
              end
            end
          end
        end
      end
    end
  end.
Proof.
  unfold _compute_reward, try_except, bind, get, lift, ret, modify, shaped.
  destruct (CombatArena.vehicle (arena s)) as [v|]; [|reflexivity].
  destruct (LaserVehicle.get_position_and_orientation v ph) as [[position orientation]|e];
    [|reflexivity].
  destruct (LaserVehicle.get_velocity v ph) as [velocity|e]; [|reflexivity].
  destruct (LaserVehicle.check_collision v ph) as [collision|e]; [|reflexivity].
  destruct (LaserVehicle.get_laser_distances v ph) as [laser_distances|e]; [|reflexivity].
  destruct (reward_smooth _ _ _) as [d|e]; [|reflexivity].
  destruct (reward_exploration _ _ _) as [s2 [d'|e]]; reflexivity.
Qed.

(** Which entries each block of the computation can write. *)

Lemma reward_out_of_bounds_other k s position d :
  k <> "out_of_bounds"%string ->
  dict_get k (reward_out_of_bounds s position d) = dict_get k d.
Proof.
  intros Hk. unfold reward_out_of_bounds.
  destruct (_ || _); now dict_simpl.
Qed.

Lemma reward_mines_other k position mines d :
  k <> "mine_penalty"%string ->
  dict_get k (reward_mines position mines d) = dict_get k d.
Proof.
  intros Hk. revert d.
  induction mines as [|mine_pos rest IH]; intros d; cbn [reward_mines].
  - reflexivity.
  - cbv zeta.
    destruct (Rltb _ (0.075 + 0.15)); [now dict_simpl|].
    destruct (Rltb _ (0.075 + 0.3)); [rewrite IH; now dict_simpl|].
    destruct (_ && _); rewrite IH; now dict_simpl.
Qed.

Lemma reward_opponent_other k s position orientation d :
  k <> "distance_reward"%string -> k <> "rotation_reward"%string ->
  k <> "goal_reward"%string ->
  dict_get k (reward_opponent s position orientation d) = dict_get k d.
Proof.
  intros H1 H2 H3. unfold reward_opponent.
  destruct (opponent_position s); [|reflexivity]. cbv zeta.
  destruct (_ && _); destruct (boundary_crossed s); now dict_simpl.
Qed.

(** With the latch open, the opponent block leaves the two gated entries
    alone. *)
Lemma reward_opponent_gated k s position orientation d :
  boundary_crossed s = false -> k <> "goal_reward"%string ->
  dict_get k (reward_opponent s position orientation d) = dict_get k d.
Proof.
  intros Hb Hk. unfold reward_opponent.
  destruct (opponent_position s); [|reflexivity]. cbv zeta. rewrite Hb.
  destruct (_ && _); now dict_simpl.
Qed.

Lemma reward_waypoint_other k s d :
  k <> "waypoint_reward"%string ->
  dict_get k (reward_waypoint s d) = dict_get k d.
Proof.
  intros Hk. unfold reward_waypoint. destruct (boundary_crossed s); now dict_simpl.
Qed.

Lemma reward_laser_other k s now laser_hit d :
  k <> "laser_reward"%string -> k <> "goal_reward"%string ->
  dict_get k (reward_laser s now laser_hit d) = dict_get k d.
Proof.
  intros H1 H2. unfold reward_laser.
  destruct laser_hit; [|reflexivity].
  destruct (continuous_hit_start s); cbv zeta; [|now dict_simpl].
  destruct (Rleb _ _); now dict_simpl.
Qed.

Lemma reward_obstacles_other k laser_distances d :
  k <> "laser_reward"%string ->
  dict_get k (reward_obstacles laser_distances d) = dict_get k d.
Proof.
  intros Hk. unfold reward_obstacles. cbv zeta.
  destruct (Rltb _ 0.3); [now dict_simpl|].
  destruct laser_distances; [reflexivity|].
  destruct (Rltb 0.3 _); now dict_simpl.
Qed.

Lemma reward_speed_other k speed d :
  k <> "smooth_reward"%string ->
  dict_get k (reward_speed speed d) = dict_get k d.
Proof.
  intros Hk. unfold reward_speed. cbv zeta.
  destruct (Rltb _ 0.5); now dict_simpl.
Qed.

Lemma reward_smooth_other k s action d d' :
  k <> "smooth_reward"%string ->
  reward_smooth s action d = Ok d' -> dict_get k d' = dict_get k d.
Proof.
  intros Hk. unfold reward_smooth.
  destruct (previous_action s) as [previous|].
  - destruct (np_sub action previous); intros [= <-]. now dict_simpl.
  - now intros [= <-].
Qed.

Lemma reward_energy_other k action d :
  k <> "energy_conservation"%string ->
  dict_get k (reward_energy action d) = dict_get k d.
Proof. intros Hk. unfold reward_energy. now dict_simpl. Qed.

(** The exploration block always returns, writes no entry but its own,
    and no attribute but the set of visited cells. *)
Lemma reward_exploration_result position d s :
  exists visited d',
    reward_exploration position d s
    = (set_visited_positions (Some visited) s, Ok d')
    /\ forall k, k <> "exploration_reward"%string -> dict_get k d' = dict_get k d.
Proof.
  unfold reward_exploration. cbv zeta.
  destruct (visited_positions s) as [visited|] eqn:E.
  - destruct (negb _).
    + eexists _, _. split; [reflexivity|]. intros k Hk. now dict_simpl.
    + exists visited, d. split; [|now intros].
      unfold set_visited_positions. destruct s; cbn in *. now subst.
  - eexists _, _. split; [reflexivity|]. now intros.
Qed.

Lemma reward_collision_other k collision d :
  k <> "collision_reward"%string ->
  dict_get k (reward_collision collision d) = dict_get k d.
Proof. intros Hk. unfold reward_collision. destruct collision; now dict_simpl. Qed.

End Reward.

Ltac frame :=
  repeat first
    [ rewrite reward_speed_other by key_neq
    | rewrite reward_obstacles_other by key_neq
    | rewrite reward_laser_other by key_neq
    | rewrite reward_waypoint_other by key_neq
    | rewrite reward_opponent_other by key_neq
    | rewrite reward_collision_other by key_neq
    | rewrite reward_mines_other by key_neq
    | rewrite reward_out_of_bounds_other by key_neq
    | rewrite reward_energy_other by key_neq ].

Section RewardBreakdown.

Import AdvancedLaserVehicleEnv.

(** [_compute_reward] always returns: either the zero-filled dictionary of
    its exception handler, or a dictionary whose early entries are the
    ones of [shaped] on what the engine answered. *)
Lemma compute_reward_returns ph now action info s :
  exists s' total comps,
    _compute_reward ph now action info s = (s', Ok (total, comps))
    /\ (comps = zero_metrics
        \/ exists v position orientation velocity collision laser_distances,
             CombatArena.vehicle (arena s) = Some v
             /\ LaserVehicle.get_position_and_orientation v ph
                = Ok (position, orientation)
             /\ LaserVehicle.get_velocity v ph = Ok velocity
             /\ LaserVehicle.check_collision v ph = Ok collision
             /\ LaserVehicle.get_laser_distances v ph = Ok laser_distances
             /\ forall k, early_key k ->
                  dict_get k comps
                  = dict_get k (shaped s position orientation velocity
                                  collision laser_distances now
                                  (laser_hit_of info))).
Proof.
  rewrite compute_reward_unfold.
  destruct (CombatArena.vehicle (arena s)) as [v|] eqn:Hv;
    [|eexists _, _, _; eauto].
  destruct (LaserVehicle.get_position_and_orientation v ph)
    as [[position orientation]|e] eqn:Hpose; [|eexists _, _, _; eauto].
  destruct (LaserVehicle.get_velocity v ph) as [velocity|e] eqn:Hvel;
    [|eexists _, _, _; eauto].
  cbv zeta.
  destruct (LaserVehicle.check_collision v ph) as [collision|e] eqn:Hcol;
    [|eexists _, _, _; eauto].
  destruct (LaserVehicle.get_laser_distances v ph) as [laser_distances|e] eqn:Hlas;
    [|eexists _, _, _; eauto].
  destruct (reward_smooth _ _ _) as [d|e] eqn:Hsmooth; [|eexists _, _, _; eauto].
  destruct (reward_exploration_result position (reward_energy action d)
              (set_current_position (Some position) s))
    as (visited & d' & -> & Hd').
  eexists _, _, _. split; [reflexivity|]. right.
  exists v, position, orientation, velocity, collision, laser_distances.
  do 5 (split; [assumption || reflexivity|]).
  intros k (H1 & H2 & H3 & H4).
  rewrite dict_get_set_other by assumption.
  rewrite Hd' by assumption.
  rewrite reward_energy_other by assumption.
  now rewrite (reward_smooth_other _ _ _ _ _ H1 Hsmooth).
Qed.

(** When the engine answers every query and the action has the shape of
    the previous one, the handler is not entered. *)
Lemma compute_reward_shaped ph now action info s
  v position orientation velocity collision laser_distances :
  CombatArena.vehicle (arena s) = Some v ->
  LaserVehicle.get_position_and_orientation v ph = Ok (position, orientation) ->
  LaserVehicle.get_velocity v ph = Ok velocity ->
  LaserVehicle.check_collision v ph = Ok collision ->
  LaserVehicle.get_laser_distances v ph = Ok laser_distances ->
  match previous_action s with
  | Some previous => length action = length previous
  | None => True
  end ->
  exists s' total comps,
    _compute_reward ph now action info s = (s', Ok (total, comps))
    /\ forall k, early_key k ->
         dict_get k comps
         = dict_get k (shaped s position orientation velocity collision
                         laser_distances now (laser_hit_of info)).
Proof.
  intros Hv Hpose Hvel Hcol Hlas Hprev.
  rewrite compute_reward_unfold, Hv, Hpose, Hvel. cbv zeta.
  rewrite Hcol, Hlas.
  assert (Hsmooth : exists d, reward_smooth s action
            (shaped s position orientation velocity collision laser_distances
               now (laser_hit_of info)) = Ok d).
  { unfold reward_smooth. destruct (previous_action s) as [previous|]; [|eauto].
    unfold np_sub. rewrite Hprev, Nat.eqb_refl. eauto. }
  destruct Hsmooth as [d Hsmooth]. rewrite Hsmooth.
  destruct (reward_exploration_result position (reward_energy action d)
              (set_current_position (Some position) s))
    as (visited & d' & -> & Hd').
  eexists _, _, _. split; [reflexivity|].
  intros k (H1 & H2 & H3 & H4).
  rewrite dict_get_set_other by assumption.
  rewrite Hd' by assumption.
  rewrite reward_energy_other by assumption.
  now rewrite (reward_smooth_other _ _ _ _ _ H1 Hsmooth).
Qed.

Lemma zero_literal : 0.0 = 0.
Proof. lra. Qed.

(** C1.  Whatever the engine answers, whatever the action and the [info]
    argument: in a state whose [boundary_crossed] latch is false,
    [_compute_reward] returns a breakdown whose [distance_reward] and
    [rotation_reward] entries are exactly 0. *)
Theorem compute_reward_gated ph now action info s :
  boundary_crossed s = false ->
  exists total comps,
    snd (_compute_reward ph now action info s) = Ok (total, comps)
    /\ dict_get "distance_reward" comps = Some 0
    /\ dict_get "rotation_reward" comps = Some 0.
Proof.
  intros Hlatch.
  destruct (compute_reward_returns ph now action info s)
    as (s' & total & comps & Hrun & Hcomps).
  exists total, comps. rewrite Hrun. split; [reflexivity|].
  destruct Hcomps as [-> | (v & position & orientation & velocity & collision
                             & laser_distances & _ & _ & _ & _ & _ & Hearly)].
  - cbn. rewrite zero_literal. split; reflexivity.
  - rewrite !Hearly by (repeat split; discriminate).
    unfold shaped. frame.
    rewrite !reward_opponent_gated by (assumption || discriminate).
    frame. cbn. rewrite zero_literal. split; reflexivity.
Qed.

(** C1 at work: the manned field before any step, the vehicle at the
    opponent's corner and facing it. *)
Lemma compute_reward_gated_witness :
  boundary_crossed Scene.manned = false
  /\ exists total comps,
       snd (_compute_reward (Scene.at_rest (vec3 (-1.5) (-1.5) 0.1) (vec3 0 0 0))
              0 [1; 1] (PyBool false) Scene.manned) = Ok (total, comps)
       /\ dict_get "distance_reward" comps = Some 0
       /\ dict_get "rotation_reward" comps = Some 0.
Proof.
  split; [reflexivity|].
  apply (compute_reward_gated
           (Scene.at_rest (vec3 (-1.5) (-1.5) 0.1) (vec3 0 0 0))
           0 [1; 1] (PyBool false) Scene.manned).
  reflexivity.
Defined.

(** *** Mines *)

Lemma touches_mine_distance position mine_pos :
  touches_mine position mine_pos
  = Rltb (planar_distance position mine_pos) contact_radius.
Proof. reflexivity. Qed.

(** The loop stops with the contact penalty at the first mine in contact,
    whatever it accumulated before. *)
Lemma reward_mines_contact position mines mine_pos d :
  In mine_pos mines ->
  planar_distance position mine_pos < contact_radius ->
  dict_get "mine_penalty" (reward_mines position mines d) = Some (-15.0).
Proof.
  intros Hin Hnear. revert d.
  induction mines as [|m rest IH]; intros d; [contradiction|].
  cbn [reward_mines]. cbv zeta.
  destruct (Rltb _ (0.075 + 0.15)) eqn:Hcontact; [now dict_simpl|].
  destruct Hin as [-> | Hin].
  - apply Rltb_true in Hnear. unfold planar_distance, contact_radius in Hnear.
    congruence.
  - destruct (Rltb _ (0.075 + 0.3)); [now apply IH|].
    destruct (_ && _); now apply IH.
Qed.

(** No run of the loop leaves less than the contact penalty. *)
Lemma reward_mines_lower_bound position mines d :
  -2 <= dict_val "mine_penalty" d ->
  -15 <= dict_val "mine_penalty" (reward_mines position mines d).
Proof.
  revert d. induction mines as [|m rest IH]; intros d Hd; cbn [reward_mines].
  - lra.
  - cbv zeta.
    set (dist := sqrt _).
    destruct (Rltb dist (0.075 + 0.15)) eqn:Hcontact.
    + unfold dict_val. dict_simpl. lra.
    + assert (Hfar : 0.075 + 0.15 <= dist).
      { unfold Rltb in Hcontact. destruct (Rlt_dec dist (0.075 + 0.15));
          [discriminate|lra]. }
      destruct (Rltb dist (0.075 + 0.3)).
      * apply IH. unfold dict_val at 1. dict_simpl.
        apply Rmin_glb; [exact Hd|lra].
      * destruct (Rltb dist 0.7 && Rltb 0.3 dist) eqn:Hband; [|now apply IH].
        apply IH. unfold dict_val at 1. dict_simpl.
        apply andb_prop in Hband as [_ Hband]. apply Rltb_lt in Hband. lra.
Qed.

(** [_is_terminated] on a vehicle in contact with a mine. *)
Lemma is_terminated_on_contact ph now s v position orientation collision mine_pos :
  CombatArena.vehicle (arena s) = Some v ->
  LaserVehicle.check_collision v ph = Ok collision ->
  LaserVehicle.get_position_and_orientation v ph = Ok (position, orientation) ->
  mines_consistent (arena s) ->
  In mine_pos (CombatArena.mine_positions (arena s)) ->
  planar_distance position mine_pos < contact_radius ->
  _is_terminated ph now s = (s, Ok true).
Proof.
  intros Hv Hcol Hpose Hcons Hin Hnear.
  unfold _is_terminated, bind, the_vehicle, lift, get, ret.
  rewrite Hv, Hcol. destruct collision; [reflexivity|].
  rewrite Hpose.
  assert (Hobj : is_empty (CombatArena.mine_objects (arena s)) = false).
  { unfold mines_consistent in Hcons.
    destruct (CombatArena.mine_objects (arena s)); [|reflexivity].
    destruct (CombatArena.mine_positions (arena s)); [contradiction|discriminate]. }
  assert (Hex : existsb (touches_mine position)
                  (CombatArena.mine_positions (arena s)) = true).
  { apply existsb_exists. exists mine_pos. split; [exact Hin|].
    rewrite touches_mine_distance. now apply Rltb_true. }
  now rewrite Hobj, Hex.
Qed.

(** C3.  Let the engine answer every query about a vehicle that stands
    closer than the contact radius (mine radius plus half the vehicle's
    width) to the centre of a mine of the arena.  Then [_compute_reward]
    returns a breakdown whose [mine_penalty] is -15, [_is_terminated]
    returns true in that state, and -15 is the least value [mine_penalty]
    takes in any breakdown the computation returns. *)
Theorem mine_contact_penalty_and_termination
  ph now action info s v position orientation velocity collision
  laser_distances mine_pos :
  CombatArena.vehicle (arena s) = Some v ->
  LaserVehicle.get_position_and_orientation v ph = Ok (position, orientation) ->
  LaserVehicle.get_velocity v ph = Ok velocity ->
  LaserVehicle.check_collision v ph = Ok collision ->
  LaserVehicle.get_laser_distances v ph = Ok laser_distances ->
  match previous_action s with
  | Some previous => length action = length previous
  | None => True
  end ->
  mines_consistent (arena s) ->
  In mine_pos (CombatArena.mine_positions (arena s)) ->
  planar_distance position mine_pos < contact_radius ->
  (exists total comps,
     snd (_compute_reward ph now action info s) = Ok (total, comps)
     /\ dict_get "mine_penalty" comps = Some (-15))
  /\ snd (_is_terminated ph now s) = Ok true
  /\ (forall ph' now' action' info' s' total' comps' penalty,
        snd (_compute_reward ph' now' action' info' s') = Ok (total', comps') ->
        dict_get "mine_penalty" comps' = Some penalty ->
        -15 <= penalty).
Proof.
  intros Hv Hpose Hvel Hcol Hlas Hprev Hcons Hin Hnear.
  split; [|split].
  - destruct (compute_reward_shaped ph now action info s v position orientation
                velocity collision laser_distances Hv Hpose Hvel Hcol Hlas Hprev)
      as (s' & total & comps & Hrun & Hearly).
    exists total, comps. rewrite Hrun. split; [reflexivity|].
    rewrite Hearly by (repeat split; discriminate).
    unfold shaped. frame.
    rewrite (reward_mines_contact _ _ mine_pos) by assumption.
    f_equal. lra.
  - now rewrite (is_terminated_on_contact ph now s v position orientation
                   collision mine_pos).
  - intros ph' now' action' info' s' total' comps' penalty Hrun' Hget.
    destruct (compute_reward_returns ph' now' action' info' s')
      as (s'' & total & comps & Hrun & Hcomps).
    rewrite Hrun in Hrun'. cbn in Hrun'. injection Hrun' as <- <-.
    destruct Hcomps as [-> | (v' & position' & orientation' & velocity'
                               & collision' & laser_distances' & _ & _ & _ & _ & _
                               & Hearly)].
    + discriminate Hget.
    + rewrite Hearly in Hget by (repeat split; discriminate).
      unfold shaped in Hget. revert Hget. frame. intros Hget.
      pose proof (reward_mines_lower_bound position'
                    (CombatArena.mine_positions (arena s'))
                    (reward_out_of_bounds s' position' initial_reward_components))
        as Hlow.
      rewrite (dict_val_get _ _ _ Hget) in Hlow. apply Hlow.
      unfold dict_val. frame. cbn. lra.
Qed.

(** C3 at work: the manned field, the vehicle standing on the centre
    mine. *)
Lemma mine_contact_witness :
  planar_distance (vec3 0 0 0.1) (vec3 0 0 (0.001 / 2)) < contact_radius
  /\ (exists total comps,
        snd (_compute_reward (Scene.at_rest (vec3 0 0 0.1) (vec3 0 0 0))
               0 [0; 0] (PyBool false) Scene.manned) = Ok (total, comps)
        /\ dict_get "mine_penalty" comps = Some (-15))
  /\ snd (_is_terminated (Scene.at_rest (vec3 0 0 0.1) (vec3 0 0 0)) 0
            Scene.manned) = Ok true.
Proof.
  assert (Hnear : planar_distance (vec3 0 0 0.1) (vec3 0 0 (0.001 / 2))
                  < contact_radius).
  { unfold planar_distance, contact_radius. cbn [at0 at1].
    replace ((0 - 0) * (0 - 0) + (0 - 0) * (0 - 0)) with 0 by ring.
    rewrite sqrt_0. lra. }
  split; [exact Hnear|].
  edestruct (mine_contact_penalty_and_termination
               (Scene.at_rest (vec3 0 0 0.1) (vec3 0 0 0)) 0 [0; 0]
               (PyBool false) Scene.manned) as (Hpenalty & Hend & _);
    [ cbn; reflexivity | cbn; reflexivity | cbn; reflexivity | cbn; reflexivity
    | cbn; reflexivity | exact I | reflexivity
    | cbn; right; left; reflexivity | exact Hnear | ].
  split; assumption.
Defined.

End RewardBreakdown.

(** ** Reasoning about methods: relations every path keeps *)

Section Keeps.

Context {St : Type} (P : St -> St -> Prop).
Hypothesis P_refl : forall s, P s s.
Hypothesis P_trans : forall s1 s2 s3, P s1 s2 -> P s2 s3 -> P s1 s3.

Lemma keeps_ret {A} (a : A) : keeps P (ret a).
Proof. intros s. apply P_refl. Qed.

Lemma keeps_raise {A} (e : exn) : keeps P (raise (A := A) e).
Proof. intros s. apply P_refl. Qed.

Lemma keeps_lift {A} (r : result A) : keeps P (lift r).
Proof. intros s. apply P_refl. Qed.

Lemma keeps_get : keeps P get.
Proof. intros s. apply P_refl. Qed.

Lemma keeps_modify (f : St -> St) : (forall s, P s (f s)) -> keeps P (modify f).
Proof. intros Hf s. apply Hf. Qed.

Lemma keeps_bind {A B} (c : M St A) (k : A -> M St B) :
  keeps P c -> (forall a, keeps P (k a)) -> keeps P (bind c k).
Proof.
  intros Hc Hk s. unfold bind. specialize (Hc s).
  destruct (c s) as [s' [a|e]]; cbn in *.
  - eapply P_trans; [exact Hc|apply Hk].
  - exact Hc.
Qed.

Lemma keeps_try_except {A} (c : M St A) (h : exn -> M St A) :
  keeps P c -> (forall e, keeps P (h e)) -> keeps P (try_except c h).
Proof.
  intros Hc Hh s. unfold try_except. specialize (Hc s).
  destruct (c s) as [s' [a|e]]; cbn in *.
  - exact Hc.
  - eapply P_trans; [exact Hc|apply Hh].
Qed.

End Keeps.

Lemma unchanged_refl {St X} (f : St -> X) (s : St) : unchanged f s s.
Proof. reflexivity. Qed.

Lemma unchanged_trans {St X} (f : St -> X) (s1 s2 s3 : St) :
  unchanged f s1 s2 -> unchanged f s2 s3 -> unchanged f s1 s3.
Proof. unfold unchanged. congruence. Qed.

Lemma latch_kept_refl s : latch_kept s s.
Proof. intros H. exact H. Qed.

Lemma latch_kept_trans s1 s2 s3 :
  latch_kept s1 s2 -> latch_kept s2 s3 -> latch_kept s1 s3.
Proof. unfold latch_kept. auto. Qed.

Lemma unchanged_latch_kept s s' :
  unchanged Env.boundary_crossed s s' -> latch_kept s s'.
Proof. unfold unchanged, latch_kept. congruence. Qed.

(** Walks through a method written with [bind], [modify] and friends and
    leaves the side conditions of the single assignments. *)
Ltac keeps_step refl trans :=
  lazymatch goal with
  | |- keeps _ (bind _ _) => apply (keeps_bind _ trans); [|intros]
  | |- keeps _ (try_except _ _) => apply (keeps_try_except _ trans); [|intros]
  | |- keeps _ (ret _) => apply (keeps_ret _ refl)
  | |- keeps _ (raise _) => apply (keeps_raise _ refl)
  | |- keeps _ (lift _) => apply (keeps_lift _ refl)
  | |- keeps _ get => apply (keeps_get _ refl)
  | |- keeps _ (modify _) => apply keeps_modify; intros
  | |- keeps _ (if ?b then _ else _) => destruct b
  | |- keeps _ (match ?x with _ => _ end) => destruct x
  end.

Ltac keeps_walk refl trans := repeat keeps_step refl trans.

Lemma keeps_weaken {St A} (P Q : St -> St -> Prop) (c : M St A) :
  (forall s s', P s s' -> Q s s') -> keeps P c -> keeps Q c.
Proof. intros HPQ Hc s. apply HPQ, Hc. Qed.

(** ** The episode controller: which attributes each method writes *)

Section Writes.

Import AdvancedLaserVehicleEnv.

Context {X : Type} (f : t -> X).

Lemma the_vehicle_writes : keeps (unchanged f) the_vehicle.
Proof.
  intros s. unfold the_vehicle.
  destruct (CombatArena.vehicle (arena s)); reflexivity.
Qed.

Ltac writes :=
  repeat first
    [ apply the_vehicle_writes
    | keeps_step (unchanged_refl f) (unchanged_trans f) ];
  try (unfold unchanged; auto).

(** [_check_boundary_crossed] writes [boundary_crossed] only. *)
Lemma check_boundary_crossed_writes ph :
  (forall x s, f (set_boundary_crossed x s) = f s) ->
  keeps (unchanged f) (_check_boundary_crossed ph).
Proof. intros H. unfold _check_boundary_crossed. writes. Qed.

(** [_check_laser_hit] writes [laser_hit] and [continuous_hit_start]. *)
Lemma check_laser_hit_writes ph now :
  (forall x s, f (set_laser_hit x s) = f s) ->
  (forall x s, f (set_continuous_hit_start x s) = f s) ->
  keeps (unchanged f) (_check_laser_hit ph now).
Proof. intros H1 H2. unfold _check_laser_hit. writes. Qed.

(** [_get_observation] writes [_observation_history] only. *)
Lemma get_observation_writes ph now :
  (forall x s, f (set_observation_history x s) = f s) ->
  keeps (unchanged f) (_get_observation ph now).
Proof. intros H. unfold _get_observation. writes. Qed.

Lemma reward_exploration_writes position d :
  (forall x s, f (set_visited_positions x s) = f s) ->
  keeps (unchanged f) (reward_exploration position d).
Proof.
  intros H s. unfold reward_exploration. cbv zeta.
  destruct (visited_positions s); [destruct (negb _)|]; cbn; unfold unchanged; auto.
Qed.

(** [_compute_reward] writes [current_position], [visited_positions] and
    [previous_action]. *)
Lemma compute_reward_writes ph now action info :
  (forall x s, f (set_current_position x s) = f s) ->
  (forall x s, f (set_visited_positions x s) = f s) ->
  (forall x s, f (set_previous_action x s) = f s) ->
  keeps (unchanged f) (_compute_reward ph now action info).
Proof.
  intros H1 H2 H3. unfold _compute_reward.
  repeat first
    [ apply reward_exploration_writes; assumption
    | keeps_step (unchanged_refl f) (unchanged_trans f) ];
  try (unfold unchanged; auto).
Qed.

(** [_is_terminated] and [_is_truncated] write nothing. *)
Lemma is_terminated_writes ph now : keeps (unchanged f) (_is_terminated ph now).
Proof. unfold _is_terminated. writes. Qed.

Lemma is_truncated_writes : keeps (unchanged f) _is_truncated.
Proof. unfold _is_truncated. writes. Qed.

(** What [step] writes. *)
Lemma step_writes action i :
  (forall x s, f (set_steps x s) = f s) ->
  (forall x s, f (set_current_action x s) = f s) ->
  (forall x s, f (set_boundary_crossed x s) = f s) ->
  (forall x s, f (set_laser_hit x s) = f s) ->
  (forall x s, f (set_continuous_hit_start x s) = f s) ->
  (forall x s, f (set_observation_history x s) = f s) ->
  (forall x s, f (set_current_position x s) = f s) ->
  (forall x s, f (set_visited_positions x s) = f s) ->
  (forall x s, f (set_previous_action x s) = f s) ->
  (forall x s, f (set_episode_reward x s) = f s) ->
  (forall x s, f (set_episode_metrics x s) = f s) ->
  keeps (unchanged f) (step action i).
Proof.
  intros. unfold step.
  repeat first
    [ apply the_vehicle_writes
    | apply check_boundary_crossed_writes; assumption
    | apply check_laser_hit_writes; assumption
    | apply get_observation_writes; assumption
    | apply compute_reward_writes; assumption
    | apply is_terminated_writes
    | apply is_truncated_writes
    | keeps_step (unchanged_refl f) (unchanged_trans f) ];
  try (unfold unchanged; auto).
Qed.

End Writes.

Section ResetWrites.

Import AdvancedLaserVehicleEnv.

Context {X : Type} (f : t -> X).
Variable seeded : Z -> nat -> R.

Hypothesis f_np_random : forall x s, f (set_np_random x s) = f s.
Hypothesis f_arena : forall x s, f (set_arena x s) = f s.
Hypothesis f_opponent_position : forall x s, f (set_opponent_position x s) = f s.
Hypothesis f_opponent_id : forall x s, f (set_opponent_id x s) = f s.
Hypothesis f_mine_positions : forall x s, f (set_mine_positions x s) = f s.
Hypothesis f_history : forall x s, f (set_observation_history x s) = f s.

Lemma np_random_rand_writes : keeps (unchanged f) np_random_rand.
Proof. intros s. apply f_np_random. Qed.

Lemma np_random_uniform_writes low high :
  keeps (unchanged f) (np_random_uniform low high).
Proof.
  unfold np_random_uniform.
  apply (keeps_bind _ (unchanged_trans f)); [apply np_random_rand_writes|].
  intros u. apply (keeps_ret _ (unchanged_refl f)).
Qed.

Lemma get_random_start_position_writes :
  keeps (unchanged f) _get_random_start_position.
Proof.
  unfold _get_random_start_position.
  repeat first
    [ apply np_random_rand_writes
    | keeps_step (unchanged_refl f) (unchanged_trans f) ].
Qed.

Lemma spawn_vehicle_writes mass size : keeps (unchanged f) (spawn_vehicle mass size).
Proof.
  intros s. unfold spawn_vehicle.
  destruct (CombatArena.spawn_vehicle mass size (arena s)). apply f_arena.
Qed.

Lemma draw_mines_writes mine_count : keeps (unchanged f) (draw_mines mine_count).
Proof.
  induction mine_count as [|n IH]; cbn [draw_mines].
  - apply (keeps_ret _ (unchanged_refl f)).
  - repeat first
      [ apply np_random_uniform_writes
      | exact IH
      | keeps_step (unchanged_refl f) (unchanged_trans f) ].
    apply f_mine_positions.
Qed.

(** [respawn] writes the arena, the generator, the opponent's coordinates
    and id and the controller's mine positions. *)
Lemma respawn_writes i : keeps (unchanged f) (respawn i).
Proof.
  unfold respawn.
  repeat first
    [ apply get_random_start_position_writes
    | apply np_random_uniform_writes
    | apply spawn_vehicle_writes
    | apply draw_mines_writes
    | keeps_step (unchanged_refl f) (unchanged_trans f) ];
  try (unfold unchanged; auto).
  all: try (destruct (CombatArena.vehicle (arena s)); auto).
Qed.

(** [_reset_environment] writes the arena, the generator, the opponent's
    coordinates and id, the controller's mine positions and the
    observation history. *)
Lemma reset_environment_writes i : keeps (unchanged f) (_reset_environment i).
Proof.
  unfold _reset_environment.
  repeat first
    [ apply respawn_writes
    | apply get_observation_writes; assumption
    | keeps_step (unchanged_refl f) (unchanged_trans f) ].
Qed.

(** Besides, [reset] itself writes the step counter, the two end flags,
    the hit counters, the reward history and the previous action. *)
Lemma reset_writes seed i :
  (forall x s, f (set_steps x s) = f s) ->
  (forall x s, f (set_terminated x s) = f s) ->
  (forall x s, f (set_truncated x s) = f s) ->
  (forall x s, f (set_laser_hits_count x s) = f s) ->
  (forall x s, f (set_consecutive_laser_hits x s) = f s) ->
  (forall x s, f (set_last_laser_hit_time x s) = f s) ->
  (forall x s, f (set_reward_history x s) = f s) ->
  (forall x s, f (set_previous_action x s) = f s) ->
  keeps (unchanged f) (reset seeded seed i).
Proof.
  intros. unfold reset.
  repeat first
    [ apply reset_environment_writes
    | keeps_step (unchanged_refl f) (unchanged_trans f) ];
  try (unfold unchanged; auto).
Qed.

End ResetWrites.

Lemma bind_modify {St A} (g : St -> St) (k : unit -> M St A) (s : St) :
  bind (modify g) k s = k tt (g s).
Proof. reflexivity. Qed.

Lemma bind_ret {St A B} (a : A) (k : A -> M St B) (s : St) :
  bind (ret a) k s = k a s.
Proof. reflexivity. Qed.

(** ** The boundary latch *)

Section Latch.

Import AdvancedLaserVehicleEnv.

Lemma check_boundary_crossed_latch ph : keeps latch_kept (_check_boundary_crossed ph).
Proof.
  unfold _check_boundary_crossed.
  repeat first
    [ apply (keeps_weaken _ _ _ unchanged_latch_kept), the_vehicle_writes
    | keeps_step latch_kept_refl latch_kept_trans ].
  intros _. reflexivity.
Qed.

(** One step never closes the latch, whether it returns or raises. *)
Lemma step_keeps_latch action i : keeps latch_kept (step action i).
Proof.
  unfold step.
  repeat first
    [ apply check_boundary_crossed_latch
    | apply (keeps_weaken _ _ _ unchanged_latch_kept);
      first [ apply the_vehicle_writes
            | apply check_laser_hit_writes; reflexivity
            | apply get_observation_writes; reflexivity
            | apply compute_reward_writes; reflexivity
            | apply is_terminated_writes
            | apply is_truncated_writes ]
    | keeps_step latch_kept_refl latch_kept_trans ];
  try (intros Hs; exact Hs).
Qed.

(** C5.  Within an episode, that is along any run of [step] calls with no
    [reset] in between, a [boundary_crossed] latch that is true stays
    true: after every single step, and after the whole run, whatever the
    actions, the engine's answers and the exceptions on the way. *)
Theorem boundary_crossed_monotone (s : t) :
  boundary_crossed s = true ->
  (forall action i, boundary_crossed (fst (step action i s)) = true)
  /\ (forall calls, boundary_crossed (run_steps calls s) = true).
Proof.
  intros Hs. split.
  - intros action i. now apply step_keeps_latch.
  - intros calls. revert s Hs.
    induction calls as [|[action i] rest IH]; intros s Hs; cbn [run_steps].
    + exact Hs.
    + apply IH. now apply step_keeps_latch.
Qed.

Lemma boundary_crossed_monotone_witness :
  boundary_crossed (set_boundary_crossed true Scene.manned) = true
  /\ boundary_crossed
       (run_steps [([1; 1], Scene.quiet_step (vec3 1 1 0.1) 0);
                   ([1; -1], Scene.quiet_step (vec3 1 (-1) 0.1) 1)]
          (set_boundary_crossed true Scene.manned)) = true.
Proof.
  split; [reflexivity|].
  exact (proj2 (boundary_crossed_monotone
                  (set_boundary_crossed true Scene.manned) eq_refl) _).
Defined.

(** [reset] leaves the latch as it finds it. *)
Lemma reset_keeps_latch seeded seed i s :
  boundary_crossed (fst (reset seeded seed i s)) = boundary_crossed s.
Proof. apply (reset_writes boundary_crossed); reflexivity. Qed.

(** What [reset] assigns before it rebuilds the scene is still there
    when it returns, as long as nothing on the way writes it. *)
Lemma reset_reading {X} (g : t -> X) (x : X) seeded seed i s :
  (forall x s, g (set_np_random x s) = g s) ->
  (forall x s, g (set_arena x s) = g s) ->
  (forall x s, g (set_opponent_position x s) = g s) ->
  (forall x s, g (set_opponent_id x s) = g s) ->
  (forall x s, g (set_mine_positions x s) = g s) ->
  (forall x s, g (set_observation_history x s) = g s) ->
  (forall x s, g (set_previous_action x s) = g s) ->
  (forall s0, g (set_reward_history (Some [])
            (set_last_laser_hit_time (Some 0)
               (set_consecutive_laser_hits (Some 0%Z)
                  (set_laser_hits_count 0
                     (set_truncated false
                        (set_terminated false (set_steps 0 s0))))))) = x) ->
  g (fst (reset seeded seed i s)) = x.
Proof.
  intros H1 H2 H3 H4 H5 H6 H7 Hx.
  assert (Htail : keeps (unchanged g)
                    (observation <- _reset_environment i ;;
                     modify (set_previous_action None) ;;
                     ret observation)%py).
  { repeat first
      [ apply reset_environment_writes; assumption
      | keeps_step (unchanged_refl g) (unchanged_trans g) ].
    apply H7. }
  unfold reset.
  destruct seed;
    repeat (first [rewrite bind_modify | rewrite bind_ret]; cbv beta);
    rewrite Htail; apply Hx.
Qed.

(** C6, as far as the code goes.  After [reset], with or without a seed,
    the step counter is zero and the two end flags are down; the
    [boundary_crossed] latch, the hit flag and the start of the current
    hit are what they were before the call. *)
Theorem reset_zeroes_steps_keeps_latch seeded seed i s :
  steps (fst (reset seeded seed i s)) = 0%Z
  /\ terminated (fst (reset seeded seed i s)) = false
  /\ truncated (fst (reset seeded seed i s)) = false
  /\ boundary_crossed (fst (reset seeded seed i s)) = boundary_crossed s
  /\ laser_hit (fst (reset seeded seed i s)) = laser_hit s
  /\ continuous_hit_start (fst (reset seeded seed i s)) = continuous_hit_start s.
Proof.
  repeat split.
  - apply (reset_reading steps); reflexivity.
  - apply (reset_reading terminated); reflexivity.
  - apply (reset_reading truncated); reflexivity.
  - apply reset_keeps_latch.
  - apply (reset_writes laser_hit); reflexivity.
  - apply (reset_writes continuous_hit_start); reflexivity.
Qed.

(** The defect at work: a controller whose latch was set in the previous
    episode starts the next one with the gate open. *)
Example reset_with_latch_set :
  boundary_crossed
    (fst (reset (Scene.constant_generator 0.25) (Some 7%Z)
            {| rebuild := Ok tt;
               spawned := Scene.at_rest (vec3 (-1.5) (-1.5) 0.1) (vec3 0 0 0);
               t_first_observation := 0 |}
            (set_boundary_crossed true Scene.manned))) = true.
Proof. now rewrite reset_keeps_latch. Qed.

End Latch.

(** ** One step, taken apart *)

Tactic Notation "bind_inv" hyp(H) "as" ident(s') ident(a) ident(E) :=
  lazymatch type of H with
  | bind ?c ?k ?s = _ =>
      unfold bind at 1 in H;
      destruct (c s) as [s' [a|?]] eqn:E; [cbv beta in H|discriminate H]
  end.

Section Step.

Import AdvancedLaserVehicleEnv.

Lemma is_terminated_state ph now s : fst (_is_terminated ph now s) = s.
Proof. apply (is_terminated_writes (fun s => s)). Qed.

(** A step that returns went through every stage in turn. *)
Lemma step_inversion action i s s' out :
  step action i s = (s', Ok out) ->
  exists v s2 s3 hit s4 s5,
    CombatArena.vehicle (arena s) = Some v
    /\ LaserVehicle.apply_action v (before i) (map (fun a => a * 3.0) action)
       = Ok (command out)
    /\ tick i = Ok tt
    /\ _check_boundary_crossed (after i)
         (set_current_action (Some action) (set_steps (steps s + 1) s))
       = (s2, Ok tt)
    /\ _check_laser_hit (after i) (t_laser i) s2 = (s3, Ok hit)
    /\ _get_observation (after i) (t_observation i) s3 = (s4, Ok (observation out))
    /\ _compute_reward (after i) (t_reward i) action (PyBool hit) s4
       = (s5, Ok (reward out, reward_components out))
    /\ s' = set_episode_metrics (reward_components out)
              (set_previous_action (Some action)
                 (set_episode_reward (episode_reward s5 + reward out) s5))
    /\ _is_terminated (after i) (t_terminated i) s' = (s', Ok (is_terminated out))
    /\ is_truncated out = (max_steps s' <=? steps s')%Z.
Proof.
  intros H. unfold step in H.
  do 2 (rewrite bind_modify in H; cbv beta in H).
  bind_inv H as s1 v Ev.
  bind_inv H as s1' command Ecommand.
  bind_inv H as s1'' u Etick.
  bind_inv H as s2 u' Ecross.
  bind_inv H as s3 hit Ehit.
  bind_inv H as s4 observation Eobs.
  bind_inv H as s5 paid Ereward.
  destruct paid as [reward comps].
  do 3 (rewrite bind_modify in H; cbv beta in H).
  bind_inv H as s6 terminated Eend.
  unfold _is_truncated, bind, get, ret in H. cbn in H.
  injection H as <- <-. cbn.
  unfold the_vehicle in Ev. cbn in Ev.
  destruct (CombatArena.vehicle (arena s)) as [v0|] eqn:Hv; [|discriminate Ev].
  injection Ev as <- <-.
  unfold lift in Ecommand, Etick.
  injection Ecommand as <- Ecommand. injection Etick as <- Etick.
  destruct u, u'.
  pose proof (is_terminated_state (after i) (t_terminated i)
                (set_episode_metrics comps
                   (set_previous_action (Some action)
                      (set_episode_reward (episode_reward s5 + reward) s5))))
    as Hsame.
  rewrite Eend in Hsame. cbn in Hsame. subst s6.
  exists v0, s2, s3, hit, s4, s5.
  repeat (split; [assumption || reflexivity|]). reflexivity.
Qed.

End Step.

(** ** Running a step forward *)

Section Forward.

Import AdvancedLaserVehicleEnv.

Lemma writes_eq {A X} (f : t -> X) (c : M t A) s s' r :
  keeps (unchanged f) c -> c s = (s', r) -> f s' = f s.
Proof. intros K E. specialize (K s). now rewrite E in K. Qed.

Lemma the_vehicle_run s v :
  CombatArena.vehicle (arena s) = Some v -> the_vehicle s = (s, Ok v).
Proof. intros Hv. unfold the_vehicle. now rewrite Hv. Qed.

Lemma check_boundary_crossed_run ph s v position orientation :
  CombatArena.vehicle (arena s) = Some v ->
  LaserVehicle.get_position_and_orientation v ph = Ok (position, orientation) ->
  _check_boundary_crossed ph s
  = (if Rltb 0 (at1 position) && negb (boundary_crossed s)
     then set_boundary_crossed true s else s, Ok tt).
Proof.
  intros Hv Hpose. unfold _check_boundary_crossed, bind, lift, get.
  rewrite (the_vehicle_run s v Hv), Hpose.
  destruct (_ && _); reflexivity.
Qed.

Lemma check_laser_hit_returns ph now s v position orientation beam :
  CombatArena.vehicle (arena s) = Some v ->
  LaserVehicle.get_position_and_orientation v ph = Ok (position, orientation) ->
  rayTest_beam ph = Ok beam ->
  exists s' hit, _check_laser_hit ph now s = (s', Ok hit).
Proof.
  intros Hv Hpose Hbeam. unfold _check_laser_hit, bind, lift, get.
  rewrite (the_vehicle_run s v Hv), Hpose.
  destruct (negb (boundary_crossed s)); [eexists _, _; reflexivity|].
  destruct (opponent_id s); [|eexists _, _; reflexivity].
  destruct (opponent_position s); [|eexists _, _; reflexivity].
  rewrite Hbeam.
  destruct (negb _); [|eexists _, _; reflexivity].
  destruct (_ =? _)%Z; [|eexists _, _; reflexivity].
  destruct (negb (laser_hit s)); eexists _, _; reflexivity.
Qed.

(** The beam stays on the opponent: nothing changes, the hit goes on. *)
Lemma check_laser_hit_sustained ph now s v position orientation beam opponent target :
  CombatArena.vehicle (arena s) = Some v ->
  LaserVehicle.get_position_and_orientation v ph = Ok (position, orientation) ->
  boundary_crossed s = true ->
  opponent_id s = Some opponent ->
  opponent_position s = Some target ->
  rayTest_beam ph = Ok beam ->
  hit_object beam = opponent ->
  opponent <> (-1)%Z ->
  laser_hit s = true ->
  _check_laser_hit ph now s = (s, Ok true).
Proof.
  intros Hv Hpose Hlatch Hid Htarget Hbeam Hobj Hne Hhit.
  unfold _check_laser_hit, bind, lift, get.
  rewrite (the_vehicle_run s v Hv), Hpose, Hlatch, Hid, Htarget, Hbeam, Hobj, Hhit.
  cbn [negb].
  replace (opponent =? -1)%Z with false by (symmetry; now apply Z.eqb_neq).
  rewrite Z.eqb_refl. reflexivity.
Qed.

Lemma get_observation_returns ph now s :
  exists s' observation, _get_observation ph now s = (s', Ok observation).
Proof.
  unfold _get_observation, try_except, bind, lift, get, ret, modify.
  destruct (CombatArena.vehicle (arena s)) as [v|]; [|eexists _, _; reflexivity].
  destruct (LaserVehicle.get_laser_distances v ph); [|eexists _, _; reflexivity].
  destruct (LaserVehicle.get_position_and_orientation v ph) as [[position orientation]|];
    [|eexists _, _; reflexivity].
  destruct (LaserVehicle.get_velocity v ph); [|eexists _, _; reflexivity].
  destruct (LaserVehicle.get_angular_velocity v ph); [|eexists _, _; reflexivity].
  destruct (_observation_history s); eexists _, _; reflexivity.
Qed.

Lemma is_terminated_returns ph now s v collision position orientation :
  CombatArena.vehicle (arena s) = Some v ->
  LaserVehicle.check_collision v ph = Ok collision ->
  LaserVehicle.get_position_and_orientation v ph = Ok (position, orientation) ->
  exists ended, _is_terminated ph now s = (s, Ok ended).
Proof.
  intros Hv Hcol Hpose. unfold _is_terminated, bind, lift, get, ret.
  rewrite (the_vehicle_run s v Hv), Hcol.
  destruct collision; [eexists; reflexivity|]. rewrite Hpose.
  destruct (_ && _); [eexists; reflexivity|].
  destruct (match continuous_hit_start s with Some _ => _ | None => _ end);
    [eexists; reflexivity|].
  destruct (_ || _); eexists; reflexivity.
Qed.

(** A hit sustained for the victory threshold ends the episode. *)
Lemma is_terminated_on_victory ph now s v collision position orientation start :
  CombatArena.vehicle (arena s) = Some v ->
  LaserVehicle.check_collision v ph = Ok collision ->
  LaserVehicle.get_position_and_orientation v ph = Ok (position, orientation) ->
  continuous_hit_start s = Some start ->
  victory_threshold <= now - start ->
  _is_terminated ph now s = (s, Ok true).
Proof.
  intros Hv Hcol Hpose Hstart Hlong. unfold _is_terminated, bind, lift, get, ret.
  rewrite (the_vehicle_run s v Hv), Hcol.
  destruct collision; [reflexivity|]. rewrite Hpose.
  destruct (_ && _); [reflexivity|].
  rewrite Hstart. unfold victory_threshold in Hlong.
  now rewrite (Rleb_true _ _ Hlong).
Qed.

Lemma step_forward a0 a1 i s v p0 o0 position orientation collision beam :
  CombatArena.vehicle (arena s) = Some v ->
  LaserVehicle.get_position_and_orientation v (before i) = Ok (p0, o0) ->
  tick i = Ok tt ->
  LaserVehicle.get_position_and_orientation v (after i) = Ok (position, orientation) ->
  LaserVehicle.check_collision v (after i) = Ok collision ->
  rayTest_beam (after i) = Ok beam ->
  exists s' out, step [a0; a1] i s = (s', Ok out).
Proof.
  intros Hv Hbefore Htick Hpose Hcol Hbeam.
  unfold step. do 2 (rewrite bind_modify; cbv beta).
  set (s1 := set_current_action _ _).
  assert (Hv1 : CombatArena.vehicle (arena s1) = Some v) by exact Hv.
  unfold bind at 1. rewrite (the_vehicle_run s1 v Hv1).
  unfold bind at 1; unfold lift at 1. cbn [map]. unfold LaserVehicle.apply_action.
  rewrite Hbefore. cbv zeta.
  unfold bind at 1; unfold lift at 1. rewrite Htick.
  unfold bind at 1.
  rewrite (check_boundary_crossed_run _ s1 v _ _ Hv1 Hpose).
  match goal with
  | |- context [if ?c then set_boundary_crossed true s1 else s1] =>
      set (s2 := if c then set_boundary_crossed true s1 else s1)
  end.
  assert (Hv2 : CombatArena.vehicle (arena s2) = Some v).
  { subst s2. destruct (_ && _); exact Hv1. }
  destruct (check_laser_hit_returns (after i) (t_laser i) s2 v _ _ beam Hv2 Hpose Hbeam)
    as (s3 & hit & E3).
  unfold bind at 1. rewrite E3.
  destruct (get_observation_returns (after i) (t_observation i) s3)
    as (s4 & observation & E4).
  unfold bind at 1. rewrite E4.
  destruct (compute_reward_returns (after i) (t_reward i) [a0; a1] (PyBool hit) s4)
    as (s5 & total & comps & E5 & _).
  unfold bind at 1. rewrite E5.
  do 3 (rewrite bind_modify; cbv beta).
  set (s6 := set_episode_metrics _ _).
  assert (Hv6 : CombatArena.vehicle (arena s6) = Some v).
  { change (arena s6) with (arena s5).
    rewrite (writes_eq arena _ _ _ _
               (compute_reward_writes arena _ _ _ _
                  ltac:(reflexivity) ltac:(reflexivity) ltac:(reflexivity)) E5).
    rewrite (writes_eq arena _ _ _ _
               (get_observation_writes arena _ _ ltac:(reflexivity)) E4).
    rewrite (writes_eq arena _ _ _ _
               (check_laser_hit_writes arena _ _ ltac:(reflexivity)
                  ltac:(reflexivity)) E3).
    exact Hv2. }
  destruct (is_terminated_returns (after i) (t_terminated i) s6 v _ _ _
              Hv6 Hcol Hpose) as (ended & E6).
  unfold bind at 1. rewrite E6.
  unfold _is_truncated, bind, get, ret. eexists _, _. reflexivity.
Qed.

End Forward.

(** ** Victory *)

Section Victory.

Import AdvancedLaserVehicleEnv.

Lemma reward_opponent_goal s position orientation d g :
  dict_get "goal_reward" d = Some g ->
  dict_get "goal_reward" (reward_opponent s position orientation d) = Some g
  \/ dict_get "goal_reward" (reward_opponent s position orientation d)
     = Some (g + 3.0).
Proof.
  intros Hg. unfold reward_opponent.
  destruct (opponent_position s); [|now left]. cbv zeta.
  destruct (_ && _); destruct (boundary_crossed s); dict_simpl;
    unfold dict_val; dict_simpl; rewrite ?Hg; auto.
Qed.

(** Called with a boolean for [info], the computation never enters its
    laser block: the victory bonus of 50 is out of reach, and
    [goal_reward] is 0, or 3 for a lap. *)
Lemma compute_reward_bool_goal ph now action b s s' total comps :
  _compute_reward ph now action (PyBool b) s = (s', Ok (total, comps)) ->
  exists g, dict_get "goal_reward" comps = Some g /\ (g = 0 \/ g = 3).
Proof.
  intros Hrun.
  destruct (compute_reward_returns ph now action (PyBool b) s)
    as (s'' & total' & comps' & Hrun' & Hcomps).
  rewrite Hrun in Hrun'. injection Hrun' as <- <- <-.
  destruct Hcomps as [-> | (v & position & orientation & velocity & collision
                             & laser_distances & _ & _ & _ & _ & _ & Hearly)].
  - exists 0.0. split; [reflexivity|left; lra].
  - rewrite Hearly by (repeat split; discriminate).
    unfold shaped. frame. cbn [laser_hit_of reward_laser]. frame.
    destruct (reward_opponent_goal s position orientation
                (reward_collision collision
                   (reward_mines position (CombatArena.mine_positions (arena s))
                      (reward_out_of_bounds s position initial_reward_components)))
                0.0) as [Hg | Hg].
    + frame. reflexivity.
    + rewrite Hg. exists 0.0. split; [reflexivity|left; lra].
    + rewrite Hg. exists (0.0 + 3.0). split; [reflexivity|right; lra].
Qed.

(** X7.  Called with a dictionary that reports the hit, as its signature
    asks, [_compute_reward] does pay the victory bonus: on a hit that has
    lasted for the victory threshold the [goal_reward] entry is 50. *)
Lemma compute_reward_dict_pays_bonus ph now action s v position orientation
  velocity collision laser_distances start :
  CombatArena.vehicle (arena s) = Some v ->
  LaserVehicle.get_position_and_orientation v ph = Ok (position, orientation) ->
  LaserVehicle.get_velocity v ph = Ok velocity ->
  LaserVehicle.check_collision v ph = Ok collision ->
  LaserVehicle.get_laser_distances v ph = Ok laser_distances ->
  match previous_action s with
  | Some previous => length action = length previous
  | None => True
  end ->
  continuous_hit_start s = Some start ->
  victory_threshold <= now - start ->
  exists total comps,
    snd (_compute_reward ph now action (PyDict [("laser_hit"%string, true)]) s)
    = Ok (total, comps)
    /\ dict_get "goal_reward" comps = Some 50.
Proof.
  intros Hv Hpose Hvel Hcol Hlas Hprev Hstart Hlong.
  destruct (compute_reward_shaped ph now action (PyDict [("laser_hit"%string, true)])
              s v position orientation velocity collision laser_distances
              Hv Hpose Hvel Hcol Hlas Hprev)
    as (s' & total & comps & Hrun & Hearly).
  exists total, comps. rewrite Hrun. split; [reflexivity|].
  rewrite Hearly by (repeat split; discriminate).
  unfold shaped. frame. cbn [laser_hit_of info_get String.eqb Ascii.eqb Bool.eqb].
  unfold reward_laser. rewrite Hstart. cbv zeta.
  unfold victory_threshold in Hlong. rewrite (Rleb_true _ _ Hlong).
  dict_simpl. f_equal. lra.
Qed.

(** X7 at work: three seconds into a hit, the beam on the opponent. *)
Lemma compute_reward_dict_pays_bonus_witness :
  let s := set_continuous_hit_start (Some 0)
             (set_laser_hit true (set_boundary_crossed true Scene.manned)) in
  let ph := Scene.aiming_at 25 (vec3 1 1 0.1) (vec3 0 0 0) in
  continuous_hit_start s = Some 0
  /\ victory_threshold <= 3 - 0
  /\ exists total comps,
       snd (_compute_reward ph 3 [0; 0] (PyDict [("laser_hit"%string, true)]) s)
       = Ok (total, comps)
       /\ dict_get "goal_reward" comps = Some 50.
Proof.
  intros s ph.
  assert (Hlong : victory_threshold <= 3 - 0).
  { unfold victory_threshold. lra. }
  split; [reflexivity|]. split; [exact Hlong|].
  eapply (compute_reward_dict_pays_bonus ph 3 [0; 0] s);
    [ cbn; reflexivity | cbn; reflexivity | cbn; reflexivity | cbn; reflexivity
    | cbn; reflexivity | exact I | reflexivity | exact Hlong ].
Defined.

(** C2, as far as the code goes.  The beam has been on the opponent
    since [start] and still is; the engine answers every query; by the
    time termination is evaluated the hit has lasted the victory threshold
    (2 seconds).  Then [step] returns, its [terminated] flag is true, and
    the [goal_reward] of its breakdown is 0 (or 3 for a lap): [step] hands
    the boolean hit flag to [_compute_reward], which reads the hit from a
    dictionary only, so the bonus of 50 is never part of a step's
    reward. *)
Theorem sustained_hit_step_ends_without_bonus
  a0 a1 i s v p0 o0 position orientation collision beam opponent target start :
  CombatArena.vehicle (arena s) = Some v ->
  LaserVehicle.get_position_and_orientation v (before i) = Ok (p0, o0) ->
  tick i = Ok tt ->
  LaserVehicle.get_position_and_orientation v (after i) = Ok (position, orientation) ->
  LaserVehicle.check_collision v (after i) = Ok collision ->
  rayTest_beam (after i) = Ok beam ->
  boundary_crossed s = true ->
  opponent_id s = Some opponent ->
  opponent_position s = Some target ->
  hit_object beam = opponent ->
  opponent <> (-1)%Z ->
  laser_hit s = true ->
  continuous_hit_start s = Some start ->
  victory_threshold <= t_terminated i - start ->
  exists s' out,
    step [a0; a1] i s = (s', Ok out)
    /\ is_terminated out = true
    /\ exists g, dict_get "goal_reward" (reward_components out) = Some g
                 /\ (g = 0 \/ g = 3).
Proof.
  intros Hv Hbefore Htick Hpose Hcol Hbeam Hlatch Hid Htarget Hobj Hne Hhit
    Hstart Hlong.
  destruct (step_forward a0 a1 i s v p0 o0 position orientation collision beam
              Hv Hbefore Htick Hpose Hcol Hbeam) as (s' & out & Hstep).
  exists s', out. split; [exact Hstep|].
  destruct (step_inversion _ _ _ _ _ Hstep)
    as (v' & s2 & s3 & hit & s4 & s5 & _ & _ & _ & E2 & E3 & E4 & E5 & Hs' & E6 & _).
  set (s1 := set_current_action (Some [a0; a1]) (set_steps (steps s + 1) s)) in *.
  rewrite (check_boundary_crossed_run _ s1 v _ _ Hv Hpose) in E2.
  replace (boundary_crossed s1) with true in E2 by (symmetry; exact Hlatch).
  rewrite andb_false_r in E2. injection E2 as <-.
  rewrite (check_laser_hit_sustained _ _ s1 v _ _ beam opponent target
             Hv Hpose Hlatch Hid Htarget Hbeam Hobj Hne Hhit) in E3.
  injection E3 as <- <-.
  split.
  - assert (Hv' : CombatArena.vehicle (arena s') = Some v).
    { rewrite Hs'. change (arena (set_episode_metrics _ _)) with (arena s5).
      rewrite (writes_eq arena _ _ _ _
                 (compute_reward_writes arena _ _ _ _
                    ltac:(reflexivity) ltac:(reflexivity) ltac:(reflexivity)) E5).
      rewrite (writes_eq arena _ _ _ _
                 (get_observation_writes arena _ _ ltac:(reflexivity)) E4).
      exact Hv. }
    assert (Hstart' : continuous_hit_start s' = Some start).
    { rewrite Hs'.
      change (continuous_hit_start (set_episode_metrics _ _))
        with (continuous_hit_start s5).
      rewrite (writes_eq continuous_hit_start _ _ _ _
                 (compute_reward_writes continuous_hit_start _ _ _ _
                    ltac:(reflexivity) ltac:(reflexivity) ltac:(reflexivity)) E5).
      rewrite (writes_eq continuous_hit_start _ _ _ _
                 (get_observation_writes continuous_hit_start _ _
                    ltac:(reflexivity)) E4).
      exact Hstart. }
    rewrite (is_terminated_on_victory _ _ s' v _ _ _ start Hv' Hcol Hpose
               Hstart' Hlong) in E6.
    now injection E6 as <-.
  - exact (compute_reward_bool_goal _ _ _ _ _ _ _ _ E5).
Qed.

(** The failing input of C2: three seconds into a hit, on the manned
    field. *)
Lemma sustained_hit_step_witness :
  let s := set_continuous_hit_start (Some 0)
             (set_laser_hit true (set_boundary_crossed true Scene.manned)) in
  let i := {| before := Scene.at_rest (vec3 1 1 0.1) (vec3 0 0 0);
              tick := Ok tt;
              after := Scene.aiming_at 25 (vec3 1 1 0.1) (vec3 0 0 0);
              t_laser := 3; t_observation := 3; t_reward := 3;
              t_terminated := 3; t_info := 3 |} in
  laser_hit s = true
  /\ continuous_hit_start s = Some 0
  /\ victory_threshold <= t_terminated i - 0
  /\ exists s' out,
       step [0; 0] i s = (s', Ok out)
       /\ is_terminated out = true
       /\ exists g, dict_get "goal_reward" (reward_components out) = Some g
                    /\ (g = 0 \/ g = 3).
Proof.
  intros s i.
  assert (Hlong : victory_threshold <= t_terminated i - 0).
  { unfold victory_threshold. cbn. lra. }
  split; [reflexivity|]. split; [reflexivity|]. split; [exact Hlong|].
  eapply (sustained_hit_step_ends_without_bonus 0 0 i s);
    [ cbn; reflexivity | cbn; reflexivity | reflexivity | cbn; reflexivity
    | cbn; reflexivity | cbn; reflexivity | reflexivity | cbn; reflexivity
    | cbn; reflexivity | cbn; reflexivity | discriminate | reflexivity
    | reflexivity | exact Hlong ].
Defined.

End Victory.

(** ** Opening the gate *)

Section Gate.

Import AdvancedLaserVehicleEnv.

(** With the latch set, the breakdown carries the waypoint reward. *)
Lemma compute_reward_waypoint ph now action info s s' total comps :
  boundary_crossed s = true ->
  _compute_reward ph now action info s = (s', Ok (total, comps)) ->
  comps = zero_metrics \/ dict_get "waypoint_reward" comps = Some 0.3.
Proof.
  intros Hlatch Hrun.
  destruct (compute_reward_returns ph now action info s)
    as (s'' & total' & comps' & Hrun' & Hcomps).
  rewrite Hrun in Hrun'. injection Hrun' as <- <- <-.
  destruct Hcomps as [-> | (v & position & orientation & velocity & collision
                             & laser_distances & _ & _ & _ & _ & _ & Hearly)];
    [now left|right].
  rewrite Hearly by (repeat split; discriminate).
  unfold shaped. frame. unfold reward_waypoint. rewrite Hlatch. now dict_simpl.
Qed.

(** The upper-right start corner lies above the dividing line. *)
Lemma upper_right_start s :
  np_random s O <= 0.5 ->
  0.5 < CombatArena.arena_half_size (arena s) ->
  exists start,
    snd (_get_random_start_position s) = Ok start /\ 0 < at1 start.
Proof.
  intros Hcoin Hhalf.
  unfold _get_random_start_position, bind, np_random_rand, get, ret.
  cbn [fst snd]. rewrite (Rltb_false _ _ Hcoin).
  eexists. split; [reflexivity|]. cbn. lra.
Qed.

(** C10.  A [step] whose simulation tick leaves the vehicle at a strictly
    positive [y] sets the [boundary_crossed] latch, whatever the latch and
    the vehicle's [y] were before.  The breakdown of that very step is
    already computed with the gate open: it carries the waypoint reward
    (unless the computation fell back to its zero-filled dictionary).  And
    the upper-right start corner, which [_get_random_start_position] picks
    whenever the generator's sample is at most 0.5, has such a [y]: the
    first step of an episode spawned there opens the gate without the
    vehicle ever crossing the line [y = 0]. *)
Theorem step_sets_latch_above_midline
  a0 a1 i s v p0 o0 position orientation :
  CombatArena.vehicle (arena s) = Some v ->
  LaserVehicle.get_position_and_orientation v (before i) = Ok (p0, o0) ->
  tick i = Ok tt ->
  LaserVehicle.get_position_and_orientation v (after i) = Ok (position, orientation) ->
  0 < at1 position ->
  boundary_crossed (fst (step [a0; a1] i s)) = true
  /\ (forall s' out,
        step [a0; a1] i s = (s', Ok out) ->
        reward_components out = zero_metrics
        \/ dict_get "waypoint_reward" (reward_components out) = Some 0.3)
  /\ (forall s0,
        np_random s0 O <= 0.5 ->
        0.5 < CombatArena.arena_half_size (arena s0) ->
        exists start,
          snd (_get_random_start_position s0) = Ok start /\ 0 < at1 start).
Proof.
  intros Hv Hbefore Htick Hpose Habove.
  set (s1 := set_current_action (Some [a0; a1]) (set_steps (steps s + 1) s)).
  assert (Hv1 : CombatArena.vehicle (arena s1) = Some v) by exact Hv.
  assert (Hcross : exists s2, _check_boundary_crossed (after i) s1 = (s2, Ok tt)
                              /\ boundary_crossed s2 = true).
  { rewrite (check_boundary_crossed_run _ s1 v _ _ Hv1 Hpose).
    rewrite (Rltb_true _ _ Habove). eexists. split; [reflexivity|].
    destruct (boundary_crossed s1) eqn:E; cbn; [exact E|reflexivity]. }
  destruct Hcross as (s2 & Hcross & Hlatch2).
  split; [|split].
  - unfold step. do 2 (rewrite bind_modify; cbv beta). fold s1.
    unfold bind at 1. rewrite (the_vehicle_run s1 v Hv1).
    unfold bind at 1; unfold lift at 1. cbn [map]. unfold LaserVehicle.apply_action.
    rewrite Hbefore. cbv zeta.
    unfold bind at 1; unfold lift at 1. rewrite Htick.
    unfold bind at 1. rewrite Hcross.
    match goal with
    | |- boundary_crossed (fst (?rest s2)) = true =>
        assert (K : keeps latch_kept rest)
    end.
    { repeat first
        [ apply (keeps_weaken _ _ _ unchanged_latch_kept);
          first [ apply check_laser_hit_writes; reflexivity
                | apply get_observation_writes; reflexivity
                | apply compute_reward_writes; reflexivity
                | apply is_terminated_writes
                | apply is_truncated_writes ]
        | keeps_step latch_kept_refl latch_kept_trans ];
      try (intros Hs; exact Hs). }
    now apply K.
  - intros s' out Hstep.
    destruct (step_inversion _ _ _ _ _ Hstep)
      as (v' & s2' & s3 & hit & s4 & s5 & _ & _ & _ & E2 & E3 & E4 & E5 & _).
    fold s1 in E2. rewrite Hcross in E2. injection E2 as <-.
    eapply compute_reward_waypoint; [|exact E5].
    rewrite (writes_eq boundary_crossed _ _ _ _
               (get_observation_writes boundary_crossed _ _ ltac:(reflexivity)) E4).
    rewrite (writes_eq boundary_crossed _ _ _ _
               (check_laser_hit_writes boundary_crossed _ _ ltac:(reflexivity)
                  ltac:(reflexivity)) E3).
    exact Hlatch2.
  - intros s0. apply upper_right_start.
Qed.

(** C10 at work: the first step on the manned field, the vehicle still
    standing at the upper-right corner. *)
Lemma step_sets_latch_witness :
  boundary_crossed Scene.manned = false
  /\ 0 < at1 (vec3 1.5 1.5 0.1)
  /\ boundary_crossed
       (fst (step [0; 0] (Scene.quiet_step (vec3 1.5 1.5 0.1) 0) Scene.manned))
     = true.
Proof.
  split; [reflexivity|].
  assert (Habove : 0 < at1 (vec3 1.5 1.5 0.1)) by (cbn; lra).
  split; [exact Habove|].
  edestruct (step_sets_latch_above_midline 0 0
               (Scene.quiet_step (vec3 1.5 1.5 0.1) 0) Scene.manned)
    as (Hlatch & _);
    [ cbn; reflexivity | cbn; reflexivity | reflexivity | cbn; reflexivity
    | exact Habove | exact Hlatch ].
Defined.

End Gate.

(** ** The vehicle's speed limits *)

Section Limits.

Import LaserVehicle.

Lemma np_clip_bounds (x lo hi : R) : lo <= hi -> lo <= np_clip x lo hi <= hi.
Proof.
  intros Hle. unfold np_clip, Rmin, Rmax.
  destruct (Rle_dec x lo); destruct (Rle_dec _ hi); lra.
Qed.

(** The norm of a planar vector of length [|l|] turned by [yaw]. *)
Lemma norm_of_heading (l yaw : R) :
  np_linalg_norm (vec3 (l * cos yaw) (l * sin yaw) 0) = Rabs l.
Proof.
  unfold np_linalg_norm. cbn [at0 at1 at2].
  replace (l * cos yaw * (l * cos yaw) + l * sin yaw * (l * sin yaw) + 0 * 0)
    with (Rsqr l).
  - apply sqrt_Rsqr_abs.
  - pose proof (sin2_cos2 yaw) as H. unfold Rsqr in *. nra.
Qed.

Lemma norm_of_spin (w : R) : np_linalg_norm (vec3 0 0 w) = Rabs w.
Proof.
  unfold np_linalg_norm. cbn [at0 at1 at2].
  replace (0 * 0 + 0 * 0 + w * w) with (Rsqr w) by (unfold Rsqr; ring).
  apply sqrt_Rsqr_abs.
Qed.

(** C8.  On a vehicle whose two limits are not negative (as they are
    from construction on), every command [apply_action] hands to the
    engine, for whatever two-element action, in [[-1, 1]] or not, asks for
    a linear speed of at most [max_velocity] and an angular speed of at
    most [max_angular_velocity].  (Any other action raises [ValueError]
    and commands nothing.) *)
Theorem apply_action_within_limits (v : t) (ph : Physics) (action : list R)
  (c : VelocityCommand) :
  0 <= max_velocity v ->
  0 <= max_angular_velocity v ->
  apply_action v ph action = Ok c ->
  linear_speed c <= max_velocity v
  /\ angular_speed c <= max_angular_velocity v.
Proof.
  intros Hv Hw. unfold apply_action.
  destruct action as [|a0 [|a1 [|? ?]]]; try discriminate.
  destruct (get_position_and_orientation v ph) as [[position orientation]|e];
    [|discriminate].
  cbv zeta. intros [= <-].
  unfold linear_speed, angular_speed. cbn [linearVelocity angularVelocity].
  rewrite norm_of_heading, norm_of_spin.
  pose proof (np_clip_bounds a0 (-1.0) 1.0 ltac:(lra)) as H0.
  pose proof (np_clip_bounds a1 (-1.0) 1.0 ltac:(lra)) as H1.
  set (c0 := np_clip a0 (-1.0) 1.0) in *.
  set (c1 := np_clip a1 (-1.0) 1.0) in *.
  split.
  - apply Rabs_le. split; nra.
  - apply Rabs_le. apply np_clip_bounds. lra.
Qed.

Lemma init_limits body size mass :
  0 <= max_velocity (__init__ body size mass)
  /\ 0 <= max_angular_velocity (__init__ body size mass).
Proof. cbn. pose proof PI_RGT_0. split; nra. Qed.

(** C8 at work: a freshly built vehicle and an action far out of range. *)
Lemma apply_action_within_limits_witness :
  let v := __init__ 0 (vec3 0.2 0.15 0.1) 1.5 in
  let ph := Scene.at_rest (vec3 0 0 0.1) (vec3 0 0 0) in
  0 <= max_velocity v
  /\ 0 <= max_angular_velocity v
  /\ exists c, apply_action v ph [3; -3] = Ok c
               /\ linear_speed c <= max_velocity v
               /\ angular_speed c <= max_angular_velocity v.
Proof.
  intros v ph.
  destruct (init_limits 0 (vec3 0.2 0.15 0.1) 1.5) as [Hv Hw].
  split; [exact Hv|]. split; [exact Hw|].
  eexists. split; [reflexivity|].
  exact (apply_action_within_limits v ph [3; -3] _ Hv Hw eq_refl).
Defined.

End Limits.

(** ** Methods that cannot raise *)

Section Returns.

Import AdvancedLaserVehicleEnv.

Lemma returns_ret {St A} (a : A) : returns (ret (St := St) a).
Proof. intros s. reflexivity. Qed.

Lemma returns_get {St} : returns (get (St := St)).
Proof. intros s. reflexivity. Qed.

Lemma returns_modify {St} (f : St -> St) : returns (modify f).
Proof. intros s. reflexivity. Qed.

Lemma returns_bind {St A B} (c : M St A) (k : A -> M St B) :
  returns c -> (forall a, returns (k a)) -> returns (bind c k).
Proof.
  intros Hc Hk s. unfold bind. specialize (Hc s).
  destruct (c s) as [s' [a|e]]; [apply Hk|discriminate Hc].
Qed.

Lemma returns_run {St A} (c : M St A) (s : St) :
  returns c -> exists s' a, c s = (s', Ok a).
Proof.
  intros Hc. specialize (Hc s). destruct (c s) as [s' [a|e]];
    [eauto|discriminate Hc].
Qed.

Ltac returns_step :=
  lazymatch goal with
  | |- returns (bind _ _) => apply returns_bind; [|intros]
  | |- returns (ret _) => apply returns_ret
  | |- returns get => apply returns_get
  | |- returns (modify _) => apply returns_modify
  | |- returns (if ?b then _ else _) => destruct b
  | |- returns (match ?x with _ => _ end) => destruct x
  end.

Lemma np_random_rand_returns : returns np_random_rand.
Proof. intros s. reflexivity. Qed.

Lemma np_random_uniform_returns low high : returns (np_random_uniform low high).
Proof.
  unfold np_random_uniform.
  repeat first [apply np_random_rand_returns | returns_step].
Qed.

Lemma get_random_start_position_returns : returns _get_random_start_position.
Proof.
  unfold _get_random_start_position.
  repeat first [apply np_random_rand_returns | returns_step].
Qed.

Lemma spawn_vehicle_returns mass size : returns (spawn_vehicle mass size).
Proof.
  intros s. unfold spawn_vehicle.
  destruct (CombatArena.spawn_vehicle mass size (arena s)). reflexivity.
Qed.

Lemma draw_mines_returns n : returns (draw_mines n).
Proof.
  induction n as [|n IH]; cbn [draw_mines].
  - apply returns_ret.
  - repeat first [apply np_random_uniform_returns | exact IH | returns_step].
Qed.

(** The primary vehicle, once spawned, stays. *)

Lemma manned_kept_refl s : manned_kept s s.
Proof. intros H. exact H. Qed.

Lemma manned_kept_trans s1 s2 s3 :
  manned_kept s1 s2 -> manned_kept s2 s3 -> manned_kept s1 s3.
Proof. unfold manned_kept. auto. Qed.

Lemma unchanged_manned_kept s s' : unchanged arena s s' -> manned_kept s s'.
Proof. unfold unchanged, manned_kept. intros ->. auto. Qed.

Lemma spawn_vehicle_mans mass size s :
  CombatArena.vehicle (arena (fst (spawn_vehicle mass size s))) <> None.
Proof.
  unfold spawn_vehicle, CombatArena.spawn_vehicle. cbn.
  destruct (CombatArena.vehicle (arena s)); discriminate.
Qed.

Lemma spawn_vehicle_manned_kept mass size : keeps manned_kept (spawn_vehicle mass size).
Proof. intros s _. apply spawn_vehicle_mans. Qed.

(** When the engine rebuilds the scene, [respawn] returns and leaves a
    primary vehicle on the field. *)
Lemma respawn_run i s :
  rebuild i = Ok tt ->
  exists s' v, respawn i s = (s', Ok tt)
               /\ CombatArena.vehicle (arena s') = Some v.
Proof.
  intros Hrebuild. unfold respawn.
  unfold bind at 1; unfold lift at 1. rewrite Hrebuild.
  rewrite bind_modify. cbv beta.
  set (s0 := set_arena _ s).
  unfold bind at 1.
  destruct (returns_run _ s0 get_random_start_position_returns)
    as (s1 & start_pos & ->).
  unfold bind at 1.
  destruct (returns_run _ s1 (np_random_uniform_returns (- PI) PI))
    as (s2 & start_yaw & ->).
  unfold bind at 1.
  pose proof (spawn_vehicle_mans 1.5 (vec3 0.2 0.15 0.1) s2) as Hmanned.
  destruct (returns_run _ s2 (spawn_vehicle_returns 1.5 (vec3 0.2 0.15 0.1)))
    as (s3 & body & E3).
  rewrite E3 in *. cbn [fst] in Hmanned. cbv beta iota.
  match goal with
  | |- exists s' v, ?rest s3 = _ /\ _ =>
      assert (R : returns rest); [|assert (K : keeps manned_kept rest)]
  end.
  - repeat first
      [ apply np_random_uniform_returns
      | apply spawn_vehicle_returns
      | apply draw_mines_returns
      | returns_step ].
  - repeat first
      [ apply spawn_vehicle_manned_kept
      | apply (keeps_weaken _ _ _ unchanged_manned_kept);
        first [ apply np_random_uniform_writes; reflexivity
              | apply draw_mines_writes; reflexivity ]
      | keeps_step manned_kept_refl manned_kept_trans ];
    try (intros Hs; exact Hs).
    all: intros Hs;
      match goal with
      | |- CombatArena.vehicle
             (arena (match CombatArena.vehicle (arena ?x) with _ => _ end)) <> None =>
          destruct (CombatArena.vehicle (arena x)) eqn:Ev; cbn;
          [discriminate | now rewrite Ev]
      end.
  - destruct (returns_run _ s3 R) as (s' & [] & E).
    specialize (K s3 Hmanned). rewrite E in *. cbn [fst] in K.
    destruct (CombatArena.vehicle (arena s')) as [v|] eqn:Hv; [|contradiction].
    exists s', v. split; [reflexivity|exact Hv].
Qed.

End Returns.

(** ** Observation frames and the history *)

Section Frames.

Import AdvancedLaserVehicleEnv.

Lemma get_laser_distances_length v ph lasers :
  LaserVehicle.get_laser_distances v ph = Ok lasers -> length lasers = 16%nat.
Proof.
  unfold LaserVehicle.get_laser_distances.
  destruct (LaserVehicle.get_position_and_orientation v ph); [|discriminate].
  destruct (rayTest_fan ph); [|discriminate].
  intros [= <-]. reflexivity.
Qed.

Lemma opponent_info_length s position orientation :
  length (opponent_info s position orientation) = 4%nat.
Proof. unfold opponent_info. now destruct (opponent_position s). Qed.

Lemma mine_info_length s position orientation :
  length (mine_info s position orientation) = 2%nat.
Proof.
  unfold mine_info. destruct (mine_positions s); [reflexivity|].
  now destruct (nearest_mine _ _ _ _ _) as [[m|] a].
Qed.

Lemma current_observation_length s lasers position orientation velocity angular now :
  length lasers = 16%nat ->
  length (current_observation s lasers position orientation velocity angular now)
  = frame_length.
Proof.
  intros H. unfold current_observation.
  rewrite !length_app, H, opponent_info_length, mine_info_length. reflexivity.
Qed.

Lemma current_observation_position_x s lasers position orientation velocity angular now :
  length lasers = 16%nat ->
  position_x (current_observation s lasers position orientation velocity angular now)
  = at0 position.
Proof.
  intros H. unfold position_x, current_observation.
  rewrite app_nth2 by lia. rewrite H. reflexivity.
Qed.

End Frames.

Section ObservationRun.

Import AdvancedLaserVehicleEnv.

(** When the vehicle is there and the engine answers, [_get_observation]
    appends one frame to the history and returns the history flattened. *)
Lemma get_observation_run ph now s v position orientation linear angular ray :
  CombatArena.vehicle (arena s) = Some v ->
  getBasePositionAndOrientation ph = Ok (position, orientation) ->
  getBaseVelocity ph = Ok (linear, angular) ->
  rayTest_fan ph = Ok ray ->
  exists frame,
    _get_observation ph now s
    = (set_observation_history (Some (pushed s frame)) s,
       Ok (concat (pushed s frame)))
    /\ length frame = frame_length
    /\ position_x frame = at0 position.
Proof.
  intros Hv Hpose Hvel Hray.
  destruct (LaserVehicle.get_laser_distances v ph) as [lasers|] eqn:Hlasers.
  2:{ unfold LaserVehicle.get_laser_distances, LaserVehicle.get_position_and_orientation
        in Hlasers. rewrite Hpose, Hray in Hlasers. discriminate. }
  pose proof (get_laser_distances_length _ _ _ Hlasers) as Hlen.
  exists (current_observation s lasers position orientation linear angular now).
  split; [|split].
  - unfold _get_observation, try_except, bind, lift, get, ret, modify.
    rewrite Hv, Hlasers.
    unfold LaserVehicle.get_position_and_orientation, LaserVehicle.get_velocity,
      LaserVehicle.get_angular_velocity.
    rewrite Hpose, Hvel. unfold pushed, history_before, history_of.
    destruct (_observation_history s) as [h|] eqn:Hh; cbn; rewrite ?Hh; reflexivity.
  - now apply current_observation_length.
  - now apply current_observation_position_x.
Qed.

End ObservationRun.

Section ResetRun.

Import AdvancedLaserVehicleEnv.

Variable seeded : Z -> nat -> R.

Lemma pushed_eq s s' frame :
  _observation_history s' = _observation_history s ->
  observation_config s' = observation_config s ->
  pushed s' frame = pushed s frame.
Proof. intros Hh Hc. unfold pushed, history_before. now rewrite Hh, Hc. Qed.

Lemma reset_environment_run i s position orientation linear angular ray :
  rebuild i = Ok tt ->
  getBasePositionAndOrientation (spawned i) = Ok (position, orientation) ->
  getBaseVelocity (spawned i) = Ok (linear, angular) ->
  rayTest_fan (spawned i) = Ok ray ->
  exists s' frame,
    _reset_environment i s = (s', Ok (concat (pushed s frame)))
    /\ _observation_history s' = Some (pushed s frame)
    /\ observation_config s' = observation_config s
    /\ CombatArena.vehicle (arena s') <> None
    /\ length frame = frame_length
    /\ position_x frame = at0 position.
Proof.
  intros Hrebuild Hpose Hvel Hray.
  destruct (respawn_run i s Hrebuild) as (s1 & v & E1 & Hv).
  pose proof (writes_eq _observation_history _ _ _ _
                (respawn_writes _observation_history ltac:(reflexivity) ltac:(reflexivity)
                   ltac:(reflexivity) ltac:(reflexivity) ltac:(reflexivity) i) E1)
    as Hhist.
  pose proof (writes_eq observation_config _ _ _ _
                (respawn_writes observation_config ltac:(reflexivity) ltac:(reflexivity)
                   ltac:(reflexivity) ltac:(reflexivity) ltac:(reflexivity) i) E1)
    as Hcfg.
  destruct (get_observation_run (spawned i) (t_first_observation i) s1 v
              _ _ _ _ _ Hv Hpose Hvel Hray) as (frame & E2 & Hlen & Hx).
  rewrite (pushed_eq s s1 frame Hhist Hcfg) in E2.
  exists (set_observation_history (Some (pushed s frame)) s1), frame.
  split; [|split; [|split; [|split; [|split]]]].
  - unfold _reset_environment, try_except, bind. now rewrite E1, E2.
  - reflexivity.
  - exact Hcfg.
  - change (CombatArena.vehicle (arena s1) <> None). now rewrite Hv.
  - exact Hlen.
  - exact Hx.
Qed.

(** [reset] on an engine that answers: the observation is the history as
    the earlier calls left it, one frame further.  Nothing on the way
    empties the history. *)
Lemma reset_run seed i s position orientation linear angular ray :
  rebuild i = Ok tt ->
  getBasePositionAndOrientation (spawned i) = Ok (position, orientation) ->
  getBaseVelocity (spawned i) = Ok (linear, angular) ->
  rayTest_fan (spawned i) = Ok ray ->
  exists s' frame,
    reset seeded seed i s = (s', Ok (concat (pushed s frame)))
    /\ _observation_history s' = Some (pushed s frame)
    /\ observation_config s' = observation_config s
    /\ CombatArena.vehicle (arena s') <> None
    /\ length frame = frame_length
    /\ position_x frame = at0 position.
Proof.
  intros Hrebuild Hpose Hvel Hray. unfold reset.
  assert (Hhead : forall s0,
            _observation_history s0 = _observation_history s ->
            observation_config s0 = observation_config s ->
            exists s' frame,
              (modify (set_steps 0) ;;
               modify (set_terminated false) ;;
               modify (set_truncated false) ;;
               modify (set_laser_hits_count 0) ;;
               modify (set_consecutive_laser_hits (Some 0%Z)) ;;
               modify (set_last_laser_hit_time (Some 0)) ;;
               modify (set_reward_history (Some [])) ;;
               observation <- _reset_environment i ;;
               modify (set_previous_action None) ;;
               ret observation)%py s0 = (s', Ok (concat (pushed s frame)))
              /\ _observation_history s' = Some (pushed s frame)
              /\ observation_config s' = observation_config s
              /\ CombatArena.vehicle (arena s') <> None
              /\ length frame = frame_length
              /\ position_x frame = at0 position).
  { intros s0 Hh0 Hc0.
    do 7 (rewrite bind_modify; cbv beta).
    set (s1 := set_reward_history _ _).
    destruct (reset_environment_run i s1 _ _ _ _ _ Hrebuild Hpose Hvel Hray)
      as (s2 & frame & E & Hh & Hc & Hv & Hlen & Hx).
    assert (Hp : pushed s1 frame = pushed s frame)
      by (apply pushed_eq; [exact Hh0|exact Hc0]).
    rewrite Hp in E, Hh.
    exists (set_previous_action None s2), frame.
    split; [|split; [|split; [|split; [|split]]]].
    - unfold bind at 1. rewrite E. reflexivity.
    - exact Hh.
    - change (observation_config s2 = observation_config s).
      rewrite Hc. exact Hc0.
    - exact Hv.
    - exact Hlen.
    - exact Hx. }
  destruct seed as [seed|].
  - rewrite bind_modify. cbv beta. apply Hhead; reflexivity.
  - rewrite bind_ret. apply Hhead; reflexivity.
Qed.

End ResetRun.

Section StepRun.

Import AdvancedLaserVehicleEnv.

(** [step] on an engine that answers: it returns, and its observation is
    the history one frame further. *)
Lemma step_run a0 a1 i s v p0 o0 position orientation linear angular ray
  collision beam :
  CombatArena.vehicle (arena s) = Some v ->
  getBasePositionAndOrientation (before i) = Ok (p0, o0) ->
  tick i = Ok tt ->
  getBasePositionAndOrientation (after i) = Ok (position, orientation) ->
  getBaseVelocity (after i) = Ok (linear, angular) ->
  rayTest_fan (after i) = Ok ray ->
  LaserVehicle.check_collision v (after i) = Ok collision ->
  rayTest_beam (after i) = Ok beam ->
  exists s' out frame,
    step [a0; a1] i s = (s', Ok out)
    /\ observation out = concat (pushed s frame)
    /\ _observation_history s' = Some (pushed s frame)
    /\ observation_config s' = observation_config s
    /\ CombatArena.vehicle (arena s') <> None
    /\ length frame = frame_length
    /\ position_x frame = at0 position.
Proof.
  intros Hv Hbefore Htick Hpose Hvel Hray Hcol Hbeam.
  destruct (step_forward a0 a1 i s v p0 o0 position orientation collision beam
              Hv Hbefore Htick Hpose Hcol Hbeam) as (s' & out & E).
  destruct (step_inversion _ _ _ _ _ E)
    as (v' & s2 & s3 & hit & s4 & s5 & _ & _ & _ & E2 & E3 & E4 & E5 & Es' & _).
  set (s1 := set_current_action _ _) in E2.
  pose proof (fun X (f : t -> X) H =>
                writes_eq f _ _ _ _ (check_boundary_crossed_writes f (after i) H) E2)
    as W2.
  pose proof (fun X (f : t -> X) H1 H2 =>
                writes_eq f _ _ _ _
                  (check_laser_hit_writes f (after i) (t_laser i) H1 H2) E3)
    as W3.
  pose proof (fun X (f : t -> X) H1 H2 H3 =>
                writes_eq f _ _ _ _
                  (compute_reward_writes f (after i) (t_reward i) _ _ H1 H2 H3) E5)
    as W5.
  assert (Hv3 : CombatArena.vehicle (arena s3) = Some v).
  { rewrite (W3 _ arena) by reflexivity. rewrite (W2 _ arena) by reflexivity.
    exact Hv. }
  assert (Hh3 : _observation_history s3 = _observation_history s).
  { rewrite (W3 _ _observation_history) by reflexivity.
    rewrite (W2 _ _observation_history) by reflexivity. reflexivity. }
  assert (Hc3 : observation_config s3 = observation_config s).
  { rewrite (W3 _ observation_config) by reflexivity.
    rewrite (W2 _ observation_config) by reflexivity. reflexivity. }
  destruct (get_observation_run (after i) (t_observation i) s3 v
              _ _ _ _ _ Hv3 Hpose Hvel Hray) as (frame & E4' & Hlen & Hx).
  rewrite (pushed_eq s s3 frame Hh3 Hc3) in E4'.
  rewrite E4' in E4. injection E4 as Es4 Eobs.
  exists s', out, frame.
  split; [exact E|]. split; [now symmetry|].
  subst s'.
  split; [|split; [|split; [|split]]].
  - change (_observation_history s5 = Some (pushed s frame)).
    rewrite (W5 _ _observation_history) by reflexivity. now rewrite <- Es4.
  - change (observation_config s5 = observation_config s).
    rewrite (W5 _ observation_config) by reflexivity. now rewrite <- Es4.
  - change (CombatArena.vehicle (arena s5) <> None).
    rewrite (W5 _ arena) by reflexivity. rewrite <- Es4.
    change (CombatArena.vehicle (arena s3) <> None). now rewrite Hv3.
  - exact Hlen.
  - exact Hx.
Qed.

End StepRun.

(** ** Observations that cannot be built *)

Section Degrade.

Import AdvancedLaserVehicleEnv.

(** When the construction fails, the answer is the zero vector of the
    controller's observation space, and nothing is written. *)
Lemma get_observation_fails ph now s :
  observation_fails ph s ->
  _get_observation ph now s = (s, Ok (np_zeros (observation_space s))).
Proof.
  unfold observation_fails, _get_observation, try_except, bind, lift, get, ret.
  destruct (CombatArena.vehicle (arena s)) as [v|]; [|reflexivity].
  destruct (LaserVehicle.get_laser_distances v ph); [|reflexivity].
  destruct (LaserVehicle.get_position_and_orientation v ph) as [[position orientation]|];
    [|reflexivity].
  destruct (LaserVehicle.get_velocity v ph); [|reflexivity].
  destruct (LaserVehicle.get_angular_velocity v ph); [|reflexivity].
  cbn. intros [H|[H|[H|H]]]; discriminate H.
Qed.

(** No method writes [observation_space]. *)
Lemma reachable_observation_space seeded cfg s :
  reachable seeded cfg s ->
  observation_space s = ((lasers cfg + 24) * history_length cfg)%nat.
Proof.
  induction 1 as [difficulty max_steps clock|s seed i _ IH|s action i _ IH|s d _ IH].
  - reflexivity.
  - rewrite <- IH. apply (reset_writes observation_space); reflexivity.
  - rewrite <- IH. apply (step_writes observation_space); reflexivity.
  - exact IH.
Qed.

Lemma disconnected_fails s : observation_fails Scene.disconnected s.
Proof.
  unfold observation_fails.
  destruct (CombatArena.vehicle (arena s)); [left; reflexivity|exact I].
Qed.

(** C9.  On any controller one can come to hold with the default
    observation configuration, when the construction of the observation
    fails (there is no vehicle, or one of the engine queries raises),
    [_get_observation] raises nothing: it returns a vector of 160 zeros
    and leaves the controller as it was. *)
Theorem get_observation_degrades seeded ph now s :
  reachable seeded default_observation_config s ->
  observation_fails ph s ->
  _get_observation ph now s = (s, Ok (np_zeros 160))
  /\ length (np_zeros 160) = 160%nat.
Proof.
  intros Hs Hfails. split.
  - rewrite (get_observation_fails ph now s Hfails).
    now rewrite (reachable_observation_space _ _ _ Hs).
  - apply repeat_length.
Qed.

(** C9 at work: the controller as constructed, no vehicle spawned yet,
    and an engine that has lost its connection. *)
Lemma get_observation_degrades_witness :
  _get_observation Scene.disconnected 0 Scene.constructed
  = (Scene.constructed, Ok (np_zeros 160)).
Proof.
  apply (get_observation_degrades (Scene.constant_generator 0.25)).
  - apply reachable_init.
  - exact I.
Defined.

(** The other way to fail: the vehicle is there and the engine is gone. *)
Example get_observation_after_disconnect :
  _get_observation Scene.disconnected 0 Scene.after_one_episode
  = (Scene.after_one_episode,
     Ok (np_zeros (observation_space Scene.after_one_episode))).
Proof. apply get_observation_fails, disconnected_fails. Qed.

End Degrade.

(** ** Reset and the observation history *)

Section Idempotence.

Import AdvancedLaserVehicleEnv.

(** Four frames are kept by default: the first observation ever fills
    the history with its own frame, every later one drops the oldest. *)
Lemma pushed_fresh s frame :
  _observation_history s = None ->
  history_length (observation_config s) = 4%nat ->
  pushed s frame = [frame; frame; frame; frame].
Proof.
  intros Hh Hn. unfold pushed, history_before. now rewrite Hh, Hn.
Qed.

Lemma pushed_full s a b c d frame :
  _observation_history s = Some [a; b; c; d] ->
  history_length (observation_config s) = 4%nat ->
  pushed s frame = [b; c; d; frame].
Proof.
  intros Hh Hn. unfold pushed, history_before. now rewrite Hh, Hn.
Qed.

(** Entry 56 of an observation is the x coordinate of its second
    frame. *)
Lemma second_frame_position_x a b rest :
  length a = frame_length -> length b = frame_length ->
  nth 56 (concat (a :: b :: rest)) 0 = position_x b.
Proof.
  intros Ha Hb. cbn [concat].
  rewrite app_nth2 by (rewrite Ha; unfold frame_length; lia).
  rewrite app_nth1 by (rewrite Ha, Hb; unfold frame_length; lia).
  rewrite Ha. reflexivity.
Qed.

(** The history the one-step episode leaves behind: three copies of the
    frame of its reset, and the frame of its step. *)
Lemma after_one_episode_history :
  exists first second,
    _observation_history Scene.after_one_episode
    = Some [first; first; first; second]
    /\ observation_config Scene.after_one_episode = default_observation_config
    /\ length first = frame_length /\ position_x first = 1.5
    /\ length second = frame_length /\ position_x second = 1.4.
Proof.
  unfold Scene.after_one_episode. cbv zeta.
  edestruct (reset_run (Scene.constant_generator 0.25) (Some 7%Z)
               (Scene.quiet_reset (vec3 1.5 1.5 0.1)) Scene.constructed)
    as (s1 & first & E1 & Hh1 & Hc1 & Hv1 & Hl1 & Hx1);
    [reflexivity|reflexivity|reflexivity|reflexivity|].
  rewrite E1. cbn [fst].
  rewrite (pushed_fresh Scene.constructed first eq_refl eq_refl) in Hh1.
  destruct (CombatArena.vehicle (arena s1)) as [v|] eqn:Ev; [|contradiction].
  edestruct (step_run 1 1 (Scene.quiet_step (vec3 1.4 1.5 0.1) 0) s1 v)
    as (s2 & out & second & E2 & _ & Hh2 & Hc2 & _ & Hl2 & Hx2);
    [exact Ev|reflexivity|reflexivity|reflexivity|reflexivity|reflexivity
    |reflexivity|reflexivity|].
  rewrite E2. cbn [fst].
  rewrite (pushed_full s1 _ _ _ _ second Hh1) in Hh2
    by (rewrite Hc1; reflexivity).
  exists first, second.
  split; [exact Hh2|]. split; [now rewrite Hc2, Hc1|].
  split; [exact Hl1|]. split; [exact Hx1|]. split; [exact Hl2|exact Hx2].
Qed.

(** C7 fails on a controller that has been used.  After one episode of
    one step (vehicle at x = 1.5, then at x = 1.4), [reset(seed=7)] is
    called twice in a row, the engine answering the same both times.
    Both calls return; entry 56 of the first observation (the x coordinate
    in the second frame) is 1.5, the same entry of the second observation
    is 1.4: the frames of the previous episode are still in the history
    and move on by one place with every call. *)
Theorem reset_twice_after_episode :
  exists sA obsA sB obsB,
    reset (Scene.constant_generator 0.25) (Some 7%Z)
      (Scene.quiet_reset (vec3 1.5 1.5 0.1)) Scene.after_one_episode
    = (sA, Ok obsA)
    /\ reset (Scene.constant_generator 0.25) (Some 7%Z)
         (Scene.quiet_reset (vec3 1.5 1.5 0.1)) sA
       = (sB, Ok obsB)
    /\ nth 56 obsA 0 = 1.5
    /\ nth 56 obsB 0 = 1.4
    /\ obsA <> obsB.
Proof.
  destruct after_one_episode_history
    as (first & second & Hh & Hc & Hl1 & Hx1 & Hl2 & Hx2).
  edestruct (reset_run (Scene.constant_generator 0.25) (Some 7%Z)
               (Scene.quiet_reset (vec3 1.5 1.5 0.1)) Scene.after_one_episode)
    as (sA & frameA & EA & HhA & HcA & _ & HlA & _);
    [reflexivity|reflexivity|reflexivity|reflexivity|].
  rewrite (pushed_full _ _ _ _ _ frameA Hh) in EA, HhA
    by (rewrite Hc; reflexivity).
  edestruct (reset_run (Scene.constant_generator 0.25) (Some 7%Z)
               (Scene.quiet_reset (vec3 1.5 1.5 0.1)) sA)
    as (sB & frameB & EB & _ & _ & _ & _ & _);
    [reflexivity|reflexivity|reflexivity|reflexivity|].
  rewrite (pushed_full _ _ _ _ _ frameB HhA) in EB
    by (rewrite HcA, Hc; reflexivity).
  assert (HA : nth 56 (concat [first; first; second; frameA]) 0 = 1.5)
    by (rewrite second_frame_position_x; assumption).
  assert (HB : nth 56 (concat [first; second; frameA; frameB]) 0 = 1.4)
    by (rewrite second_frame_position_x; assumption).
  eexists _, _, _, _.
  split; [exact EA|]. split; [exact EB|]. split; [exact HA|]. split; [exact HB|].
  intros Heq. rewrite Heq, HB in HA. lra.
Qed.

End Idempotence.

(** ** Reset on a controller that has made no observation *)

Section RespawnReads.

Import AdvancedLaserVehicleEnv.


(** The generator, one sample further. *)
Lemma np_random_uniform_run low high s :
  np_random_uniform low high s
  = (set_np_random (fun n => np_random s (S n)) s,
     Ok (low + (high - low) * np_random s 0%nat)).
Proof. reflexivity. Qed.

Lemma get_random_start_position_run s :
  _get_random_start_position s
  = (set_np_random (fun n => np_random s (S n)) s,
     Ok (start_corner (np_random s 0%nat) (CombatArena.arena_half_size (arena s)))).
Proof.
  unfold _get_random_start_position, bind, np_random_rand, get, ret, start_corner.
  cbn [arena set_np_random attributes].
  destruct (Rltb 0.5 (np_random s 0%nat)); reflexivity.
Qed.

(** The mine loop returns, and appends what it draws. *)
Lemma draw_mines_run n s :
  exists s', draw_mines n s = (s', Ok tt)
             /\ mine_positions s' = mine_positions s ++ drawn (np_random s) n.
Proof.
  revert s. induction n as [|n IH]; intros s; cbn [draw_mines drawn].
  - exists s. split; [reflexivity|]. now rewrite app_nil_r.
  - unfold bind at 1. rewrite np_random_uniform_run. cbv beta iota.
    unfold bind at 1. rewrite np_random_uniform_run. cbv beta iota.
    rewrite bind_modify. cbv beta.
    match goal with |- exists s', draw_mines n ?x = _ /\ _ => destruct (IH x) as (s' & E & Hm) end.
    exists s'. split; [exact E|]. rewrite Hm.
    transitivity
      ((mine_positions s
        ++ [vec3 (-2.0 + (2.0 - -2.0) * np_random s 0%nat)
              (-2.0 + (2.0 - -2.0) * np_random s 1%nat) 0.05])
       ++ drawn (fun k => np_random s (S (S k))) n);
      [reflexivity|].
    now rewrite <- app_assoc.
Qed.

(** A rebuilt field has no vehicle and the size it had. *)
Lemma reset_unmanned a : CombatArena.vehicle (CombatArena.reset a) = None.
Proof.
  unfold CombatArena.reset. cbv zeta.
  unfold CombatArena._create_mines, CombatArena._create_boundaries,
    CombatArena._create_ground, CombatArena.default_mine_positions.
  cbn [CombatArena.mine_positions CombatArena.next_body CombatArena.debug
       CombatArena.create_mine_bodies].
  destruct (CombatArena.debug a); reflexivity.
Qed.

Lemma reset_half a :
  CombatArena.arena_half_size (CombatArena.reset a) = CombatArena.arena_half_size a.
Proof.
  unfold CombatArena.reset. cbv zeta.
  unfold CombatArena._create_mines, CombatArena._create_boundaries,
    CombatArena._create_ground, CombatArena.default_mine_positions.
  cbn [CombatArena.mine_positions CombatArena.next_body CombatArena.debug
       CombatArena.create_mine_bodies].
  destruct (CombatArena.debug a); reflexivity.
Qed.

Lemma spawn_vehicle_run mass size s :
  spawn_vehicle mass size s
  = (set_arena (fst (CombatArena.spawn_vehicle mass size (arena s))) s,
     Ok (CombatArena.next_body (arena s))).
Proof. reflexivity. Qed.

Lemma spawn_keeps_half mass size a :
  CombatArena.arena_half_size (fst (CombatArena.spawn_vehicle mass size a))
  = CombatArena.arena_half_size a.
Proof. reflexivity. Qed.

(** Single assignments, read back. *)
Lemma difficulty_set_arena x s : difficulty (set_arena x s) = difficulty s.
Proof. reflexivity. Qed.

Lemma arena_set_mine_positions x s : arena (set_mine_positions x s) = arena s.
Proof. reflexivity. Qed.

Lemma arena_set_arena x s : arena (set_arena x s) = x.
Proof. reflexivity. Qed.

Lemma opponent_position_set_mine_positions x s :
  opponent_position (set_mine_positions x s) = opponent_position s.
Proof. reflexivity. Qed.

Lemma opponent_position_set_arena x s :
  opponent_position (set_arena x s) = opponent_position s.
Proof. reflexivity. Qed.

Lemma mine_positions_set_mine_positions x s :
  mine_positions (set_mine_positions x s) = x.
Proof. reflexivity. Qed.

Lemma np_random_set_mine_positions x s :
  np_random (set_mine_positions x s) = np_random s.
Proof. reflexivity. Qed.

Lemma np_random_set_arena x s : np_random (set_arena x s) = np_random s.
Proof. reflexivity. Qed.

Lemma vehicle_set_vehicle v a :
  CombatArena.vehicle (CombatArena.set_vehicle v a) = v.
Proof. reflexivity. Qed.

Lemma half_set_vehicle v a :
  CombatArena.arena_half_size (CombatArena.set_vehicle v a)
  = CombatArena.arena_half_size a.
Proof. reflexivity. Qed.

(** [respawn] on an engine that rebuilds the scene: a fresh primary
    vehicle, the opponent in the corner opposite to the one drawn, and
    the mines drawn from the fourth sample on. *)
Lemma respawn_reads i s :
  rebuild i = Ok tt ->
  exists s' v,
    respawn i s = (s', Ok tt)
    /\ CombatArena.vehicle (arena s') = Some v
    /\ LaserVehicle.laser_max_distance v = 5.0
    /\ CombatArena.arena_half_size (arena s') = CombatArena.arena_half_size (arena s)
    /\ opponent_position s'
       = Some (opponent_corner (np_random s 0%nat)
                 (CombatArena.arena_half_size (arena s)))
    /\ mine_positions s'
       = drawn (fun k => np_random s (S (S (S k))))
           (Z.to_nat (py_int (difficulty s * 8))).
Proof.
  intros Hrebuild. unfold respawn.
  unfold bind at 1; unfold lift at 1. rewrite Hrebuild.
  rewrite bind_modify. cbv beta.
  (* the field is rebuilt *)
  set (s0 := set_arena _ s).
  assert (R0 : np_random s0 = np_random s) by reflexivity.
  assert (H0 : CombatArena.arena_half_size (arena s0)
               = CombatArena.arena_half_size (arena s)) by apply reset_half.
  assert (V0 : CombatArena.vehicle (arena s0) = None) by apply reset_unmanned.
  assert (D0 : difficulty s0 = difficulty s) by reflexivity.
  clearbody s0.
  (* the start corner and the yaw are drawn *)
  unfold bind at 1. rewrite get_random_start_position_run. cbv beta iota.
  rewrite R0, H0.
  unfold bind at 1. rewrite np_random_uniform_run. cbv beta iota.
  set (s2 := set_np_random _ (set_np_random _ s0)).
  assert (R2 : np_random s2 = fun n => np_random s (S (S n)))
    by reflexivity.
  assert (A2 : arena s2 = arena s0) by reflexivity.
  assert (D2 : difficulty s2 = difficulty s) by exact D0.
  clearbody s2. clear R0.
  (* the primary vehicle is spawned *)
  unfold bind at 1. rewrite spawn_vehicle_run. cbv beta iota.
  set (s3 := set_arena _ s2).
  assert (R3 : np_random s3 = fun n => np_random s (S (S n))) by exact R2.
  assert (H3 : CombatArena.arena_half_size (arena s3)
               = CombatArena.arena_half_size (arena s)).
  { subst s3. cbn [arena set_arena attributes]. rewrite spawn_keeps_half, A2.
    exact H0. }
  assert (V3 : exists v, CombatArena.vehicle (arena s3) = Some v
                         /\ LaserVehicle.laser_max_distance v = 5.0).
  { subst s3. cbn [arena set_arena attributes].
    unfold CombatArena.spawn_vehicle. cbn [fst CombatArena.vehicle].
    rewrite A2, V0. eexists. split; reflexivity. }
  assert (D3 : difficulty s3 = difficulty s) by exact D2.
  clearbody s3. clear s0 H0 V0 D0 s2 R2 A2 D2.
  (* the opponent's corner and yaw *)
  unfold bind at 1; unfold get at 1. cbv beta iota zeta.
  rewrite H3.
  change (if Rltb (at0 (start_corner (np_random s 0%nat)
                          (CombatArena.arena_half_size (arena s)))) 0
          then vec3 (CombatArena.arena_half_size (arena s) - 0.5)
                 (CombatArena.arena_half_size (arena s) - 0.5) 0.1
          else vec3 (- CombatArena.arena_half_size (arena s) + 0.5)
                 (- CombatArena.arena_half_size (arena s) + 0.5) 0.1)
    with (opponent_corner (np_random s 0%nat)
            (CombatArena.arena_half_size (arena s))).
  unfold bind at 1. rewrite np_random_uniform_run. cbv beta iota.
  rewrite bind_modify. cbv beta.
  unfold bind at 1. rewrite spawn_vehicle_run. cbv beta iota.
  set (opponent := CombatArena.next_body _). clearbody opponent.
  rewrite bind_modify. cbv beta.
  set (s7 := set_opponent_id _ _).
  assert (R7 : np_random s7 = fun n => np_random s (S (S (S n))))
    by (subst s7; cbn [np_random set_opponent_id set_arena set_opponent_position
                       set_np_random attributes]; now rewrite R3).
  assert (H7 : CombatArena.arena_half_size (arena s7)
               = CombatArena.arena_half_size (arena s)).
  { subst s7. cbn [arena set_opponent_id set_arena set_opponent_position
                   set_np_random attributes].
    rewrite spawn_keeps_half. exact H3. }
  assert (V7 : exists v, CombatArena.vehicle (arena s7) = Some v
                         /\ LaserVehicle.laser_max_distance v = 5.0).
  { destruct V3 as (v & Hv & Hrange). exists v. split; [|exact Hrange].
    subst s7. cbn [arena set_opponent_id set_arena set_opponent_position
                   set_np_random attributes].
    unfold CombatArena.spawn_vehicle. cbn [fst CombatArena.vehicle].
    now rewrite Hv. }
  assert (O7 : opponent_position s7
               = Some (opponent_corner (np_random s 0%nat)
                         (CombatArena.arena_half_size (arena s))))
    by reflexivity.
  assert (D7 : difficulty s7 = difficulty s) by exact D3.
  clearbody s7. clear s3 R3 H3 V3 D3.
  (* the two vehicles are told of each other; the mines are drawn *)
  rewrite bind_modify. cbv beta.
  destruct V7 as (v & Hv & Hrange). rewrite Hv.
  unfold bind at 1; unfold get at 1. cbv beta iota zeta.
  rewrite bind_modify. cbv beta.
  rewrite difficulty_set_arena, D7.
  match goal with
  | |- exists s' v, draw_mines ?n ?x = _ /\ _ =>
      destruct (draw_mines_run n x) as (s' & E & Hmines);
      pose proof (writes_eq arena _ _ _ _
                    (draw_mines_writes arena ltac:(reflexivity)
                       ltac:(reflexivity) n) E) as Harena;
      pose proof (writes_eq opponent_position _ _ _ _
                    (draw_mines_writes opponent_position ltac:(reflexivity)
                       ltac:(reflexivity) n) E) as Hopponent
  end.
  rewrite arena_set_mine_positions, arena_set_arena in Harena.
  rewrite opponent_position_set_mine_positions, opponent_position_set_arena, O7
    in Hopponent.
  rewrite mine_positions_set_mine_positions, np_random_set_mine_positions,
    np_random_set_arena, R7 in Hmines.
  exists s', (LaserVehicle.set_opponent opponent v).
  split; [exact E|]. rewrite Harena.
  split; [apply vehicle_set_vehicle|]. split; [exact Hrange|].
  split; [rewrite half_set_vehicle; exact H7|].
  split; [exact Hopponent|exact Hmines].
Qed.

End RespawnReads.

Section FreshReset.

Import AdvancedLaserVehicleEnv.


Variable seeded : Z -> nat -> R.

(** A full deque of copies of [x] stays what it is when [x] is appended. *)
Lemma deque_append_repeat {A} (n : nat) (x : A) :
  deque_append n (repeat x n) x = repeat x n.
Proof.
  unfold deque_append. cbv zeta.
  rewrite <- repeat_cons. cbn [length]. rewrite repeat_length.
  replace (S n - n)%nat with 1%nat by lia. reflexivity.
Qed.

Lemma current_observation_agree a b lasers position orientation velocity angular now :
  frame_inputs a = frame_inputs b ->
  current_observation a lasers position orientation velocity angular now
  = current_observation b lasers position orientation velocity angular now.
Proof.
  unfold frame_inputs. intros [= Ho Hb Hm Hl Hc].
  unfold current_observation, opponent_info, boundary_info, mine_info, laser_info.
  now rewrite Ho, Hb, Hm, Hl, Hc.
Qed.

Lemma get_laser_distances_agree va vb ph :
  LaserVehicle.laser_max_distance va = LaserVehicle.laser_max_distance vb ->
  LaserVehicle.get_laser_distances va ph = LaserVehicle.get_laser_distances vb ph.
Proof. unfold LaserVehicle.get_laser_distances. now intros ->. Qed.

(** The first observation ever made, and the next one made of the same
    scene: the same vector. *)
Lemma get_observation_first_then_next ph now a b va vb :
  CombatArena.vehicle (arena a) = Some va ->
  CombatArena.vehicle (arena b) = Some vb ->
  LaserVehicle.laser_max_distance va = LaserVehicle.laser_max_distance vb ->
  frame_inputs a = frame_inputs b ->
  observation_config a = observation_config b ->
  observation_space a = observation_space b ->
  _observation_history a = None ->
  _observation_history b = _observation_history (fst (_get_observation ph now a)) ->
  snd (_get_observation ph now b) = snd (_get_observation ph now a).
Proof.
  intros Ha Hb Hrange Hin Hcfg Hspace Hfresh.
  unfold _get_observation, try_except, bind, lift, get, ret, modify, history_of.
  rewrite Ha, Hb, (get_laser_distances_agree va vb ph Hrange).
  unfold LaserVehicle.get_position_and_orientation, LaserVehicle.get_velocity,
    LaserVehicle.get_angular_velocity.
  destruct (LaserVehicle.get_laser_distances vb ph) as [lasers|];
    [|cbn; now rewrite Hspace].
  destruct (getBasePositionAndOrientation ph) as [[position orientation]|];
    [|cbn; now rewrite Hspace].
  destruct (getBaseVelocity ph) as [[linear angular]|];
    [|cbn; now rewrite Hspace].
  rewrite Hfresh. cbn -[deque_append].
  rewrite (current_observation_agree a b _ _ _ _ _ _ Hin), Hcfg.
  rewrite deque_append_repeat.
  intros Hb'. rewrite Hb'. cbn -[deque_append]. rewrite Hb'.
  now rewrite deque_append_repeat.
Qed.

(** [reset(seed)] on an engine that rebuilds the scene, up to its first
    observation. *)
Lemma reset_reads seed i s :
  rebuild i = Ok tt ->
  exists s1 v,
    CombatArena.vehicle (arena s1) = Some v
    /\ LaserVehicle.laser_max_distance v = 5.0
    /\ opponent_position s1
       = Some (opponent_corner (seeded seed 0%nat)
                 (CombatArena.arena_half_size (arena s)))
    /\ mine_positions s1
       = drawn (fun k => seeded seed (S (S (S k))))
           (Z.to_nat (py_int (difficulty s * 8)))
    /\ CombatArena.arena_half_size (arena s1)
       = CombatArena.arena_half_size (arena s)
    /\ kept s1 = kept s
    /\ _observation_history s1 = _observation_history s
    /\ reset seeded (Some seed) i s
       = (set_previous_action None
            (fst (_get_observation (spawned i) (t_first_observation i) s1)),
          snd (_get_observation (spawned i) (t_first_observation i) s1)).
Proof.
  intros Hrebuild. unfold reset.
  do 8 (rewrite bind_modify; cbv beta).
  set (s0 := set_reward_history _ _).
  assert (R0 : np_random s0 = seeded seed) by reflexivity.
  assert (A0 : arena s0 = arena s) by reflexivity.
  assert (D0 : difficulty s0 = difficulty s) by reflexivity.
  assert (K0 : kept s0 = kept s) by reflexivity.
  assert (Hh0 : _observation_history s0 = _observation_history s) by reflexivity.
  clearbody s0.
  destruct (respawn_reads i s0 Hrebuild)
    as (s1 & v & E1 & Hv & Hrange & Hhalf & Hopp & Hmines).
  pose proof (writes_eq kept _ _ _ _
                (respawn_writes kept ltac:(reflexivity) ltac:(reflexivity)
                   ltac:(reflexivity) ltac:(reflexivity) ltac:(reflexivity) i) E1)
    as K1.
  pose proof (writes_eq _observation_history _ _ _ _
                (respawn_writes _observation_history ltac:(reflexivity)
                   ltac:(reflexivity) ltac:(reflexivity) ltac:(reflexivity)
                   ltac:(reflexivity) i) E1)
    as Hh1.
  rewrite R0, A0, D0 in *.
  exists s1, v.
  split; [exact Hv|]. split; [exact Hrange|]. split; [exact Hopp|].
  split; [exact Hmines|]. split; [exact Hhalf|].
  split; [now rewrite K1|]. split; [now rewrite Hh1|].
  unfold bind at 1. unfold _reset_environment, try_except.
  unfold bind at 1. rewrite E1.
  destruct (get_observation_returns (spawned i) (t_first_observation i) s1)
    as (s2 & observation & E2).
  rewrite E2. reflexivity.
Qed.

(** When the engine fails to rebuild the scene, [reset] answers with the
    zero vector. *)
Lemma reset_rebuild_fails seed i s e :
  rebuild i = Raised e ->
  snd (reset seeded seed i s) = Ok (np_zeros (observation_space s)).
Proof.
  intros Hrebuild. unfold reset.
  destruct seed;
    repeat (first [rewrite bind_modify | rewrite bind_ret]; cbv beta);
    unfold bind at 1; unfold _reset_environment, try_except;
    unfold bind at 1; unfold respawn;
    unfold bind at 1; unfold lift at 1; rewrite Hrebuild; reflexivity.
Qed.

(** The end of [reset]: the observation and the assignment of
    [previous_action]. *)
Lemma after_observation ph now (s : t) :
  kept (set_previous_action None (fst (_get_observation ph now s))) = kept s
  /\ CombatArena.arena_half_size
       (arena (set_previous_action None (fst (_get_observation ph now s))))
     = CombatArena.arena_half_size (arena s)
  /\ _observation_history
       (set_previous_action None (fst (_get_observation ph now s)))
     = _observation_history (fst (_get_observation ph now s)).
Proof.
  split; [|split].
  - apply (get_observation_writes kept ph now); reflexivity.
  - apply (get_observation_writes
             (fun s => CombatArena.arena_half_size (arena s)) ph now); reflexivity.
  - reflexivity.
Qed.

(** X1.  On a controller that has not made an observation yet (its
    history does not exist), [reset(seed=S)] called twice in a row, the
    engine answering the same both times, returns the same observation
    from both calls: the vector of the first frame replicated, or the
    zero vector when the engine fails. *)
Theorem reset_twice_on_fresh_controller seed i s :
  _observation_history s = None ->
  snd (reset seeded (Some seed) i (fst (reset seeded (Some seed) i s)))
  = snd (reset seeded (Some seed) i s).
Proof.
  intros Hfresh. destruct (rebuild i) as [[]|e] eqn:Hrebuild.
  - destruct (reset_reads seed i s Hrebuild)
      as (a & va & Hva & Hra & Hoa & Hma & Hha & Ka & Hhista & Ea).
    rewrite Ea. cbn [fst snd].
    destruct (after_observation (spawned i) (t_first_observation i) a)
      as (Kmid & Hhmid & Hhistmid).
    destruct (reset_reads seed i
                (set_previous_action None
                   (fst (_get_observation (spawned i) (t_first_observation i) a)))
                Hrebuild)
      as (b & vb & Hvb & Hrb & Hob & Hmb & Hhb & Kb & Hhistb & Eb).
    rewrite Eb. cbn [snd].
    rewrite Kmid in Kb. rewrite Hhmid, Hha in Hob, Hhb.
    rewrite Hhistmid in Hhistb.
    assert (Hd : difficulty (set_previous_action None
                   (fst (_get_observation (spawned i) (t_first_observation i) a)))
                 = difficulty s).
    { unfold kept in Kmid, Ka. congruence. }
    rewrite Hd in Hmb.
    unfold kept in Ka, Kb. injection Kb as Hbc Hlh Hcs Hcfg Hspace _.
    apply (get_observation_first_then_next _ _ a b va vb); try assumption.
    + now rewrite Hra, Hrb.
    + unfold frame_inputs. now rewrite Hoa, Hob, Hma, Hmb, Hbc, Hlh, Hcs.
    + now symmetry.
    + now symmetry.
    + now rewrite Hhista.
  - rewrite !(reset_rebuild_fails _ _ _ e Hrebuild). f_equal. f_equal.
    apply (reset_writes observation_space); reflexivity.
Qed.

End FreshReset.

(** ** What raises and what does not *)

Section Robustness.

Import AdvancedLaserVehicleEnv.

(** X1 at work: the controller as constructed. *)
Lemma reset_twice_on_fresh_controller_witness :
  _observation_history Scene.constructed = None
  /\ snd (reset (Scene.constant_generator 0.25) (Some 7%Z)
            (Scene.quiet_reset (vec3 1.5 1.5 0.1))
            (fst (reset (Scene.constant_generator 0.25) (Some 7%Z)
                    (Scene.quiet_reset (vec3 1.5 1.5 0.1)) Scene.constructed)))
     = snd (reset (Scene.constant_generator 0.25) (Some 7%Z)
              (Scene.quiet_reset (vec3 1.5 1.5 0.1)) Scene.constructed).
Proof.
  split; [reflexivity|].
  apply reset_twice_on_fresh_controller. reflexivity.
Defined.

(** X3.  [_get_observation] raises nothing, whatever the engine answers
    and whatever state the controller is in. *)
Theorem get_observation_never_raises ph now : returns (_get_observation ph now).
Proof.
  intros s. destruct (get_observation_returns ph now s) as (s' & o & ->).
  reflexivity.
Qed.

(** X4.  [_compute_reward] raises nothing: any exception on the way is
    answered by its handler. *)
Theorem compute_reward_never_raises ph now action info :
  returns (_compute_reward ph now action info).
Proof.
  intros s.
  destruct (compute_reward_returns ph now action info s)
    as (s' & total & comps & -> & _).
  reflexivity.
Qed.

(** X5.  [step] itself has no handler: on a controller without a
    vehicle it counts the step and raises [AttributeError] to its
    caller. *)
Theorem step_without_vehicle_raises action i s :
  CombatArena.vehicle (arena s) = None ->
  snd (step action i s) = Raised AttributeError
  /\ steps (fst (step action i s)) = (steps s + 1)%Z.
Proof.
  intros Hv.
  assert (E : step action i s
              = (set_current_action (Some action) (set_steps (steps s + 1) s),
                 Raised AttributeError)).
  { unfold step. do 2 (rewrite bind_modify; cbv beta).
    unfold bind at 1. unfold the_vehicle.
    cbn [arena set_current_action set_steps attributes].
    now rewrite Hv. }
  rewrite E. split; reflexivity.
Qed.

(** X5 at work: a step on the controller as constructed. *)
Lemma step_without_vehicle_witness :
  CombatArena.vehicle (arena Scene.constructed) = None
  /\ snd (step [1; 1] (Scene.quiet_step (vec3 0 0 0.1) 0) Scene.constructed)
     = Raised AttributeError.
Proof.
  split; [reflexivity|].
  apply (step_without_vehicle_raises [1; 1]
           (Scene.quiet_step (vec3 0 0 0.1) 0) Scene.constructed).
  reflexivity.
Defined.



End Robustness.

(** ** The curriculum manager, further *)

Section CurriculumMore.

Import CurriculumManager.

Lemma deque_append_length {A} (n : nat) (d : list A) (x : A) :
  length (deque_append n d x) = Nat.min (S (length d)) n.
Proof.
  unfold deque_append. cbv zeta.
  rewrite length_skipn, length_app. cbn [length]. lia.
Qed.

Lemma deque_append_nonempty {A} (n : nat) (d : list A) (x : A) :
  (1 <= n)%nat -> deque_append n d x <> [].
Proof.
  intros Hn H. apply (f_equal (@length A)) in H.
  rewrite deque_append_length in H. cbn [length] in H. lia.
Qed.

Lemma last_n_nonempty {A} (n : nat) (l : list A) : l <> [] -> last_n n l <> [].
Proof.
  intros Hl H. destruct n as [|n]; [exact (Hl H)|].
  cbn [last_n] in H. apply (f_equal (@length A)) in H.
  rewrite length_skipn in H. cbn [length] in H.
  assert (length l <> 0)%nat by (destruct l; [congruence|discriminate]).
  lia.
Qed.

Lemma win_rate_returns (l : list Z) : l <> [] -> exists rate, win_rate l = Ok rate.
Proof. destruct l; [congruence|]. intros _. eexists. reflexivity. Qed.

Lemma stage_known (z : Z) :
  (1 <= z <= 6)%Z -> exists params, _init_stage_params z = Some params.
Proof.
  intros Hz.
  assert (z = 1 \/ z = 2 \/ z = 3 \/ z = 4 \/ z = 5 \/ z = 6)%Z
    as [->|[->|[->|[->|[->| ->]]]]] by lia;
    eexists; reflexivity.
Qed.

Lemma stage_unknown (z : Z) :
  ~ (1 <= z <= 6)%Z -> _init_stage_params z = None.
Proof.
  intros Hz. destruct z as [|p|p]; try reflexivity.
  destruct p as [[[p|p|]|[p|p|]|]|[[p|p|]|[p|p|]|]|];
    try reflexivity; exfalso; apply Hz; lia.
Qed.

Lemma stage_named (z : Z) : (1 <= z <= 6)%Z -> stage_name (z - 1) = Ok tt.
Proof.
  intros Hz. unfold stage_name.
  replace ((-6 <=? z - 1) && (z - 1 <? 6))%Z with true; [reflexivity|].
  symmetry. apply andb_true_intro. split; [apply Z.leb_le|apply Z.ltb_lt]; lia.
Qed.

Lemma setup_environment_returns (m : t) :
  (1 <= current_stage m <= 6)%Z ->
  exists params, setup_environment m = (m, Ok params).
Proof.
  intros Hz. unfold setup_environment.
  destruct (stage_known _ Hz) as (params & ->).
  rewrite (stage_named _ Hz). now exists params.
Qed.

Lemma promote_run (m : t) :
  (1 <= current_stage m)%Z -> (max_stage (config m) <= 6)%Z ->
  _promote m
  = (if (current_stage m <? max_stage (config m))%Z
     then {| config := config m; current_stage := current_stage m + 1;
             win_history := [] |}
     else m, Ok tt).
Proof.
  intros Hlo Hhi. unfold _promote.
  destruct (current_stage m <? max_stage (config m))%Z eqn:Hlt; [|reflexivity].
  apply Z.ltb_lt in Hlt.
  unfold bind, modify, get, lift, ret, set_history, set_stage.
  cbn [config current_stage win_history].
  rewrite stage_named by lia.
  match goal with
  | |- context [setup_environment ?x] =>
      destruct (setup_environment_returns x) as (params & ->); [cbn; lia|]
  end.
  reflexivity.
Qed.

Lemma demote_run (m : t) :
  (current_stage m <= 6)%Z ->
  _demote m
  = (if (1 <? current_stage m)%Z
     then {| config := config m; current_stage := current_stage m - 1;
             win_history := [] |}
     else m, Ok tt).
Proof.
  intros Hhi. unfold _demote.
  destruct (1 <? current_stage m)%Z eqn:Hlt; [|reflexivity].
  apply Z.ltb_lt in Hlt.
  unfold bind, modify, get, lift, ret, set_history, set_stage.
  cbn [config current_stage win_history].
  rewrite stage_named by lia.
  match goal with
  | |- context [setup_environment ?x] =>
      destruct (setup_environment_returns x) as (params & ->); [cbn; lia|]
  end.
  reflexivity.
Qed.

Lemma check_run (m : t) :
  win_history m <> [] ->
  _check_for_promotion_or_demotion m
  = if promotion_due (config m) (win_history m) then _promote m
    else if demotion_due (config m) (win_history m) then _demote m
    else (m, Ok tt).
Proof.
  intros Hh.
  unfold _check_for_promotion_or_demotion, check_demotion, promotion_due,
    demotion_due. cbv zeta.
  destruct (win_rate_returns _ (last_n_nonempty (promotion_window (config m)) _ Hh))
    as (prate & ->).
  destruct (win_rate_returns _ (last_n_nonempty (demotion_window (config m)) _ Hh))
    as (drate & ->).
  destruct (Nat.ltb_spec (length (win_history m))
              (Nat.min (promotion_window (config m)) (demotion_window (config m))))
    as [Hshort|Hlong].
  - destruct (Nat.leb_spec (promotion_window (config m)) (length (win_history m)));
      destruct (Nat.leb_spec (demotion_window (config m)) (length (win_history m)));
      try lia.
    reflexivity.
  - destruct (promotion_window (config m) <=? length (win_history m))%nat;
      cbn [andb]; [destruct (Qle_bool _ prate); [reflexivity|]|];
      destruct (demotion_window (config m) <=? length (win_history m))%nat;
      cbn [andb]; try reflexivity;
      destruct (Qle_bool drate _); reflexivity.
Qed.

Lemma demotion_due_nonempty cfg h : demotion_due cfg h = true -> h <> [].
Proof.
  unfold demotion_due. intros H. apply andb_prop in H as [Hlen Hrate].
  intros ->. destruct (demotion_window cfg); cbn in *; discriminate.
Qed.

(** X8.  Demotion.  When, with the new outcome appended, promotion is not
    due and the win rate over the last [demotion_window] outcomes is at
    most [demotion_threshold], [record_outcome] is [_demote] on the
    extended history: above stage 1 the stage goes down by one and the
    history is emptied; at stage 1 the stage stays and the history keeps
    the new outcome. *)
Theorem record_outcome_demotion (m : t) (win : bool) :
  let h := deque_append (maxlen m) (win_history m) (if win then 1 else 0)%Z in
  promotion_due (config m) h = false ->
  demotion_due (config m) h = true ->
  record_outcome win m = _demote (set_history h m)
  /\ (if (1 <? current_stage m)%Z
      then current_stage (fst (record_outcome win m)) = (current_stage m - 1)%Z
           /\ win_history (fst (record_outcome win m)) = []
      else current_stage (fst (record_outcome win m)) = current_stage m
           /\ win_history (fst (record_outcome win m)) = h).
Proof.
  intros h Hpro Hdem.
  assert (Hrec : record_outcome win m = _demote (set_history h m)).
  { unfold record_outcome, bind, modify. fold h.
    rewrite check_run by (apply (demotion_due_nonempty (config m)); exact Hdem).
    cbn [config win_history set_history]. now rewrite Hpro, Hdem. }
  split; [exact Hrec|]. rewrite Hrec.
  destruct (1 <? current_stage m)%Z eqn:Hlt.
  - rewrite demote_above_bottom by exact Hlt. cbn. split; reflexivity.
  - rewrite demote_at_bottom by exact Hlt. cbn. split; reflexivity.
Qed.

Lemma record_outcome_demotion_witness :
  let m := fst (record_outcomes (repeat false 4) (Scene.after_wins 10)) in
  let h := deque_append (maxlen m) (win_history m) 0%Z in
  promotion_due (config m) h = false
  /\ demotion_due (config m) h = true
  /\ current_stage m = 2%Z
  /\ (record_outcome false m = _demote (set_history h m)
      /\ (if (1 <? current_stage m)%Z
          then current_stage (fst (record_outcome false m)) = (current_stage m - 1)%Z
               /\ win_history (fst (record_outcome false m)) = []
          else current_stage (fst (record_outcome false m)) = current_stage m
               /\ win_history (fst (record_outcome false m)) = h)).
Proof.
  intros m h.
  assert (Hpro : promotion_due (config m) h = false) by (vm_compute; reflexivity).
  assert (Hdem : demotion_due (config m) h = true) by (vm_compute; reflexivity).
  split; [exact Hpro|]. split; [exact Hdem|].
  split; [vm_compute; reflexivity|].
  apply (record_outcome_demotion m false); assumption.
Defined.

Lemma record_outcome_step (m : t) (win : bool) :
  in_order m ->
  exists m',
    record_outcome win m = (m', Ok tt)
    /\ in_order m'
    /\ config m' = config m
    /\ ((current_stage m' = current_stage m
         /\ win_history m'
            = deque_append (maxlen m) (win_history m) (if win then 1 else 0)%Z)
        \/ ((current_stage m' = current_stage m + 1
             \/ current_stage m' = current_stage m - 1)%Z
            /\ win_history m' = [])).
Proof.
  intros (Hstage & Hmax & Hlen1 & Hlen).
  set (h := deque_append (maxlen m) (win_history m) (if win then 1 else 0)%Z).
  assert (Hh : h <> []) by (apply deque_append_nonempty; exact Hlen1).
  assert (Hhl : (length h <= maxlen m)%nat)
    by (unfold h; rewrite deque_append_length; lia).
  unfold record_outcome, bind, modify. fold h.
  rewrite check_run by exact Hh.
  cbn [config win_history set_history].
  destruct (promotion_due (config m) h).
  - rewrite promote_run by (cbn; lia). cbn [config current_stage set_history].
    destruct (Z.ltb_spec (current_stage m) (max_stage (config m))).
    + eexists. split; [reflexivity|]. split; [|split; [reflexivity|]].
      * unfold in_order, maxlen in *. cbn. repeat split; lia.
      * right. split; [left|]; reflexivity.
    + eexists. split; [reflexivity|]. split; [|split; [reflexivity|]].
      * unfold in_order, maxlen in *. cbn. repeat split; first [lia | exact Hhl].
      * left. split; reflexivity.
  - destruct (demotion_due (config m) h).
    + rewrite demote_run by (cbn; lia). cbn [config current_stage set_history].
      destruct (Z.ltb_spec 1 (current_stage m)).
      * eexists. split; [reflexivity|]. split; [|split; [reflexivity|]].
        -- unfold in_order, maxlen in *. cbn. repeat split; lia.
        -- right. split; [right|]; reflexivity.
      * eexists. split; [reflexivity|]. split; [|split; [reflexivity|]].
        -- unfold in_order, maxlen in *. cbn. repeat split; first [lia | exact Hhl].
        -- left. split; reflexivity.
    + eexists. split; [reflexivity|]. split; [|split; [reflexivity|]].
      * unfold in_order, maxlen in *. cbn. repeat split; first [lia | exact Hhl].
      * left. split; reflexivity.
Qed.

(** X9.  A manager in order stays in order, and none of its own
    look-ups and divisions raises (the engine calls of
    [setup_environment] are the engine's).  One recorded outcome either
    keeps the stage and appends to the history, or moves the stage by
    exactly one and empties the history; after any sequence of outcomes
    the stage is still between 1 and [max_stage], the history still fits
    its deque, and the configuration is untouched. *)
Theorem record_outcomes_in_order (m : t) :
  in_order m ->
  (forall win, exists m',
      record_outcome win m = (m', Ok tt)
      /\ ((current_stage m' = current_stage m
           /\ win_history m'
              = deque_append (maxlen m) (win_history m) (if win then 1 else 0)%Z)
          \/ ((current_stage m' = current_stage m + 1
               \/ current_stage m' = current_stage m - 1)%Z
              /\ win_history m' = [])))
  /\ (forall wins, exists m',
        record_outcomes wins m = (m', Ok tt)
        /\ in_order m'
        /\ config m' = config m).
Proof.
  intros Hm. split.
  - intros win.
    destruct (record_outcome_step m win Hm) as (m' & E & _ & _ & Hchange).
    exists m'. split; assumption.
  - intros wins. revert m Hm.
    induction wins as [|win wins IH]; intros m Hm; cbn [record_outcomes].
    + exists m. repeat split; try reflexivity; apply Hm.
    + destruct (record_outcome_step m win Hm) as (m1 & E & Hm1 & Hcfg & _).
      unfold bind. rewrite E.
      destruct (IH m1 Hm1) as (m' & E' & Hm' & Hcfg').
      exists m'. split; [exact E'|]. split; [exact Hm'|congruence].
Qed.

Lemma record_outcomes_in_order_witness :
  in_order (__init__ default_config)
  /\ exists m',
       record_outcomes [true; false; true] (__init__ default_config) = (m', Ok tt)
       /\ in_order m'
       /\ config m' = default_config.
Proof.
  assert (H : in_order (__init__ default_config))
    by (unfold in_order; cbn; lia).
  split; [exact H|].
  exact (proj2 (record_outcomes_in_order (__init__ default_config) H)
           [true; false; true]).
Defined.

(** X10.  With both windows set to zero the deque holds nothing, the
    length test passes on the empty history, and the first win rate
    divides by zero: [record_outcome] raises [ZeroDivisionError], leaving
    the stage as it was. *)
Theorem record_outcome_zero_windows (m : t) (win : bool) :
  promotion_window (config m) = O ->
  demotion_window (config m) = O ->
  snd (record_outcome win m) = Raised ZeroDivisionError
  /\ win_history (fst (record_outcome win m)) = []
  /\ current_stage (fst (record_outcome win m)) = current_stage m.
Proof.
  intros Hp Hd.
  assert (E : record_outcome win m = (set_history [] m, Raised ZeroDivisionError)).
  { unfold record_outcome, bind, modify, maxlen. rewrite Hp, Hd. cbn [Nat.max].
    assert (Hempty : deque_append 0 (win_history m) (if win then 1%Z else 0%Z) = []).
    { apply length_zero_iff_nil. rewrite deque_append_length. lia. }
    rewrite Hempty.
    unfold _check_for_promotion_or_demotion. cbv zeta.
    cbn [config win_history set_history length]. rewrite Hp, Hd. reflexivity. }
  rewrite E. repeat split.
Qed.

Lemma record_outcome_zero_windows_witness :
  snd (record_outcome true
         (__init__ {| promotion_threshold := 0.75; demotion_threshold := 0.40;
                      promotion_window := 0; demotion_window := 0;
                      initial_stage := 1; max_stage := 6 |}))
  = Raised ZeroDivisionError.
Proof.
  apply (record_outcome_zero_windows
           (__init__ {| promotion_threshold := 0.75; demotion_threshold := 0.40;
                        promotion_window := 0; demotion_window := 0;
                        initial_stage := 1; max_stage := 6 |}) true);
    reflexivity.
Defined.

Lemma setup_environment_config (m : t) :
  fst (setup_environment m) = m.
Proof.
  unfold setup_environment.
  destruct (_init_stage_params _); [|reflexivity].
  destruct (stage_name _); reflexivity.
Qed.

Lemma move_config (z : Z) (m : t) :
  config (fst ((modify (set_stage z) ;;
                modify (set_history []) ;;
                m' <- get ;;
                lift (stage_name (current_stage m' - 1)) ;;
                setup_environment ;;
                ret tt)%py m)) = config m.
Proof.
  unfold bind, modify, get, lift, ret.
  cbn [current_stage set_history set_stage].
  destruct (stage_name (z - 1)); [|reflexivity].
  pose proof (setup_environment_config (set_history [] (set_stage z m))) as E.
  destruct (setup_environment (set_history [] (set_stage z m))) as [m1 [v|e]];
    cbn [fst] in *; subst m1; reflexivity.
Qed.

Lemma promote_config (m : t) : config (fst (_promote m)) = config m.
Proof.
  unfold _promote. destruct (_ <? _)%Z; [apply move_config|reflexivity].
Qed.

Lemma demote_config (m : t) : config (fst (_demote m)) = config m.
Proof.
  unfold _demote. destruct (_ <? _)%Z; [apply move_config|reflexivity].
Qed.

Lemma check_demotion_config (m : t) : config (fst (check_demotion m)) = config m.
Proof.
  unfold check_demotion. cbv zeta.
  destruct (_ <=? _)%nat; [|reflexivity].
  destruct (win_rate _); [|reflexivity].
  destruct (Qle_bool _ _); [apply demote_config|reflexivity].
Qed.

Lemma check_config (m : t) :
  config (fst (_check_for_promotion_or_demotion m)) = config m.
Proof.
  unfold _check_for_promotion_or_demotion. cbv zeta.
  destruct (_ <? _)%nat; [reflexivity|].
  destruct (_ <=? _)%nat; [|apply check_demotion_config].
  destruct (win_rate _); [|reflexivity].
  destruct (Qle_bool _ _); [apply promote_config|apply check_demotion_config].
Qed.

Lemma record_outcome_config (win : bool) (m : t) :
  config (fst (record_outcome win m)) = config m.
Proof.
  unfold record_outcome, bind, modify. rewrite check_config. reflexivity.
Qed.

Lemma record_outcomes_config (wins : list bool) (m : t) :
  config (fst (record_outcomes wins m)) = config m.
Proof.
  revert m. induction wins as [|w ws IH]; intros m; [reflexivity|].
  cbn [record_outcomes]. unfold bind.
  pose proof (record_outcome_config w m) as E.
  destruct (record_outcome w m) as [m1 [v|e]]; cbn [fst] in E.
  - rewrite IH. exact E.
  - exact E.
Qed.

(** X11.  [reset] after any sequence of recorded outcomes, whether they
    raised or not, leaves the manager as [__init__] made it from the same
    configuration.  It returns when the initial stage is one of the six
    of the table, and raises [KeyError], after the stage and the history
    have been written, when it is not. *)
Theorem reset_after_any_run (wins : list bool) (m : t) :
  fst (reset (fst (record_outcomes wins m))) = __init__ (config m)
  /\ ((1 <= initial_stage (config m) <= 6)%Z ->
      snd (reset (fst (record_outcomes wins m))) = Ok tt)
  /\ (~ (1 <= initial_stage (config m) <= 6)%Z ->
      snd (reset (fst (record_outcomes wins m))) = Raised KeyError).
Proof.
  set (m' := fst (record_outcomes wins m)).
  assert (Hcfg : config m' = config m) by apply record_outcomes_config.
  clearbody m'.
  unfold reset, bind, get, modify, ret, setup_environment, set_history, set_stage,
    __init__.
  cbn [config current_stage win_history]. rewrite Hcfg.
  split; [|split].
  - destruct (_init_stage_params (initial_stage (config m))); [|reflexivity].
    destruct (stage_name _); reflexivity.
  - intros Hz. destruct (stage_known _ Hz) as (params & ->).
    now rewrite (stage_named _ Hz).
  - intros Hz. now rewrite (stage_unknown _ Hz).
Qed.

End CurriculumMore.

Section CurriculumResetWitness.

Import CurriculumManager.

Lemma reset_after_any_run_witness :
  fst (reset (Scene.after_wins 10)) = __init__ default_config
  /\ snd (reset (Scene.after_wins 10)) = Ok tt.
Proof.
  destruct (reset_after_any_run (repeat true 10) (__init__ default_config))
    as (Hstate & Hok & _).
  split; [exact Hstate|]. apply Hok. cbn. lia.
Defined.

End CurriculumResetWitness.

(** ** The episode controller, further *)

Section Ensures.

Context {St : Type} (Inv : St -> Prop).




Lemma ensures_weaken {A} (Q Q' : A -> Prop) (c : M St A) :
  (forall a, Q a -> Q' a) -> ensures Inv Q c -> ensures Inv Q' c.
Proof.
  intros HQ Hc s Hs. destruct (Hc s Hs) as [Hs' Ha]. split; [exact Hs'|].
  destruct (snd (c s)); [apply HQ, Ha|exact I].
Qed.





End Ensures.

Section Shape.

Import AdvancedLaserVehicleEnv.

Lemma Forall_skipn {A} (P : A -> Prop) (k : nat) (l : list A) :
  Forall P l -> Forall P (skipn k l).
Proof.
  revert l. induction k as [|k IH]; intros l Hl; [exact Hl|].
  destruct l as [|x l]; [exact Hl|]. cbn. apply IH. now inversion Hl.
Qed.










Lemma returns_try_except {St A} (c : M St A) (h : exn -> M St A) :
  (forall e, returns (h e)) -> returns (try_except c h).
Proof.
  intros Hh s. unfold try_except. destruct (c s) as [s' [a|e]]; [reflexivity|apply Hh].
Qed.




End Shape.

Section ShapeTheorem.

Import AdvancedLaserVehicleEnv.


End ShapeTheorem.

Section ShapeWitness.

Import AdvancedLaserVehicleEnv.


End ShapeWitness.

Section Counter.

Import AdvancedLaserVehicleEnv.

(** What [step] does once the counter is advanced leaves the counter and
    the step limit alone. *)
Lemma step_counter action i s :
  steps (fst (step action i s)) = (steps s + 1)%Z
  /\ max_steps (fst (step action i s)) = max_steps s.
Proof.
  split.
  - unfold step. rewrite bind_modify. cbv beta.
    match goal with
    | |- steps (fst (?rest ?s1)) = _ =>
        transitivity (steps s1); [|reflexivity];
        assert (W : keeps (unchanged steps) rest); [|apply W]
    end.
    repeat first
      [ apply the_vehicle_writes
      | apply check_boundary_crossed_writes; reflexivity
      | apply check_laser_hit_writes; reflexivity
      | apply get_observation_writes; reflexivity
      | apply compute_reward_writes; reflexivity
      | apply is_terminated_writes
      | apply is_truncated_writes
      | keeps_step (unchanged_refl steps) (unchanged_trans steps) ];
      try (unfold unchanged; reflexivity).
  - apply (step_writes max_steps); reflexivity.
Qed.

Lemma run_steps_counter calls s :
  steps (run_steps calls s) = (steps s + Z.of_nat (length calls))%Z
  /\ max_steps (run_steps calls s) = max_steps s.
Proof.
  revert s. induction calls as [|[action i] rest IH]; intros s; cbn [run_steps length].
  - split; [lia|reflexivity].
  - destruct (IH (fst (step action i s))) as [Hs Hm].
    destruct (step_counter action i s) as [Hs1 Hm1].
    rewrite Hs, Hm, Hs1, Hm1. split; [lia|reflexivity].
Qed.

(** What the [info] dictionary of a returning step holds: readings of
    the controller as the step leaves it. *)
Lemma step_info action i s s' out :
  step action i s = (s', Ok out) ->
  info_episode_reward (info out) = episode_reward s'
  /\ info_current_step (info out) = steps s'
  /\ info_reward_components (info out) = episode_metrics s'
  /\ info_difficulty (info out) = difficulty s'
  /\ info_laser_hit (info out) = laser_hit s'.
Proof.
  intros H. unfold step in H.
  do 2 (rewrite bind_modify in H; cbv beta in H).
  bind_inv H as s1 v Ev.
  bind_inv H as s1' command Ecommand.
  bind_inv H as s1'' u Etick.
  bind_inv H as s2 u' Ecross.
  bind_inv H as s3 hit Ehit.
  bind_inv H as s4 observation Eobs.
  bind_inv H as s5 paid Ereward.
  destruct paid as [reward comps].
  do 3 (rewrite bind_modify in H; cbv beta in H).
  bind_inv H as s6 terminated Eend.
  unfold _is_truncated, bind, get, ret in H. cbn in H.
  injection H as <- <-. cbn. repeat split.
Qed.

(** X13.  The step counter counts every call.  After any run of [step]
    calls the counter stands at its start value plus the number of calls,
    those that raised included; a call that returns reports this count as
    [current_step], and reports truncation exactly when the count has
    reached [max_steps].  The attributes [terminated] and [truncated] are
    not written by [step]. *)
Theorem step_counts_every_call (calls : list (list R * StepInput))
  (action : list R) (i : StepInput) (s : t) :
  steps (run_steps calls s) = (steps s + Z.of_nat (length calls))%Z
  /\ steps (fst (step action i (run_steps calls s)))
     = (steps s + Z.of_nat (length calls) + 1)%Z
  /\ (forall s' out,
        step action i (run_steps calls s) = (s', Ok out) ->
        info_current_step (info out) = (steps s + Z.of_nat (length calls) + 1)%Z
        /\ is_truncated out
           = (max_steps s <=? steps s + Z.of_nat (length calls) + 1)%Z)
  /\ terminated (fst (step action i (run_steps calls s)))
     = terminated (run_steps calls s)
  /\ truncated (fst (step action i (run_steps calls s)))
     = truncated (run_steps calls s).
Proof.
  destruct (run_steps_counter calls s) as [Hs Hm].
  destruct (step_counter action i (run_steps calls s)) as [Hs1 Hm1].
  split; [exact Hs|]. split; [now rewrite Hs1, Hs|]. split; [|split].
  - intros s' out E.
    assert (Es' : s' = fst (step action i (run_steps calls s))) by now rewrite E.
    destruct (step_inversion _ _ _ _ _ E)
      as (v & s2 & s3 & hit & s4 & s5 & _ & _ & _ & _ & _ & _ & _ & _ & _ & Htr).
    destruct (step_info _ _ _ _ _ E) as (_ & Hcur & _).
    split.
    + now rewrite Hcur, Es', Hs1, Hs.
    + rewrite Htr, Es', Hs1, Hm1, Hs, Hm. reflexivity.
  - apply (step_writes terminated); reflexivity.
  - apply (step_writes truncated); reflexivity.
Qed.

End Counter.

Section EpisodeReward.

Import AdvancedLaserVehicleEnv.

Variable seeded : Z -> nat -> R.

Lemma step_pays action i s s' out :
  step action i s = (s', Ok out) ->
  episode_reward s' = episode_reward s + reward out.
Proof.
  intros E.
  destruct (step_inversion _ _ _ _ _ E)
    as (v & s2 & s3 & hit & s4 & s5 & _ & _ & _ & E2 & E3 & E4 & E5 & Es' & _).
  subst s'.
  change (episode_reward s5 + reward out = episode_reward s + reward out).
  f_equal.
  rewrite (writes_eq episode_reward _ _ _ _
             (compute_reward_writes episode_reward _ _ _ _
                ltac:(reflexivity) ltac:(reflexivity) ltac:(reflexivity)) E5).
  rewrite (writes_eq episode_reward _ _ _ _
             (get_observation_writes episode_reward _ _ ltac:(reflexivity)) E4).
  rewrite (writes_eq episode_reward _ _ _ _
             (check_laser_hit_writes episode_reward _ _
                ltac:(reflexivity) ltac:(reflexivity)) E3).
  rewrite (writes_eq episode_reward _ _ _ _
             (check_boundary_crossed_writes episode_reward _ ltac:(reflexivity)) E2).
  reflexivity.
Qed.

Lemma reset_keeps_episode_reward seed i s :
  episode_reward (fst (reset seeded seed i s)) = episode_reward s.
Proof. apply (reset_writes episode_reward); reflexivity. Qed.

(** X14.  [episode_reward] runs across episodes.  [reset] leaves it as it
    was, and a returning [step] adds its reward to it: the first step
    after a reset reports, as [episode_reward], the total of everything
    paid before the reset plus its own reward. *)
Theorem episode_reward_runs_across_resets seed i action j s s' out :
  step action j (fst (reset seeded seed i s)) = (s', Ok out) ->
  episode_reward (fst (reset seeded seed i s)) = episode_reward s
  /\ episode_reward s' = episode_reward s + reward out
  /\ info_episode_reward (info out) = episode_reward s + reward out.
Proof.
  intros E.
  pose proof (reset_keeps_episode_reward seed i s) as Hreset.
  pose proof (step_pays _ _ _ _ _ E) as Hpay.
  destruct (step_info _ _ _ _ _ E) as (Hinfo & _).
  rewrite Hreset in Hpay.
  split; [exact Hreset|]. split; [exact Hpay|]. now rewrite Hinfo.
Qed.

End EpisodeReward.

Section EpisodeRewardWitness.

Import AdvancedLaserVehicleEnv.

Lemma episode_reward_runs_across_resets_witness :
  exists s' out,
    step [0; 0] (Scene.quiet_step (vec3 1.5 1.5 0.1) 0)
      (fst (reset (Scene.constant_generator 0.25) (Some 7%Z)
              (Scene.quiet_reset (vec3 1.5 1.5 0.1)) Scene.constructed))
    = (s', Ok out)
    /\ episode_reward s' = episode_reward Scene.constructed + reward out
    /\ info_episode_reward (info out)
       = episode_reward Scene.constructed + reward out.
Proof.
  destruct (reset_run (Scene.constant_generator 0.25) (Some 7%Z)
              (Scene.quiet_reset (vec3 1.5 1.5 0.1)) Scene.constructed
              _ _ _ _ _ eq_refl eq_refl eq_refl eq_refl)
    as (s1 & frame & E1 & _ & _ & Hv & _).
  destruct (CombatArena.vehicle (arena s1)) as [v|] eqn:Ev; [|now elim Hv].
  destruct (step_run 0 0 (Scene.quiet_step (vec3 1.5 1.5 0.1) 0) s1 v
              _ _ _ _ _ _ _ false _ Ev eq_refl eq_refl eq_refl eq_refl eq_refl
              eq_refl eq_refl)
    as (s' & out & frame' & E & _).
  exists s', out.
  assert (E' : step [0; 0] (Scene.quiet_step (vec3 1.5 1.5 0.1) 0)
                 (fst (reset (Scene.constant_generator 0.25) (Some 7%Z)
                         (Scene.quiet_reset (vec3 1.5 1.5 0.1)) Scene.constructed))
               = (s', Ok out)).
  { rewrite E1. exact E. }
  split; [exact E'|].
  exact (proj2 (episode_reward_runs_across_resets _ _ _ _ _ _ _ _ E')).
Defined.

End EpisodeRewardWitness.

Lemma preserved_refl {St} (Inv : St -> Prop) s : preserved Inv s s.
Proof. intros H. exact H. Qed.

Lemma preserved_trans {St} (Inv : St -> Prop) s1 s2 s3 :
  preserved Inv s1 s2 -> preserved Inv s2 s3 -> preserved Inv s1 s3.
Proof. unfold preserved. auto. Qed.

Section Field.

Import AdvancedLaserVehicleEnv.

Variable seeded : Z -> nat -> R.







(** A rebuilt field has the three default mines. *)
Lemma reset_default_mines a :
  CombatArena.mine_positions (CombatArena.reset a)
  = CombatArena.default_mine_positions (CombatArena.mine_height a)
  /\ CombatArena.mine_height (CombatArena.reset a) = CombatArena.mine_height a.
Proof.
  unfold CombatArena.reset. cbv zeta.
  unfold CombatArena._create_mines, CombatArena._create_boundaries,
    CombatArena._create_ground, CombatArena.default_mine_positions.
  cbn [CombatArena.mine_positions CombatArena.next_body CombatArena.debug
       CombatArena.create_mine_bodies CombatArena.mine_height].
  destruct (CombatArena.debug a); split; reflexivity.
Qed.






End Field.

Section FieldWitness.

Import AdvancedLaserVehicleEnv.


End FieldWitness.

Section Streak.

Import AdvancedLaserVehicleEnv.

Lemma streak_consistent_of s s' :
  streak_of s' = streak_of s -> streak_consistent s -> streak_consistent s'.
Proof.
  unfold streak_of, streak_consistent. intros [= Hh Hc Hb]. now rewrite Hh, Hc, Hb.
Qed.

Lemma unchanged_streak s s' :
  unchanged streak_of s s' -> preserved streak_consistent s s'.
Proof. intros H Hs. apply (streak_consistent_of s); assumption. Qed.

(** The three ways [_check_laser_hit] leaves the controller: as it was,
    with the streak cleared, or, behind the open gate and with no streak
    running, with a streak started at this instant. *)
Lemma check_laser_hit_cases ph now s :
  (fst (_check_laser_hit ph now s) = s
   /\ (snd (_check_laser_hit ph now s) = Ok true ->
       laser_hit s = true /\ boundary_crossed s = true))
  \/ (fst (_check_laser_hit ph now s)
      = set_continuous_hit_start None (set_laser_hit false s)
      /\ snd (_check_laser_hit ph now s) = Ok false)
  \/ (fst (_check_laser_hit ph now s)
      = set_continuous_hit_start (Some now) (set_laser_hit true s)
      /\ snd (_check_laser_hit ph now s) = Ok true
      /\ laser_hit s = false /\ boundary_crossed s = true).
Proof.
  unfold _check_laser_hit, bind, the_vehicle, lift, get, modify, ret.
  destruct (CombatArena.vehicle (arena s)) as [v|];
    [|left; split; [reflexivity|discriminate]].
  destruct (LaserVehicle.get_position_and_orientation v ph) as [[position orientation]|];
    [|left; split; [reflexivity|discriminate]].
  destruct (boundary_crossed s) eqn:Hb; cbn [negb];
    [|right; left; split; reflexivity].
  destruct (opponent_id s) as [opponent|];
    [|left; split; [reflexivity|discriminate]].
  destruct (opponent_position s) as [target|];
    [|left; split; [reflexivity|discriminate]].
  destruct (rayTest_beam ph) as [results|];
    [|left; split; [reflexivity|discriminate]].
  destruct (negb (hit_object results =? -1)%Z);
    [|right; left; split; reflexivity].
  destruct (hit_object results =? opponent)%Z;
    [|right; left; split; reflexivity].
  destruct (laser_hit s) eqn:Hh; cbn [negb].
  - left. split; [reflexivity|]. intros _. split; reflexivity.
  - right. right. repeat split; reflexivity.
Qed.

Lemma check_laser_hit_streak ph now :
  keeps (preserved streak_consistent) (_check_laser_hit ph now).
Proof.
  intros s Hs.
  destruct (check_laser_hit_cases ph now s) as [[E _]|[[E _]|(E & _ & _ & Hb)]];
    rewrite E.
  - exact Hs.
  - split; [split; [discriminate|intros H; now elim H]|discriminate].
  - split; [split; [discriminate|reflexivity]|intros _; exact Hb].
Qed.

Lemma check_boundary_crossed_streak ph :
  keeps (preserved streak_consistent) (_check_boundary_crossed ph).
Proof.
  unfold _check_boundary_crossed.
  repeat first
    [ apply (keeps_weaken _ _ _ unchanged_streak), the_vehicle_writes
    | keeps_step (preserved_refl streak_consistent)
        (preserved_trans streak_consistent) ].
  intros [Hiff _]. split; [exact Hiff|reflexivity].
Qed.

Lemma step_streak action i : keeps (preserved streak_consistent) (step action i).
Proof.
  unfold step.
  repeat first
    [ apply check_boundary_crossed_streak
    | apply check_laser_hit_streak
    | apply (keeps_weaken _ _ _ unchanged_streak);
      first [ apply the_vehicle_writes
            | apply get_observation_writes; reflexivity
            | apply compute_reward_writes; reflexivity
            | apply is_terminated_writes
            | apply is_truncated_writes ]
    | keeps_step (preserved_refl streak_consistent)
        (preserved_trans streak_consistent) ];
    try (intros Hs; exact Hs).
Qed.

Lemma reachable_streak seeded cfg s :
  reachable seeded cfg s -> streak_consistent s.
Proof.
  induction 1 as [d max_steps clock|s seed i _ IH|s action i _ IH|s d _ IH].
  - split; [split; [discriminate|intros H; now elim H]|discriminate].
  - apply (streak_consistent_of s); [|exact IH].
    apply (reset_writes streak_of seeded); reflexivity.
  - apply (step_streak action i s IH).
  - exact IH.
Qed.

(** X16.  The laser's latch and its streak.  On every controller one can
    come to hold, [laser_hit] is true exactly when a continuous hit is
    being timed, and only with the boundary gate open.  When
    [_check_laser_hit] reports a hit, the latch is set, the gate is open,
    and the streak keeps the start it had, or starts at this instant if
    none was running.  A returning [step] that reports [laser_hit] leaves
    a streak running. *)
Theorem laser_streak_consistent seeded cfg s :
  reachable seeded cfg s ->
  (laser_hit s = true <-> continuous_hit_start s <> None)
  /\ (laser_hit s = true -> boundary_crossed s = true)
  /\ (forall ph now,
        snd (_check_laser_hit ph now s) = Ok true ->
        laser_hit (fst (_check_laser_hit ph now s)) = true
        /\ boundary_crossed (fst (_check_laser_hit ph now s)) = true
        /\ continuous_hit_start (fst (_check_laser_hit ph now s))
           = (if laser_hit s then continuous_hit_start s else Some now))
  /\ (forall action i s' out,
        step action i s = (s', Ok out) ->
        info_laser_hit (info out) = true ->
        continuous_hit_start s' <> None /\ boundary_crossed s' = true).
Proof.
  intros Hs. pose proof (reachable_streak seeded cfg s Hs) as [Hiff Hgate].
  split; [exact Hiff|]. split; [exact Hgate|]. split.
  - intros ph now Hhit.
    destruct (check_laser_hit_cases ph now s)
      as [[E Hsame]|[[_ E]|(E & _ & Hh & Hb)]].
    + destruct (Hsame Hhit) as [Hh Hb]. rewrite E, Hh. repeat split; assumption.
    + rewrite E in Hhit. discriminate.
    + rewrite E, Hh. repeat split. exact Hb.
  - intros action i s' out E Hinfo.
    assert (Hs' : streak_consistent s').
    { replace s' with (fst (step action i s)) by now rewrite E.
      apply (step_streak action i s). split; assumption. }
    destruct (step_info _ _ _ _ _ E) as (_ & _ & _ & _ & Hlaser).
    rewrite Hlaser in Hinfo. destruct Hs' as [Hiff' Hgate'].
    split; [now apply Hiff'|now apply Hgate'].
Qed.

Lemma laser_streak_consistent_witness :
  laser_hit Scene.constructed = true <-> continuous_hit_start Scene.constructed <> None.
Proof.
  exact (proj1 (laser_streak_consistent (Scene.constant_generator 0.25)
                  default_observation_config Scene.constructed
                  (reachable_init _ _ _ _ _))).
Defined.

End Streak.

Section ArenaOrder.

Import AdvancedLaserVehicleEnv.

Lemma arena_init_in_order debug : arena_in_order (CombatArena.__init__ debug).
Proof.
  unfold CombatArena.__init__. cbv zeta.
  unfold CombatArena._create_mines, CombatArena._create_boundaries,
    CombatArena._create_ground, CombatArena.default_mine_positions.
  cbn [CombatArena.mine_positions CombatArena.next_body CombatArena.debug
       CombatArena.create_mine_bodies CombatArena.mine_height].
  destruct debug; repeat split.
Qed.

Lemma arena_reset_in_order a :
  arena_in_order a -> arena_in_order (CombatArena.reset a).
Proof.
  intros (Hhalf & Hheight & _).
  unfold CombatArena.reset. cbv zeta.
  unfold CombatArena._create_mines, CombatArena._create_boundaries,
    CombatArena._create_ground, CombatArena.default_mine_positions.
  cbn [CombatArena.mine_positions CombatArena.next_body CombatArena.debug
       CombatArena.create_mine_bodies CombatArena.mine_height].
  destruct (CombatArena.debug a); unfold arena_in_order;
    cbn [CombatArena.arena_half_size CombatArena.mine_height
         CombatArena.mine_positions CombatArena.mines CombatArena.mine_objects
         CombatArena._create_start_markers app length];
    rewrite Hheight; repeat split; assumption.
Qed.

Lemma arena_spawn_in_order mass size a :
  arena_in_order a -> arena_in_order (fst (CombatArena.spawn_vehicle mass size a)).
Proof. intros H. exact H. Qed.

Lemma arena_set_vehicle_in_order v a :
  arena_in_order a -> arena_in_order (CombatArena.set_vehicle v a).
Proof. intros H. exact H. Qed.

Lemma unchanged_arena_ok s s' :
  unchanged arena s s' -> preserved arena_ok s s'.
Proof. unfold unchanged, preserved, arena_ok. now intros ->. Qed.

Lemma respawn_arena i : keeps (preserved arena_ok) (respawn i).
Proof.
  unfold respawn.
  repeat first
    [ apply (keeps_weaken _ _ _ unchanged_arena_ok);
      first [ apply get_random_start_position_writes; reflexivity
            | apply np_random_uniform_writes; reflexivity
            | apply draw_mines_writes; reflexivity ]
    | keeps_step (preserved_refl arena_ok) (preserved_trans arena_ok) ];
    try (intros Hs; exact Hs).
  - intros Hs. unfold arena_ok. rewrite arena_set_arena.
    apply arena_reset_in_order, Hs.
  - intros s0 Hs. exact Hs.
  - intros s0 Hs. exact Hs.
  - intros Hs. unfold arena_ok.
    match goal with
    | |- context [CombatArena.vehicle (arena ?x)] =>
        destruct (CombatArena.vehicle (arena x)); exact Hs
    end.
Qed.

Lemma reset_arena seeded seed i : keeps (preserved arena_ok) (reset seeded seed i).
Proof.
  unfold reset, _reset_environment.
  repeat first
    [ apply respawn_arena
    | apply (keeps_weaken _ _ _ unchanged_arena_ok);
      apply get_observation_writes; reflexivity
    | keeps_step (preserved_refl arena_ok) (preserved_trans arena_ok) ];
    try (intros Hs; exact Hs).
Qed.

Lemma reachable_arena seeded cfg s : reachable seeded cfg s -> arena_ok s.
Proof.
  induction 1 as [d max_steps clock|s seed i _ IH|s action i _ IH|s d _ IH].
  - apply arena_init_in_order.
  - apply (reset_arena seeded seed i s IH).
  - unfold arena_ok. rewrite (step_writes arena); try reflexivity. exact IH.
  - exact IH.
Qed.

(** X17.  The arena of every controller one can come to hold has the three
    default mines on the line [y = 0], each with its ring and its body,
    whatever the difficulty and however many positions the controller
    itself has drawn; neither [step] nor [reset] changes them.  In
    particular the arena's mine positions and mine bodies always match. *)
Theorem arena_keeps_default_mines seeded cfg s :
  reachable seeded cfg s ->
  CombatArena.mine_positions (arena s)
  = [vec3 (-1.0) 0 (0.001 / 2); vec3 0 0 (0.001 / 2); vec3 1.0 0 (0.001 / 2)]
  /\ length (CombatArena.mines (arena s)) = 3%nat
  /\ length (CombatArena.mine_objects (arena s)) = 3%nat
  /\ mines_consistent (arena s)
  /\ CombatArena.arena_half_size (arena s) = 4.0 / 2
  /\ (forall action i,
        CombatArena.mine_positions (arena (fst (step action i s)))
        = CombatArena.mine_positions (arena s))
  /\ (forall seed i,
        CombatArena.mine_positions (arena (fst (reset seeded seed i s)))
        = CombatArena.mine_positions (arena s)).
Proof.
  intros Hs.
  pose proof (reachable_arena seeded cfg s Hs)
    as (Hhalf & Hheight & Hmines & Hrings & Hbodies).
  split; [exact Hmines|]. split; [exact Hrings|]. split; [exact Hbodies|].
  split; [unfold mines_consistent; now rewrite Hbodies, Hmines|].
  split; [exact Hhalf|]. split.
  - intros action i. now rewrite (step_writes arena).
  - intros seed i.
    pose proof (reachable_arena seeded cfg _ (reachable_reset seeded cfg s seed i Hs))
      as (_ & _ & Hmines' & _).
    now rewrite Hmines', Hmines.
Qed.

Lemma arena_keeps_default_mines_witness :
  CombatArena.mine_positions (arena Scene.constructed)
  = [vec3 (-1.0) 0 (0.001 / 2); vec3 0 0 (0.001 / 2); vec3 1.0 0 (0.001 / 2)].
Proof.
  exact (proj1 (arena_keeps_default_mines (Scene.constant_generator 0.25)
                  default_observation_config Scene.constructed
                  (reachable_init _ _ _ _ _))).
Defined.

End ArenaOrder.

(** ** The reward breakdown, further *)

Section Breakdown.

Import AdvancedLaserVehicleEnv.

Lemma dict_set_keys k v d :
  In k (dict_keys d) -> dict_keys (dict_set k v d) = dict_keys d.
Proof.
  unfold dict_keys. induction d as [|[k' v'] d IH]; cbn; [tauto|].
  intros [Hk|Hk].
  - subst k'. now rewrite String.eqb_refl.
  - destruct (String.eqb k k') eqn:E; cbn.
    + apply String.eqb_eq in E. now subst.
    + now rewrite IH.
Qed.

Lemma dict_set_idle k v d : dict_get k d = Some v -> dict_set k v d = d.
Proof.
  induction d as [|[k' v'] d IH]; cbn; [discriminate|].
  destruct (String.eqb k k') eqn:E.
  - apply String.eqb_eq in E. now intros [= ->]; subst.
  - intros H. now rewrite IH.
Qed.

Lemma dict_set_twice k v w d : dict_set k v (dict_set k w d) = dict_set k v d.
Proof.
  induction d as [|[k' v'] d IH]; cbn.
  - now rewrite String.eqb_refl.
  - destruct (String.eqb k k') eqn:E; cbn.
    + now rewrite String.eqb_refl.
    + now rewrite E, IH.
Qed.

Lemma dict_set_breakdown k v d :
  In k breakdown_keys -> dict_keys d = breakdown_keys ->
  dict_keys (dict_set k v d) = breakdown_keys.
Proof. intros Hk H. rewrite dict_set_keys; [exact H|now rewrite H]. Qed.

Lemma dict_add_breakdown k v d :
  In k breakdown_keys -> dict_keys d = breakdown_keys ->
  dict_keys (dict_add k v d) = breakdown_keys.
Proof. intros Hk H. unfold dict_add. now apply dict_set_breakdown. Qed.

Ltac keep_keys :=
  repeat first
    [ assumption
    | apply dict_add_breakdown; [cbn; tauto|]
    | apply dict_set_breakdown; [cbn; tauto|] ].

Lemma reward_mines_keys position mines d :
  dict_keys d = breakdown_keys ->
  dict_keys (reward_mines position mines d) = breakdown_keys.
Proof.
  revert d. induction mines as [|mine_pos rest IH]; intros d H; cbn [reward_mines];
    [exact H|].
  cbv zeta.
  destruct (Rltb _ (0.075 + 0.15)); [keep_keys|].
  destruct (Rltb _ (0.075 + 0.3)); [apply IH; keep_keys|].
  destruct (_ && _); apply IH; keep_keys.
Qed.

Lemma shaped_keys s position orientation velocity collision laser_distances now
  laser_hit :
  dict_keys (shaped s position orientation velocity collision laser_distances now
               laser_hit) = breakdown_keys.
Proof.
  unfold shaped.
  assert (H0 : dict_keys initial_reward_components = breakdown_keys) by reflexivity.
  assert (H1 : dict_keys (reward_out_of_bounds s position initial_reward_components)
               = breakdown_keys).
  { unfold reward_out_of_bounds. destruct (_ || _); keep_keys. }
  pose proof (reward_mines_keys position (CombatArena.mine_positions (arena s)) _ H1)
    as H2.
  set (d2 := reward_mines _ _ _) in *. clearbody d2.
  assert (H3 : dict_keys (reward_collision collision d2) = breakdown_keys).
  { unfold reward_collision. destruct collision; keep_keys. }
  set (d3 := reward_collision _ _) in *. clearbody d3.
  assert (H4 : dict_keys (reward_opponent s position orientation d3)
               = breakdown_keys).
  { unfold reward_opponent. destruct (opponent_position s); [|exact H3].
    cbv zeta. destruct (_ && _); destruct (boundary_crossed s); keep_keys. }
  set (d4 := reward_opponent _ _ _ _) in *. clearbody d4.
  assert (H5 : dict_keys (reward_waypoint s d4) = breakdown_keys).
  { unfold reward_waypoint. destruct (boundary_crossed s); keep_keys. }
  set (d5 := reward_waypoint _ _) in *. clearbody d5.
  assert (H6 : dict_keys (reward_laser s now laser_hit d5) = breakdown_keys).
  { unfold reward_laser. destruct laser_hit; [|exact H5].
    destruct (continuous_hit_start s); cbv zeta; [|keep_keys].
    destruct (Rleb _ _); keep_keys. }
  set (d6 := reward_laser _ _ _ _) in *. clearbody d6.
  assert (H7 : dict_keys (reward_obstacles laser_distances d6) = breakdown_keys).
  { unfold reward_obstacles. cbv zeta.
    destruct (Rltb _ 0.3); [keep_keys|].
    destruct laser_distances; [exact H6|].
    destruct (Rltb 0.3 _); keep_keys. }
  set (d7 := reward_obstacles _ _) in *. clearbody d7.
  unfold reward_speed. cbv zeta. destruct (Rltb _ 0.5); keep_keys.
Qed.

Lemma shaped_total s position orientation velocity collision laser_distances now
  laser_hit :
  dict_get "total_reward"
    (shaped s position orientation velocity collision laser_distances now laser_hit)
  = Some 0.0.
Proof. unfold shaped. frame. reflexivity. Qed.

(** The three ways the exploration block goes. *)
Lemma reward_exploration_cases position d s :
  match visited_positions s with
  | None =>
      reward_exploration position d s
      = (set_visited_positions (Some [cell_of s position]) s, Ok d)
  | Some cells =>
      if existsb (grid_eqb (cell_of s position)) cells
      then reward_exploration position d s = (s, Ok d)
      else reward_exploration position d s
           = (set_visited_positions (Some (cells ++ [cell_of s position])) s,
              Ok (dict_set "exploration_reward" 0.1 d))
  end.
Proof.
  unfold reward_exploration, cell_of. cbv zeta.
  destruct (visited_positions s) as [cells|]; [|reflexivity].
  destruct (existsb _ cells); reflexivity.
Qed.

Lemma compute_reward_total ph now action info s :
  exists s' total comps,
    _compute_reward ph now action info s = (s', Ok (total, comps))
    /\ dict_get "total_reward" comps = Some total
    /\ ((total = 0 /\ comps = zero_metrics)
        \/ (dict_keys comps = breakdown_keys
            /\ total = np_sum (dict_values (dict_set "total_reward" 0.0 comps)))).
Proof.
  rewrite compute_reward_unfold.
  assert (Hzero : forall s0 : t,
            exists s' total comps,
              (s0, Ok (0.0, zero_metrics)) = (s', Ok (total, comps))
              /\ dict_get "total_reward" comps = Some total
              /\ ((total = 0 /\ comps = zero_metrics)
                  \/ (dict_keys comps = breakdown_keys
                      /\ total
                         = np_sum (dict_values
                                     (dict_set "total_reward" 0.0 comps))))).
  { intros s0. eexists _, _, _. split; [reflexivity|]. split; [reflexivity|].
    left. split; [lra|reflexivity]. }
  destruct (CombatArena.vehicle (arena s)) as [v|]; [|apply Hzero].
  destruct (LaserVehicle.get_position_and_orientation v ph)
    as [[position orientation]|e]; [|apply Hzero].
  destruct (LaserVehicle.get_velocity v ph) as [velocity|e]; [|apply Hzero].
  cbv zeta.
  destruct (LaserVehicle.check_collision v ph) as [collision|e]; [|apply Hzero].
  destruct (LaserVehicle.get_laser_distances v ph) as [laser_distances|e];
    [|apply Hzero].
  pose proof (shaped_keys s position orientation velocity collision
                laser_distances now (laser_hit_of info)) as Hk.
  pose proof (shaped_total s position orientation velocity collision
                laser_distances now (laser_hit_of info)) as Ht.
  set (d0 := shaped _ _ _ _ _ _ _ _) in *. clearbody d0.
  destruct (reward_smooth s action d0) as [d|e] eqn:Hsmooth; [|apply Hzero].
  assert (Hk1 : dict_keys d = breakdown_keys).
  { unfold reward_smooth in Hsmooth.
    destruct (previous_action s) as [previous|].
    - destruct (np_sub action previous); [|discriminate].
      injection Hsmooth as <-. keep_keys.
    - now injection Hsmooth as <-. }
  assert (Ht1 : dict_get "total_reward" d = Some 0.0).
  { rewrite (reward_smooth_other "total_reward" _ _ _ _ ltac:(discriminate) Hsmooth).
    exact Ht. }
  assert (Hk2 : dict_keys (reward_energy action d) = breakdown_keys)
    by (unfold reward_energy; cbv zeta; keep_keys).
  assert (Ht2 : dict_get "total_reward" (reward_energy action d) = Some 0.0)
    by (rewrite reward_energy_other by discriminate; exact Ht1).
  set (d2 := reward_energy action d) in *. clearbody d2.
  assert (Hend : forall (s2 : t) d',
            dict_keys d' = breakdown_keys ->
            dict_get "total_reward" d' = Some 0.0 ->
            exists s' total comps,
              (set_previous_action (Some action) s2,
               Ok (np_sum (dict_values d'),
                   dict_set "total_reward" (np_sum (dict_values d')) d'))
              = (s', Ok (total, comps))
              /\ dict_get "total_reward" comps = Some total
              /\ ((total = 0 /\ comps = zero_metrics)
                  \/ (dict_keys comps = breakdown_keys
                      /\ total
                         = np_sum (dict_values
                                     (dict_set "total_reward" 0.0 comps))))).
  { intros s2 d' Hk' Ht'. eexists _, _, _. split; [reflexivity|].
    split; [apply dict_get_set_same|]. right. split; [keep_keys|].
    now rewrite dict_set_twice, (dict_set_idle _ _ _ Ht'). }
  pose proof (reward_exploration_cases position d2
                (set_current_position (Some position) s)) as Hcases.
  destruct (visited_positions (set_current_position (Some position) s))
    as [cells|].
  - destruct (existsb _ cells); rewrite Hcases; apply Hend; try assumption.
    + keep_keys.
    + now rewrite dict_get_set_other by discriminate.
  - rewrite Hcases. now apply Hend.
Qed.

(** X18.  The breakdown [_compute_reward] returns has one of two shapes.
    Either it is the zero-filled dictionary of the exception handler, with
    its seven keys, and the total is zero; or it has the fourteen keys of
    the full breakdown, and the total is the sum of all its entries but
    [total_reward].  In both, the entry [total_reward] is the total
    returned beside it. *)
Theorem compute_reward_two_shapes ph now action info s :
  exists s' total comps,
    _compute_reward ph now action info s = (s', Ok (total, comps))
    /\ dict_get "total_reward" comps = Some total
    /\ ((total = 0
         /\ dict_keys comps
            = ["distance_reward"; "rotation_reward"; "collision_reward";
               "laser_reward"; "goal_reward"; "time_penalty";
               "total_reward"]%string
         /\ Forall (fun entry => snd entry = 0) comps)
        \/ (dict_keys comps
            = ["survival_reward"; "distance_reward"; "rotation_reward";
               "waypoint_reward"; "laser_reward"; "goal_reward"; "mine_penalty";
               "collision_reward"; "out_of_bounds"; "smooth_reward";
               "exploration_reward"; "energy_conservation"; "time_penalty";
               "total_reward"]%string
            /\ total = np_sum (dict_values (dict_set "total_reward" 0.0 comps)))).
Proof.
  destruct (compute_reward_total ph now action info s)
    as (s' & total & comps & E & Htotal & [[Hzero ->]|[Hkeys Hsum]]).
  - exists s', total, zero_metrics. split; [exact E|]. split; [exact Htotal|].
    left. split; [exact Hzero|]. split; [reflexivity|].
    repeat constructor; cbn; lra.
  - exists s', total, comps. split; [exact E|]. split; [exact Htotal|].
    right. split; [exact Hkeys|exact Hsum].
Qed.

End Breakdown.

Section Exploration.

Import AdvancedLaserVehicleEnv.

Lemma visited_of cell s s' :
  visited_positions s' = visited_positions s -> visited cell s -> visited cell s'.
Proof. unfold visited. now intros ->. Qed.

Lemma unchanged_visited cell s s' :
  unchanged visited_positions s s' -> preserved (visited cell) s s'.
Proof. intros H Hs. apply (visited_of cell s); assumption. Qed.

Lemma visited_positions_set_visited x s :
  visited_positions (set_visited_positions x s) = x.
Proof. reflexivity. Qed.

Lemma reward_exploration_visited cell position d :
  keeps (preserved (visited cell)) (reward_exploration position d).
Proof.
  intros s Hs. pose proof (reward_exploration_cases position d s) as Hcases.
  unfold visited in Hs |- *.
  destruct (visited_positions s) as [cells|] eqn:Hcells; [|contradiction].
  destruct (existsb (grid_eqb (cell_of s position)) cells).
  - rewrite Hcases. cbn [fst]. now rewrite Hcells.
  - rewrite Hcases. cbn [fst]. rewrite visited_positions_set_visited.
    rewrite existsb_app, Hs. reflexivity.
Qed.

Lemma compute_reward_visited cell ph now action info :
  keeps (preserved (visited cell)) (_compute_reward ph now action info).
Proof.
  unfold _compute_reward.
  repeat first
    [ apply reward_exploration_visited
    | keeps_step (preserved_refl (visited cell)) (preserved_trans (visited cell)) ];
    try (intros Hs; exact Hs).
Qed.

Lemma step_visited cell action i : keeps (preserved (visited cell)) (step action i).
Proof.
  unfold step.
  repeat first
    [ apply compute_reward_visited
    | apply (keeps_weaken _ _ _ (unchanged_visited cell));
      first [ apply the_vehicle_writes
            | apply check_boundary_crossed_writes; reflexivity
            | apply check_laser_hit_writes; reflexivity
            | apply get_observation_writes; reflexivity
            | apply is_terminated_writes
            | apply is_truncated_writes ]
    | keeps_step (preserved_refl (visited cell)) (preserved_trans (visited cell)) ];
    try (intros Hs; exact Hs).
Qed.

Lemma grid_eqb_refl cell : grid_eqb cell cell = true.
Proof. unfold grid_eqb. now rewrite !Z.eqb_refl. Qed.

(** X19.  The exploration bonus is paid at most once per grid cell.  When
    the engine answers, [_compute_reward] pays 0.1 for a cell that is not
    in the set of visited cells, and nothing when the cell is in it or
    when the set does not exist yet (the first cell ever is not paid for);
    afterwards the cell is in the set.  A cell in the set stays in it
    through [_compute_reward], [step] and [reset]: no later episode is
    paid for it again. *)
Theorem exploration_pays_once ph now action info s
  v position orientation velocity collision laser_distances :
  CombatArena.vehicle (arena s) = Some v ->
  LaserVehicle.get_position_and_orientation v ph = Ok (position, orientation) ->
  LaserVehicle.get_velocity v ph = Ok velocity ->
  LaserVehicle.check_collision v ph = Ok collision ->
  LaserVehicle.get_laser_distances v ph = Ok laser_distances ->
  match previous_action s with
  | Some previous => length action = length previous
  | None => True
  end ->
  (exists s' total comps,
     _compute_reward ph now action info s = (s', Ok (total, comps))
     /\ dict_get "exploration_reward" comps
        = Some match visited_positions s with
               | Some cells =>
                   if existsb (grid_eqb (cell_of s position)) cells
                   then 0.0 else 0.1
               | None => 0.0
               end
     /\ visited (cell_of s position) s')
  /\ (forall cell,
        visited cell s ->
        visited cell (fst (_compute_reward ph now action info s))
        /\ (forall action' i, visited cell (fst (step action' i s)))
        /\ (forall seeded seed i, visited cell (fst (reset seeded seed i s)))).
Proof.
  intros Hv Hpose Hvel Hcol Hlas Hprev. split.
  - rewrite compute_reward_unfold, Hv, Hpose, Hvel. cbv zeta. rewrite Hcol, Hlas.
    assert (He : dict_get "exploration_reward"
                   (shaped s position orientation velocity collision
                      laser_distances now (laser_hit_of info)) = Some 0.0)
      by (unfold shaped; frame; reflexivity).
    set (d0 := shaped _ _ _ _ _ _ _ _) in *. clearbody d0.
    assert (Hsmooth : exists d, reward_smooth s action d0 = Ok d).
    { unfold reward_smooth. destruct (previous_action s) as [previous|]; [|eauto].
      unfold np_sub. rewrite Hprev, Nat.eqb_refl. eauto. }
    destruct Hsmooth as [d Hsmooth]. rewrite Hsmooth.
    assert (He2 : dict_get "exploration_reward" (reward_energy action d) = Some 0.0).
    { rewrite reward_energy_other by discriminate.
      rewrite (reward_smooth_other "exploration_reward" _ _ _ _
                 ltac:(discriminate) Hsmooth).
      exact He. }
    set (d2 := reward_energy action d) in *. clearbody d2.
    pose proof (reward_exploration_cases position d2
                  (set_current_position (Some position) s)) as Hcases.
    change (visited_positions (set_current_position (Some position) s))
      with (visited_positions s) in Hcases.
    change (cell_of (set_current_position (Some position) s) position)
      with (cell_of s position) in Hcases.
    destruct (visited_positions s) as [cells|] eqn:Hcells.
    + destruct (existsb (grid_eqb (cell_of s position)) cells) eqn:Hin;
        rewrite Hcases; eexists _, _, _; (split; [reflexivity|]); split.
      * now rewrite dict_get_set_other by discriminate.
      * unfold visited.
        change (visited_positions
                  (set_previous_action (Some action)
                     (set_current_position (Some position) s)))
          with (visited_positions s).
        now rewrite Hcells.
      * rewrite dict_get_set_other by discriminate. apply dict_get_set_same.
      * unfold visited. cbn [visited_positions set_previous_action
                               set_visited_positions].
        rewrite existsb_app. cbn [existsb]. rewrite grid_eqb_refl.
        now rewrite orb_true_r.
    + rewrite Hcases. eexists _, _, _. split; [reflexivity|]. split.
      * now rewrite dict_get_set_other by discriminate.
      * unfold visited. cbn [visited_positions set_previous_action
                               set_visited_positions existsb].
        now rewrite grid_eqb_refl.
  - intros cell Hcell. split; [|split].
    + apply (compute_reward_visited cell ph now action info s Hcell).
    + intros action' i. apply (step_visited cell action' i s Hcell).
    + intros seeded seed i. apply (visited_of cell s); [|exact Hcell].
      apply (reset_writes visited_positions seeded); reflexivity.
Qed.

End Exploration.

Section ExplorationWitness.

Import AdvancedLaserVehicleEnv.

Lemma exploration_pays_once_witness :
  exists s' total comps,
    _compute_reward (Scene.at_rest (vec3 1.5 1.5 0.1) (vec3 0 0 0)) 0 [0; 0]
      (PyBool false) Scene.manned = (s', Ok (total, comps))
    /\ visited (cell_of Scene.manned (vec3 1.5 1.5 0.1)) s'.
Proof.
  edestruct (exploration_pays_once
               (Scene.at_rest (vec3 1.5 1.5 0.1) (vec3 0 0 0)) 0 [0; 0]
               (PyBool false) Scene.manned)
    as ((s' & total & comps & E & _ & Hvisited) & _);
    [ cbn; reflexivity | cbn; reflexivity | cbn; reflexivity | cbn; reflexivity
    | cbn; reflexivity | exact I | ].
  exists s', total, comps. split; assumption.
Defined.

End ExplorationWitness.

Section NearestMine.

Import AdvancedLaserVehicleEnv.

(** The loop over the mines: what it holds after the mines [seen] is the
    first of the nearest of them. *)
Lemma nearest_mine_spec position orientation mines :
  forall seen best,
    In best seen ->
    (forall m, In m seen ->
       planar_distance best position <= planar_distance m position) ->
    exists nearest,
      nearest_mine position orientation mines
        (Some (planar_distance best position))
        (bearing position orientation best)
      = (Some (planar_distance nearest position),
         bearing position orientation nearest)
      /\ In nearest (seen ++ mines)
      /\ forall m, In m (seen ++ mines) ->
           planar_distance nearest position <= planar_distance m position.
Proof.
  induction mines as [|mine_pos rest IH]; intros seen best Hin Hmin;
    cbn [nearest_mine].
  - exists best. rewrite app_nil_r. repeat split; assumption.
  - cbv zeta.
    change (sqrt ((at0 mine_pos - at0 position) * (at0 mine_pos - at0 position)
                  + (at1 mine_pos - at1 position) * (at1 mine_pos - at1 position)))
      with (planar_distance mine_pos position).
    change (normalize_angle
              (np_arctan2 (at1 mine_pos - at1 position)
                 (at0 mine_pos - at0 position) - at2 orientation))
      with (bearing position orientation mine_pos).
    destruct (Rltb (planar_distance mine_pos position)
                (planar_distance best position)) eqn:Hlt.
    + apply Rltb_lt in Hlt.
      destruct (IH (seen ++ [mine_pos]) mine_pos) as (nearest & E & Hn & Hall).
      { apply in_or_app. right. now left. }
      { intros m Hm. apply in_app_or in Hm as [Hm|[<-|[]]]; [|lra].
        specialize (Hmin m Hm). lra. }
      exists nearest. rewrite <- app_assoc in Hn, Hall. repeat split; assumption.
    + assert (Hge : planar_distance best position
                    <= planar_distance mine_pos position).
      { unfold Rltb in Hlt. destruct (Rlt_dec _ _); [discriminate|lra]. }
      destruct (IH (seen ++ [mine_pos]) best) as (nearest & E & Hn & Hall).
      { apply in_or_app. now left. }
      { intros m Hm. apply in_app_or in Hm as [Hm|[<-|[]]]; [now apply Hmin|exact Hge]. }
      exists nearest. rewrite <- app_assoc in Hn, Hall. repeat split; assumption.
Qed.

(** X20.  The mine entries of a frame.  With no mine position recorded
    they are two zeros; otherwise they are the distance to a recorded
    mine that is at least as near as every other, and its bearing
    relative to the heading, which lies in [[-pi, pi]]. *)
Theorem mine_info_nearest s position orientation :
  (mine_positions s = [] -> mine_info s position orientation = [0; 0])
  /\ (mine_positions s <> [] ->
      exists nearest,
        mine_info s position orientation
        = [planar_distance nearest position;
           bearing position orientation nearest]
        /\ In nearest (mine_positions s)
        /\ (forall m, In m (mine_positions s) ->
              planar_distance nearest position <= planar_distance m position)
        /\ - PI <= bearing position orientation nearest <= PI).
Proof.
  split.
  - intros H. unfold mine_info. now rewrite H.
  - intros H. unfold mine_info.
    destruct (mine_positions s) as [|first rest]; [contradiction|].
    cbn [nearest_mine]. cbv zeta.
    change (sqrt ((at0 first - at0 position) * (at0 first - at0 position)
                  + (at1 first - at1 position) * (at1 first - at1 position)))
      with (planar_distance first position).
    change (normalize_angle
              (np_arctan2 (at1 first - at1 position)
                 (at0 first - at0 position) - at2 orientation))
      with (bearing position orientation first).
    destruct (nearest_mine_spec position orientation rest [first] first)
      as (nearest & E & Hin & Hall).
    { now left. }
    { intros m [<-|[]]. lra. }
    rewrite E. exists nearest. split; [reflexivity|].
    split; [exact Hin|]. split; [exact Hall|].
    unfold bearing. split.
    + apply wrap_up_lower, loops_needed_enough.
    + apply wrap_up_upper, wrap_down_upper, loops_needed_enough.
Qed.

End NearestMine.

Section Band.

Import AdvancedLaserVehicleEnv.

Lemma planar_distance_ge_x p q : Rabs (at0 p - at0 q) <= planar_distance p q.
Proof.
  unfold planar_distance. rewrite <- sqrt_Rsqr_abs. apply sqrt_le_1_alt.
  unfold Rsqr. pose proof (Rle_0_sqr (at1 p - at1 q)) as H. unfold Rsqr in H. lra.
Qed.

Lemma planar_distance_ge_y p q : Rabs (at1 p - at1 q) <= planar_distance p q.
Proof.
  unfold planar_distance. rewrite <- sqrt_Rsqr_abs. apply sqrt_le_1_alt.
  unfold Rsqr. pose proof (Rle_0_sqr (at0 p - at0 q)) as H. unfold Rsqr in H. lra.
Qed.

(** Outside the field, no default mine is within reach. *)
Lemma outside_clear_of_mines position :
  2 < Rabs (at0 position) \/ 2 < Rabs (at1 position) ->
  existsb (touches_mine position) (CombatArena.default_mine_positions 0.001)
  = false.
Proof.
  intros Hout.
  assert (Hfar : forall mx,
            -1 <= mx <= 1 ->
            touches_mine position (vec3 mx 0 (0.001 / 2)) = false).
  { intros mx Hmx. rewrite touches_mine_distance. apply Rltb_false.
    unfold contact_radius.
    pose proof (planar_distance_ge_x position (vec3 mx 0 (0.001 / 2))) as Hx.
    pose proof (planar_distance_ge_y position (vec3 mx 0 (0.001 / 2))) as Hy.
    cbn [at0 at1] in Hx, Hy.
    destruct Hout as [Hout|Hout].
    - assert (1 < Rabs (at0 position - mx)); [|lra].
      revert Hout. unfold Rabs.
      destruct (Rcase_abs (at0 position)); destruct (Rcase_abs (at0 position - mx));
        lra.
    - replace (at1 position - 0) with (at1 position) in Hy by ring. lra. }
  unfold CombatArena.default_mine_positions. cbn [existsb].
  rewrite !Hfar by lra. reflexivity.
Qed.

(** X21.  Between the edge of the field and 3.5 metres from the centre a
    vehicle is penalised but the episode goes on.  On a controller one can
    come to hold, with the engine answering, no collision and no streak
    running, a position with [|x|] or [|y|] above 2 and both at most 3.5
    gets the [out_of_bounds] entry -5, and [_is_terminated] returns
    false. *)
Theorem out_of_bounds_band seeded cfg ph now action info s
  v position orientation velocity laser_distances :
  reachable seeded cfg s ->
  CombatArena.vehicle (arena s) = Some v ->
  LaserVehicle.get_position_and_orientation v ph = Ok (position, orientation) ->
  LaserVehicle.get_velocity v ph = Ok velocity ->
  LaserVehicle.check_collision v ph = Ok false ->
  LaserVehicle.get_laser_distances v ph = Ok laser_distances ->
  match previous_action s with
  | Some previous => length action = length previous
  | None => True
  end ->
  2 < Rabs (at0 position) \/ 2 < Rabs (at1 position) ->
  Rabs (at0 position) <= 3.5 ->
  Rabs (at1 position) <= 3.5 ->
  continuous_hit_start s = None ->
  (exists s' total comps,
     _compute_reward ph now action info s = (s', Ok (total, comps))
     /\ dict_get "out_of_bounds" comps = Some (-5.0))
  /\ _is_terminated ph now s = (s, Ok false).
Proof.
  intros Hs Hv Hpose Hvel Hcol Hlas Hprev Hout Hx Hy Hstreak.
  pose proof (reachable_arena seeded cfg s Hs)
    as (Hhalf & _ & Hmines & _ & _).
  split.
  - destruct (compute_reward_shaped ph now action info s v position orientation
                velocity false laser_distances Hv Hpose Hvel Hcol Hlas Hprev)
      as (s' & total & comps & E & Hearly).
    exists s', total, comps. split; [exact E|].
    rewrite Hearly by (repeat split; discriminate).
    unfold shaped. frame. unfold reward_out_of_bounds. rewrite Hhalf.
    replace (Rltb (4.0 / 2) (Rabs (at0 position))
             || Rltb (4.0 / 2) (Rabs (at1 position))) with true.
    + now dict_simpl.
    + symmetry. apply orb_true_iff.
      destruct Hout; [left|right]; apply Rltb_true; lra.
  - unfold _is_terminated, bind, lift, get, ret.
    rewrite (the_vehicle_run s v Hv), Hcol, Hpose, Hmines, Hstreak.
    rewrite (outside_clear_of_mines position Hout), andb_false_r.
    rewrite !Rltb_false by lra. reflexivity.
Qed.

End Band.

Section BandWitness.

Import AdvancedLaserVehicleEnv.

(** [reset] always reaches its last assignment. *)
Lemma reset_clears_previous_action seeded seed i s :
  previous_action (fst (reset seeded seed i s)) = None.
Proof.
  assert (Htail : forall s0,
            previous_action
              (fst ((observation <- _reset_environment i ;;
                     modify (set_previous_action None) ;;
                     ret observation)%py s0)) = None).
  { intros s0. unfold bind at 1.
    assert (Hret : returns (_reset_environment i)).
    { unfold _reset_environment. apply returns_try_except. intros e.
      apply returns_bind; [apply returns_get|intros s1; apply returns_ret]. }
    specialize (Hret s0).
    destruct (_reset_environment i s0) as [s1 [observation|e]];
      [reflexivity|discriminate Hret]. }
  unfold reset.
  destruct seed;
    repeat (first [rewrite bind_modify | rewrite bind_ret]; cbv beta);
    apply Htail.
Qed.

Lemma out_of_bounds_band_witness :
  exists v,
    CombatArena.vehicle
      (arena (fst (reset (Scene.constant_generator 0.25) (Some 7%Z)
                     (Scene.quiet_reset (vec3 1.5 1.5 0.1)) Scene.constructed)))
    = Some v
    /\ _is_terminated (Scene.at_rest (vec3 2.5 0 0.1) (vec3 0 0 0)) 0
         (fst (reset (Scene.constant_generator 0.25) (Some 7%Z)
                 (Scene.quiet_reset (vec3 1.5 1.5 0.1)) Scene.constructed))
       = (fst (reset (Scene.constant_generator 0.25) (Some 7%Z)
                 (Scene.quiet_reset (vec3 1.5 1.5 0.1)) Scene.constructed),
          Ok false).
Proof.
  set (s1 := fst (reset (Scene.constant_generator 0.25) (Some 7%Z)
                    (Scene.quiet_reset (vec3 1.5 1.5 0.1)) Scene.constructed)).
  assert (Hs : reachable (Scene.constant_generator 0.25)
                 default_observation_config s1)
    by (apply reachable_reset, reachable_init).
  assert (Hv : CombatArena.vehicle (arena s1) <> None).
  { destruct (reset_run (Scene.constant_generator 0.25) (Some 7%Z)
                (Scene.quiet_reset (vec3 1.5 1.5 0.1)) Scene.constructed
                _ _ _ _ _ eq_refl eq_refl eq_refl eq_refl)
      as (s' & frame & E & _ & _ & Hv & _).
    unfold s1. rewrite E. exact Hv. }
  assert (Hprev : previous_action s1 = None)
    by apply reset_clears_previous_action.
  assert (Hstreak : continuous_hit_start s1 = None).
  { unfold s1.
    rewrite (reset_writes continuous_hit_start (Scene.constant_generator 0.25));
      reflexivity. }
  clearbody s1.
  destruct (CombatArena.vehicle (arena s1)) as [v|] eqn:Ev; [|now elim Hv].
  exists v. split; [reflexivity|].
  assert (Habs : Rabs 2.5 = 2.5) by (apply Rabs_right; lra).
  refine (proj2 (out_of_bounds_band (Scene.constant_generator 0.25)
                   default_observation_config
                   (Scene.at_rest (vec3 2.5 0 0.1) (vec3 0 0 0)) 0 [0; 0]
                   (PyBool false) s1 v (vec3 2.5 0 0.1) (vec3 0 0 0) (vec3 0 0 0)
                   _ Hs Ev eq_refl eq_refl eq_refl eq_refl _ _ _ _ Hstreak)).
  - now rewrite Hprev.
  - left. cbn [at0]. rewrite Habs. lra.
  - cbn [at0]. rewrite Habs. lra.
  - cbn [at1]. rewrite Rabs_R0. lra.
Defined.

End BandWitness.

Section NearestMineWitness.

Import AdvancedLaserVehicleEnv.

Lemma mine_info_nearest_witness :
  exists nearest,
    mine_info (set_mine_positions [vec3 1 0 0.05; vec3 0 1 0.05] Scene.constructed)
      (vec3 0 0 0.1) (vec3 0 0 0)
    = [planar_distance nearest (vec3 0 0 0.1);
       bearing (vec3 0 0 0.1) (vec3 0 0 0) nearest]
    /\ In nearest [vec3 1 0 0.05; vec3 0 1 0.05].
Proof.
  destruct (proj2 (mine_info_nearest
                     (set_mine_positions [vec3 1 0 0.05; vec3 0 1 0.05]
                        Scene.constructed)
                     (vec3 0 0 0.1) (vec3 0 0 0)))
    as (nearest & E & Hin & _).
  - discriminate.
  - exists nearest. split; [exact E|exact Hin].
Defined.

End NearestMineWitness.

(** ** The random mines of the curriculum *)

Section RandomMines.

Import CurriculumField.

Variable arena : CombatArena.t.

Lemma random_uniform_run a b g :
  random_uniform a b g = (fun n => g (S n), Ok (a + (b - a) * g 0%nat)).
Proof. reflexivity. Qed.

Lemma overlap_false x y h mines :
  overlap (CombatArena.mine_radius arena) x y mines = false ->
  Forall (fun m => apart (CombatArena.mine_radius arena) m (vec3 x y h)) mines.
Proof.
  unfold overlap. intros H. apply Forall_forall. intros m Hm.
  assert (Hnot : Rltb (sqrt ((x - at0 m) ^ 2 + (y - at1 m) ^ 2))
                   (2 * CombatArena.mine_radius arena) = false).
  { destruct (Rltb _ _) eqn:E; [|reflexivity].
    rewrite <- H. symmetry. apply existsb_exists. exists m. split; assumption. }
  unfold apart, planar_distance. cbn [at0 at1].
  unfold Rltb in Hnot. destruct (Rlt_dec _ _) as [|Hge]; [discriminate|].
  replace ((x - at0 m) * (x - at0 m) + (y - at1 m) * (y - at1 m))
    with ((x - at0 m) ^ 2 + (y - at1 m) ^ 2) by ring.
  lra.
Qed.

Lemma ForallOrdPairs_snoc {A} (R : A -> A -> Prop) (l : list A) (x : A) :
  ForallOrdPairs R l -> Forall (fun a => R a x) l -> ForallOrdPairs R (l ++ [x]).
Proof.
  induction 1 as [|a l Ha _ IH]; intros Hx; cbn [app].
  - constructor; constructor.
  - inversion Hx as [|? ? Hax Hlx]; subst. constructor.
    + apply Forall_app. split; [exact Ha|]. constructor; [exact Hax|constructor].
    + apply IH, Hlx.
Qed.

(** What the sampling loop keeps of the mines it has placed. *)
Lemma sample_mines_run n mines g :
  (forall k, 0 <= g k <= 1) ->
  (length mines <= 3)%nat ->
  Forall (in_centre (CombatArena.mine_height arena)) mines ->
  ForallOrdPairs (apart (CombatArena.mine_radius arena)) mines ->
  exists g' sampled,
    sample_mines n arena mines g = (g', Ok sampled)
    /\ (forall k, 0 <= g' k <= 1)
    /\ (length sampled <= 3)%nat
    /\ Forall (in_centre (CombatArena.mine_height arena)) sampled
    /\ ForallOrdPairs (apart (CombatArena.mine_radius arena)) sampled.
Proof.
  revert mines g. induction n as [|n IH]; intros mines g Hg Hlen Hin Hapart;
    cbn [sample_mines].
  - exists g, mines. repeat split; assumption || apply Hg.
  - destruct (Nat.ltb_spec (length mines) 3) as [Hlt|Hge].
    2:{ exists g, mines. repeat split; assumption || apply Hg. }
    unfold bind at 1. rewrite random_uniform_run. cbv beta iota.
    unfold bind at 1. rewrite random_uniform_run. cbv beta iota.
    set (x := -1.5 + (1.5 - -1.5) * g 0%nat).
    set (y := -1.5 + (1.5 - -1.5) * g 1%nat).
    assert (Hg' : forall k, 0 <= g (S (S k)) <= 1) by (intros k; apply Hg).
    destruct (overlap (CombatArena.mine_radius arena) x y mines) eqn:Hov.
    + apply IH; assumption.
    + apply IH; try assumption.
      * rewrite length_app. cbn [length]. lia.
      * apply Forall_app. split; [exact Hin|]. constructor; [|constructor].
        pose proof (Hg 0%nat). pose proof (Hg 1%nat).
        unfold in_centre, x, y. cbn [at0 at1 at2]. repeat split; lra.
      * apply ForallOrdPairs_snoc; [exact Hapart|].
        now apply overlap_false.
Qed.

Lemma default_in_centre h :
  Forall (in_centre h) [vec3 (-1.0) 0 (h / 2); vec3 0 0 (h / 2); vec3 1.0 0 (h / 2)].
Proof.
  repeat constructor; cbn [at0 at1 at2]; lra.
Qed.

(** The filling loop completes the list from the default layout. *)
Lemma fill_mines_run default_positions mines g :
  length default_positions = 3%nat ->
  (length mines <= 3)%nat ->
  fill_mines 3 default_positions mines g
  = (g, Ok (mines ++ skipn (length mines) default_positions)).
Proof.
  intros Hd Hlen.
  destruct default_positions as [|d0 [|d1 [|d2 [|d3 rest]]]]; try discriminate Hd.
  destruct mines as [|m0 [|m1 [|m2 [|m3 more]]]]; cbn in Hlen; try lia;
    reflexivity.
Qed.

(** X22.  [_generate_random_mine_positions] always returns three
    positions (for samples in [[0, 1]]), all in the central square of
    side 3 and at half the mine height.  The positions the sampling loop
    placed are pairwise at least two mine radii apart; the result is these
    followed by the default positions of the missing ranks, so it is free
    of overlaps when the loop placed all three. *)
Theorem generate_random_mine_positions_three (g : nat -> R) :
  (forall k, 0 <= g k <= 1) ->
  exists g' sampled mines,
    sample_mines 100 arena [] g = (g', Ok sampled)
    /\ _generate_random_mine_positions arena g = (g', Ok mines)
    /\ length mines = 3%nat
    /\ Forall (in_centre (CombatArena.mine_height arena)) mines
    /\ ForallOrdPairs (apart (CombatArena.mine_radius arena)) sampled
    /\ mines
       = sampled
         ++ skipn (length sampled)
              (CombatArena.default_mine_positions (CombatArena.mine_height arena))
    /\ (length sampled = 3%nat ->
        ForallOrdPairs (apart (CombatArena.mine_radius arena)) mines).
Proof.
  intros Hg.
  destruct (sample_mines_run 100 [] g Hg) as (g' & sampled & E & _ & Hlen & Hin & Hapart).
  { cbn. lia. }
  { constructor. }
  { constructor. }
  set (defaults :=
         CombatArena.default_mine_positions (CombatArena.mine_height arena)).
  exists g', sampled, (sampled ++ skipn (length sampled) defaults).
  split; [exact E|]. split.
  { unfold _generate_random_mine_positions. cbv zeta. unfold bind at 1.
    rewrite E. cbv beta iota.
    now rewrite fill_mines_run. }
  split.
  { rewrite length_app, length_skipn. unfold defaults. cbn [length
      CombatArena.default_mine_positions]. lia. }
  split.
  { apply Forall_app. split; [exact Hin|].
    unfold defaults, CombatArena.default_mine_positions.
    apply Forall_skipn, default_in_centre. }
  split; [exact Hapart|]. split; [reflexivity|].
  intros H3. rewrite H3. unfold defaults. cbn [skipn CombatArena.default_mine_positions].
  now rewrite app_nil_r.
Qed.

End RandomMines.

Lemma generate_random_mine_positions_three_witness :
  exists g' mines,
    CurriculumField._generate_random_mine_positions (CombatArena.__init__ true)
      (fun _ => 0.5) = (g', Ok mines)
    /\ length mines = 3%nat.
Proof.
  destruct (generate_random_mine_positions_three (CombatArena.__init__ true)
              (fun _ => 0.5))
    as (g' & sampled & mines & _ & E & Hlen & _).
  { intros k. lra. }
  exists g', mines. split; assumption.
Defined.

(** ** What a vehicle reports of itself *)

Section Cooldown.

Import LaserVehicleState.

Lemma py_div_zero x : py_div x 0.0 = Raised ZeroDivisionError.
Proof.
  unfold py_div, Reqb. destruct (Req_dec_T 0.0 0) as [_|H]; [reflexivity|].
  exfalso. apply H. lra.
Qed.

Lemma py_div_nonzero x y : y <> 0 -> py_div x y = Ok (x / y).
Proof.
  intros Hy. unfold py_div, Reqb. destruct (Req_dec_T y 0); [contradiction|reflexivity].
Qed.

(** X23.  [get_laser_cooldown_normalized] on a vehicle as constructed
    divides by its zero cooldown time and raises [ZeroDivisionError].
    After [set_difficulty(d)] with [d < 2] it returns a value in
    [[0, 1]], which is 0 as soon as the clock reads [2 - d] or more
    ([last_fire_time] stays 0). *)
Theorem laser_cooldown_normalized (v : LaserVehicle.t) (body : Z) (size : Vec3)
  (mass difficulty now : R) :
  get_laser_cooldown_normalized (LaserVehicle.__init__ body size mass) now
  = Raised ZeroDivisionError
  /\ (difficulty < 2 -> 0 <= now ->
      exists x,
        get_laser_cooldown_normalized (LaserVehicle.set_difficulty difficulty v) now
        = Ok x
        /\ 0 <= x <= 1
        /\ (2 - difficulty <= now -> x = 0)).
Proof.
  split.
  - unfold get_laser_cooldown_normalized. cbv zeta.
    cbn [LaserVehicle.laser_cooldown_time LaserVehicle.__init__].
    now rewrite py_div_zero.
  - intros Hd Hnow. unfold get_laser_cooldown_normalized, last_fire_time. cbv zeta.
    cbn [LaserVehicle.laser_cooldown_time LaserVehicle.set_difficulty].
    rewrite py_div_nonzero by lra.
    eexists. split; [reflexivity|].
    assert (Hratio : 0 <= (now - 0) / (2.0 - difficulty)).
    { apply Rmult_le_pos; [lra|]. left. apply Rinv_0_lt_compat. lra. }
    unfold Rmin. destruct (Rle_dec 1.0 _) as [Hle|Hgt].
    + split; [lra|]. intros _. lra.
    + split; [lra|]. intros Hlate. exfalso. apply Hgt.
      apply Rmult_le_reg_r with (2.0 - difficulty); [lra|].
      unfold Rdiv. rewrite Rmult_assoc, Rinv_l by lra. lra.
Qed.

End Cooldown.

Section Flattened.

Import LaserVehicleState.

Lemma nearest_edge_nonneg x y radius mines seen :
  match seen with Some d => 0 <= d | None => True end ->
  match nearest_edge x y radius mines seen with
  | Some d => 0 <= d
  | None => True
  end.
Proof.
  revert seen. induction mines as [|mine_pos rest IH]; intros seen Hseen;
    cbn [nearest_edge]; [exact Hseen|].
  apply IH. destruct seen as [d|].
  - unfold Rmin, Rmax. destruct (Rle_dec 0 _); destruct (Rle_dec d _); lra.
  - unfold Rmax. destruct (Rle_dec 0 _); lra.
Qed.

Lemma get_state_returns v m ans pos euler linear_vel angular_vel :
  getBasePositionAndOrientation (own ans) = Ok (pos, euler) ->
  getBaseVelocity (own ans) = Ok (linear_vel, angular_vel) ->
  (LaserVehicle.opponent_id v <> None ->
   is_ok (opponent_pose ans) = true /\ is_ok (opponent_velocity ans) = true) ->
  exists state,
    get_state v m ans = Ok state
    /\ position (self state) = (at0 pos, at1 pos)
    /\ orientation (self state) = at2 euler
    /\ - PI <= relative_orientation (opponent state) <= PI
    /\ 0 <= mine_distance (environment state)
    /\ (in_opponent_field (environment state) = 1.0
        \/ in_opponent_field (environment state) = 0.0)
    /\ boundary_distance (environment state)
       = (2.0 - Rabs (at0 pos), 2.0 - Rabs (at1 pos)).
Proof.
  intros Hpose Hvel Hopp. unfold get_state. rewrite Hpose, Hvel. cbv zeta.
  assert (Hmine : 0 <= match nearest_edge (at0 pos) (at1 pos) (mine_radius m)
                               (mine_positions m) None with
                       | Some d => d
                       | None => 0.0
                       end).
  { pose proof (nearest_edge_nonneg (at0 pos) (at1 pos) (mine_radius m)
                  (mine_positions m) None I) as H.
    destruct (nearest_edge _ _ _ _ _); lra. }
  assert (Hfield : forall b : bool, (if b then 1.0 else 0.0) = 1.0
                                    \/ (if b then 1.0 else 0.0) = 0.0)
    by (intros [|]; [left|right]; reflexivity).
  assert (Hmin : forall a, Rmin (2.0 - Rabs a) (Rabs a + 2.0) = 2.0 - Rabs a).
  { intros a. pose proof (Rabs_pos a). unfold Rmin.
    destruct (Rle_dec _ _); lra. }
  pose proof PI_RGT_0 as Hpi.
  destruct (LaserVehicle.opponent_id v) as [opponent|].
  - destruct Hopp as [Hp Hv]; [discriminate|].
    destruct (opponent_pose ans) as [[opp_pos opp_euler]|]; [|discriminate Hp].
    destruct (opponent_velocity ans) as [[opp_linear opp_angular]|];
      [|discriminate Hv].
    eexists. split; [reflexivity|]. cbn.
    split; [reflexivity|]. split; [reflexivity|]. split.
    { split.
      - apply wrap_up_lower, loops_needed_enough.
      - apply wrap_up_upper, wrap_down_upper, loops_needed_enough. }
    split; [exact Hmine|]. split; [apply Hfield|]. now rewrite !Hmin.
  - eexists. split; [reflexivity|]. cbn.
    split; [reflexivity|]. split; [reflexivity|]. split; [lra|].
    split; [exact Hmine|]. split; [apply Hfield|]. now rewrite !Hmin.
Qed.

(** X24.  [get_flattened_state] returns seventeen entries.  When the
    engine answers and the two speed limits are not zero, it returns,
    normalised or not, a vector of length 17.  Normalised, the relative
    orientation lies in [[-1, 1]], the laser hit time is at most 1, the
    mine distance lies in [[0, 1]], the half-field flag is 1 or -1, and
    for a vehicle inside the field the position and the two boundary
    distances are in range as well. *)
Theorem get_flattened_state_shape v m ans normalized pos euler linear_vel
  angular_vel :
  getBasePositionAndOrientation (own ans) = Ok (pos, euler) ->
  getBaseVelocity (own ans) = Ok (linear_vel, angular_vel) ->
  (LaserVehicle.opponent_id v <> None ->
   is_ok (opponent_pose ans) = true /\ is_ok (opponent_velocity ans) = true) ->
  LaserVehicle.max_velocity v <> 0 ->
  LaserVehicle.max_angular_velocity v <> 0 ->
  exists flat,
    get_flattened_state v m ans normalized = Ok flat
    /\ length flat = 17%nat
    /\ (normalized = true ->
        -1 <= nth 9 flat 0 <= 1
        /\ nth 11 flat 0 <= 1
        /\ 0 <= nth 12 flat 0 <= 1
        /\ (nth 14 flat 0 = 1 \/ nth 14 flat 0 = -1)
        /\ (Rabs (at0 pos) <= 2 -> Rabs (at1 pos) <= 2 ->
            -1 <= nth 0 flat 0 <= 1 /\ -1 <= nth 1 flat 0 <= 1
            /\ 0 <= nth 15 flat 0 <= 1 /\ 0 <= nth 16 flat 0 <= 1)).
Proof.
  intros Hpose Hvel Hopp Hmax Hang.
  destruct (get_state_returns v m ans pos euler linear_vel angular_vel
              Hpose Hvel Hopp)
    as (state & E & Hposition & _ & Hrel & Hmine & Hfield & Hbound).
  unfold get_flattened_state. rewrite E.
  destruct normalized.
  - unfold normalize_state. rewrite !py_div_nonzero by assumption.
    eexists. split; [reflexivity|]. split; [reflexivity|]. intros _.
    cbn [flatten nth app self opponent environment position orientation
         linear_velocity angular_velocity relative_position relative_velocity
         relative_orientation opponent_orientation laser_hit_time mine_distance
         border_distance in_opponent_field boundary_distance].
    pose proof PI_RGT_0 as Hpi.
    split.
    { split.
      - apply Rmult_le_reg_r with PI; [lra|].
        unfold Rdiv. rewrite Rmult_assoc, Rinv_l by lra. lra.
      - apply Rmult_le_reg_r with PI; [lra|].
        unfold Rdiv. rewrite Rmult_assoc, Rinv_l by lra. lra. }
    assert (Hcap : forall x, Rmin 1.0 x <= 1)
      by (intros x; pose proof (Rmin_l 1.0 x); lra).
    split; [apply Hcap|].
    split.
    { split; [|apply Hcap]. apply Rmin_glb; lra. }
    split.
    { destruct Hfield as [-> | ->]; [left|right]; lra. }
    intros Hx Hy. rewrite Hposition, Hbound. cbn [fst snd].
    pose proof (Rabs_pos (at0 pos)). pose proof (Rabs_pos (at1 pos)).
    pose proof (Rle_abs (at0 pos)). pose proof (Rle_abs (at1 pos)).
    pose proof (Rle_abs (- at0 pos)) as Hnx. rewrite Rabs_Ropp in Hnx.
    pose proof (Rle_abs (- at1 pos)) as Hny. rewrite Rabs_Ropp in Hny.
    repeat split; lra.
  - eexists. split; [reflexivity|]. split; [reflexivity|]. discriminate.
Qed.

End Flattened.

Section FlattenedWitness.

Import LaserVehicleState.

Lemma get_flattened_state_shape_witness :
  exists flat,
    get_flattened_state (LaserVehicle.__init__ 0 (vec3 0.2 0.15 0.1) 1.5) fresh
      {| own := Scene.at_rest (vec3 1.5 1.5 0.1) (vec3 0 0 0);
         opponent_pose := Raised PhysicsError;
         opponent_velocity := Raised PhysicsError |}
      true = Ok flat
    /\ length flat = 17%nat.
Proof.
  destruct (get_flattened_state_shape
              (LaserVehicle.__init__ 0 (vec3 0.2 0.15 0.1) 1.5) fresh
              {| own := Scene.at_rest (vec3 1.5 1.5 0.1) (vec3 0 0 0);
                 opponent_pose := Raised PhysicsError;
                 opponent_velocity := Raised PhysicsError |}
              true (vec3 1.5 1.5 0.1) (vec3 0 0 0) (vec3 0 0 0) (vec3 0 0 0)
              eq_refl eq_refl)
    as (flat & E & Hlen & _).
  - intros H. now elim H.
  - cbn. lra.
  - cbn. pose proof PI_RGT_0. lra.
  - exists flat. split; assumption.
Defined.

End FlattenedWitness.

Section CooldownWitness.

Import LaserVehicleState.

Lemma laser_cooldown_normalized_witness :
  exists x,
    get_laser_cooldown_normalized
      (LaserVehicle.set_difficulty 0.5
         (LaserVehicle.__init__ 0 (vec3 0.2 0.15 0.1) 1.5)) 10 = Ok x
    /\ 0 <= x <= 1
    /\ (2 - 0.5 <= 10 -> x = 0).
Proof.
  apply (proj2 (laser_cooldown_normalized
                  (LaserVehicle.__init__ 0 (vec3 0.2 0.15 0.1) 1.5)
                  0 (vec3 0.2 0.15 0.1) 1.5 0.5 10)); lra.
Defined.

End CooldownWitness.

(** ** The way out of the rule-based opponent *)

Section SafeDirection.

Import LaserVehicleState.
Import CurriculumOpponent.

Lemma safe_distances_returns rayTest pos orient angles :
  (forall ray_start ray_end, is_ok (rayTest ray_start ray_end) = true) ->
  exists distances,
    safe_distances rayTest pos orient angles = Ok distances
    /\ length distances = length angles.
Proof.
  intros Hray. induction angles as [|angle rest (distances & E & Hlen)];
    cbn [safe_distances].
  - exists []. split; reflexivity.
  - cbv zeta.
    match goal with
    | |- context [rayTest ?a ?b] =>
        pose proof (Hray a b) as H; destruct (rayTest a b); [|discriminate H]
    end.
    rewrite E. eexists. split; [reflexivity|]. cbn [length]. now rewrite Hlen.
Qed.

Lemma safe_distances_free rayTest pos orient angles :
  all_free rayTest ->
  safe_distances rayTest pos orient angles = Ok (repeat 2.0 (length angles)).
Proof.
  intros Hfree. induction angles as [|angle rest IH]; cbn [safe_distances];
    [reflexivity|].
  cbv zeta.
  match goal with
  | |- context [rayTest ?a ?b] =>
      destruct (Hfree a b) as (hit & -> & Hhit)
  end.
  rewrite IH. rewrite Rleb_true by lra. reflexivity.
Qed.

Lemma argmax_from_level best_index best index n :
  argmax_from best_index best index (repeat best n) = best_index.
Proof.
  revert index. induction n as [|n IH]; intros index; cbn [repeat argmax_from];
    [reflexivity|].
  rewrite Rltb_false by lra. apply IH.
Qed.

(** The wheel speeds for an angle: never backwards, 1.4 in all. *)
Lemma steering_bounds (angle_diff : R) :
  exists left right,
    (if Rltb (Rabs angle_diff) 0.2 then Ok [0.7; 0.7]
     else if Rltb 0 angle_diff then
       Ok [0.7 - Rmin 0.7 (angle_diff / PI); 0.7 + Rmin 0.7 (angle_diff / PI)]
     else
       Ok [0.7 + Rmin 0.7 (- angle_diff / PI); 0.7 - Rmin 0.7 (- angle_diff / PI)])
    = Ok (A := list R) [left; right]
    /\ left + right = 1.4 /\ 0 <= left <= 1.4 /\ 0 <= right <= 1.4.
Proof.
  pose proof PI_RGT_0 as Hpi.
  assert (Hpos : forall a, 0 < a -> 0 < Rmin 0.7 (a / PI) <= 0.7).
  { intros a Ha.
    assert (0 < a / PI) by (apply Rmult_lt_0_compat; [lra|now apply Rinv_0_lt_compat]).
    unfold Rmin. destruct (Rle_dec 0.7 (a / PI)); lra. }
  destruct (Rltb (Rabs angle_diff) 0.2) eqn:Hsmall.
  - exists 0.7, 0.7. split; [reflexivity|]. lra.
  - destruct (Rltb 0 angle_diff) eqn:Hsign.
    + apply Rltb_lt in Hsign. destruct (Hpos angle_diff Hsign).
      eexists _, _. split; [reflexivity|]. lra.
    + assert (Hneg : 0 < - angle_diff).
      { unfold Rltb in Hsmall, Hsign.
        destruct (Rlt_dec (Rabs angle_diff) 0.2); [discriminate|].
        destruct (Rlt_dec 0 angle_diff); [discriminate|].
        destruct (Req_dec angle_diff 0) as [->|]; [rewrite Rabs_R0 in *; lra|lra]. }
      replace (- angle_diff / PI) with ((- angle_diff) / PI) by reflexivity.
      destruct (Hpos (- angle_diff) Hneg).
      eexists _, _. split; [reflexivity|]. lra.
Qed.

(** X25.  [_find_safe_direction] never reverses a wheel.  When the engine
    answers, it returns two wheel speeds between 0 and 1.4 that add up to
    1.4; when all eight rays are free it returns straight ahead,
    [[0.7, 0.7]]. *)
Theorem find_safe_direction_forward vehicle m ans rayTest pos euler linear_vel
  angular_vel :
  getBasePositionAndOrientation (own ans) = Ok (pos, euler) ->
  getBaseVelocity (own ans) = Ok (linear_vel, angular_vel) ->
  (LaserVehicle.opponent_id vehicle <> None ->
   is_ok (opponent_pose ans) = true /\ is_ok (opponent_velocity ans) = true) ->
  (forall ray_start ray_end, is_ok (rayTest ray_start ray_end) = true) ->
  (exists left right,
     _find_safe_direction vehicle m ans rayTest = Ok [left; right]
     /\ left + right = 1.4 /\ 0 <= left <= 1.4 /\ 0 <= right <= 1.4)
  /\ (all_free rayTest ->
      _find_safe_direction vehicle m ans rayTest = Ok [0.7; 0.7]).
Proof.
  intros Hpose Hvel Hopp Hray.
  destruct (get_state_returns vehicle m ans pos euler linear_vel angular_vel
              Hpose Hvel Hopp) as (state & E & _).
  split.
  - unfold _find_safe_direction. rewrite E. cbv zeta.
    destruct (safe_distances_returns rayTest (position (self state))
                (orientation (self state)) (np_linspace_open 0 (2 * PI) 8) Hray)
      as (distances & -> & Hlen).
    destruct distances as [|d rest]; [discriminate Hlen|].
    cbn [np_argmax]. apply steering_bounds.
  - intros Hfree. unfold _find_safe_direction. rewrite E. cbv zeta.
    rewrite (safe_distances_free _ _ _ _ Hfree).
    cbn [np_linspace_open seq map length].
    change (repeat 2.0 8) with (2.0 :: repeat 2.0 7).
    cbn [np_argmax]. rewrite argmax_from_level. cbn [nth INR].
    replace (0 + 0 * ((2 * PI - 0) / (1 + 1 + 1 + 1 + 1 + 1 + 1 + 1))) with 0
      by (unfold Rdiv; ring).
    pose proof PI_RGT_0 as Hpi.
    rewrite (Rltb_false PI 0) by lra.
    rewrite Rabs_R0, Rltb_true by lra. reflexivity.
Qed.

End SafeDirection.

Section SafeDirectionWitness.

Import LaserVehicleState.
Import CurriculumOpponent.

Lemma find_safe_direction_forward_witness :
  _find_safe_direction (LaserVehicle.__init__ 0 (vec3 0.2 0.15 0.1) 1.5) fresh
    {| own := Scene.at_rest (vec3 1.5 1.5 0.1) (vec3 0 0 0);
       opponent_pose := Raised PhysicsError;
       opponent_velocity := Raised PhysicsError |}
    (fun _ _ => Ok {| hit_object := -1; hit_fraction := 1;
                      hit_position := vec3 0 0 0 |})
  = Ok [0.7; 0.7].
Proof.
  apply (proj2 (find_safe_direction_forward
                  (LaserVehicle.__init__ 0 (vec3 0.2 0.15 0.1) 1.5) fresh
                  {| own := Scene.at_rest (vec3 1.5 1.5 0.1) (vec3 0 0 0);
                     opponent_pose := Raised PhysicsError;
                     opponent_velocity := Raised PhysicsError |}
                  (fun _ _ => Ok {| hit_object := -1; hit_fraction := 1;
                                    hit_position := vec3 0 0 0 |})
                  (vec3 1.5 1.5 0.1) (vec3 0 0 0) (vec3 0 0 0) (vec3 0 0 0)
                  eq_refl eq_refl
                  (fun H => False_ind _ (H eq_refl))
                  (fun _ _ => eq_refl))).
  intros ray_start ray_end. eexists. split; [reflexivity|]. cbn. lra.
Defined.

End SafeDirectionWitness.

(** ** The curriculum callback *)

Section Callback.

Import CurriculumCallback.

Lemma on_step_idle c :
  (Z.of_nat (length (episode_rewards c)) < check_freq c)%Z ->
  _on_step c = (c, Ok true).
Proof.
  intros H. unfold _on_step, bind, get.
  replace (check_freq c <=? Z.of_nat (length (episode_rewards c)))%Z with false
    by (symmetry; apply Z.leb_gt; exact H).
  reflexivity.
Qed.

Lemma on_step_check c :
  (check_freq c <= Z.of_nat (length (episode_rewards c)))%Z ->
  episode_count c <> 0%Z ->
  let rate := IZR (win_count c) / IZR (episode_count c) in
  let difficulty :=
    if Rleb (success_threshold c) rate
    then Rmin 1.0 (current_difficulty c + difficulty_increment c)
    else current_difficulty c in
  _on_step c
  = ({| check_freq := check_freq c; current_difficulty := difficulty;
        difficulty_increment := difficulty_increment c;
        success_threshold := success_threshold c;
        episode_rewards := []; win_count := 0; episode_count := 0;
        training_env :=
          map (AdvancedLaserVehicleEnv.set_difficulty (np_clip difficulty 0.1 1.0))
              (training_env c) |}, Ok true).
Proof.
  intros Hdue Hcount. cbv zeta. unfold _on_step, bind, get.
  replace (check_freq c <=? Z.of_nat (length (episode_rewards c)))%Z with true
    by (symmetry; apply Z.leb_le; exact Hdue).
  unfold lift, int_div.
  replace (episode_count c =? 0)%Z with false
    by (symmetry; apply Z.eqb_neq; exact Hcount).
  destruct (Rleb _ _); reflexivity.
Qed.

(** X26.  [CurriculumCallback._on_step] with a check frequency of at least
    one, a tally in step, a difficulty of at most 1 and a non-negative
    increment: it returns [True], the tally stays in step, and the
    difficulty does not decrease and stays at most 1.  Below the check
    frequency nothing changes; at the check the tally is emptied and every
    training environment is set to the callback's difficulty, clipped to
    [[0.1, 1]]. *)
Theorem on_step_in_order (c : t) :
  (1 <= check_freq c)%Z ->
  tallied c ->
  current_difficulty c <= 1 ->
  0 <= difficulty_increment c ->
  exists c',
    _on_step c = (c', Ok true)
    /\ tallied c'
    /\ current_difficulty c <= current_difficulty c' <= 1
    /\ check_freq c' = check_freq c
    /\ ((Z.of_nat (length (episode_rewards c)) < check_freq c)%Z -> c' = c)
    /\ ((check_freq c <= Z.of_nat (length (episode_rewards c)))%Z ->
        episode_rewards c' = []
        /\ Forall (fun env =>
                     AdvancedLaserVehicleEnv.difficulty env
                     = np_clip (current_difficulty c') 0.1 1.0)
                  (training_env c')).
Proof.
  intros Hfreq [Hcount Hwins] Hcap Hinc.
  destruct (Z.lt_ge_cases (Z.of_nat (length (episode_rewards c))) (check_freq c))
    as [Hidle|Hdue].
  - exists c. rewrite on_step_idle by exact Hidle.
    split; [reflexivity|]. split; [split; assumption|]. split; [lra|].
    split; [reflexivity|]. split; [reflexivity|]. lia.
  - assert (Hne : episode_count c <> 0%Z) by lia.
    rewrite (on_step_check c Hdue Hne). eexists. split; [reflexivity|].
    cbn [current_difficulty check_freq episode_rewards training_env].
    split; [split; cbn; lia|].
    split.
    { destruct (Rleb _ _); [|lra].
      unfold Rmin. destruct (Rle_dec 1.0 _); lra. }
    split; [reflexivity|]. split; [lia|]. intros _. split; [reflexivity|].
    apply Forall_forall. intros env Henv. apply in_map_iff in Henv.
    destruct Henv as (env0 & <- & _). reflexivity.
Qed.

Lemma on_step_in_order_witness :
  exists c',
    _on_step (__init__ 1000 0.3 0.1 0.6 [Scene.constructed]) = (c', Ok true)
    /\ c' = __init__ 1000 0.3 0.1 0.6 [Scene.constructed].
Proof.
  destruct (on_step_in_order (__init__ 1000 0.3 0.1 0.6 [Scene.constructed]))
    as (c' & E & _ & _ & _ & Hidle & _).
  - cbn. lia.
  - split; cbn; lia.
  - cbn. lra.
  - cbn. lra.
  - exists c'. split; [exact E|]. apply Hidle. cbn. lia.
Defined.

(** X27.  [_on_step] is the only method of the callback the training
    loop calls ([update_stats] has no caller).  From construction, with a
    check frequency of at least one, any number of [_on_step] calls leaves
    the callback and its environments as they were: the difficulty never
    moves.  With a check frequency of zero or less the first call divides
    by the zero episode count and raises [ZeroDivisionError]. *)
Theorem on_steps_alone_change_nothing (n : nat) check_freq initial_difficulty
  difficulty_increment success_threshold envs :
  let c := __init__ check_freq initial_difficulty difficulty_increment
             success_threshold envs in
  ((1 <= check_freq)%Z -> on_steps n c = (c, Ok tt))
  /\ ((check_freq <= 0)%Z ->
      snd (_on_step c) = Raised ZeroDivisionError
      /\ fst (_on_step c) = c).
Proof.
  intros c. split.
  - intros Hfreq. induction n as [|n IH]; cbn [on_steps]; [reflexivity|].
    unfold bind at 1. rewrite on_step_idle by (cbn; lia). exact IH.
  - intros Hfreq. unfold _on_step, bind, get.
    replace (CurriculumCallback.check_freq c
             <=? Z.of_nat (length (episode_rewards c)))%Z with true
      by (symmetry; apply Z.leb_le; cbn; lia).
    split; reflexivity.
Qed.

End Callback.

Section CallbackWitness.

Import CurriculumCallback.

Lemma on_steps_alone_change_nothing_witness :
  on_steps 5 (__init__ 1000 0.3 0.1 0.6 [Scene.constructed])
  = (__init__ 1000 0.3 0.1 0.6 [Scene.constructed], Ok tt)
  /\ snd (_on_step (__init__ 0 0.3 0.1 0.6 [Scene.constructed]))
     = Raised ZeroDivisionError.
Proof.
  split.
  - apply (proj1 (on_steps_alone_change_nothing 5 1000 0.3 0.1 0.6
                    [Scene.constructed])). lia.
  - apply (proj2 (on_steps_alone_change_nothing 5 0 0.3 0.1 0.6
                    [Scene.constructed])). lia.
Defined.

End CallbackWitness.

(** ** Wrapped angles *)

Section WholeTurns.

Lemma wrap_down_turns (rounds : nat) (angle : R) :
  exists k : nat,
    wrap_down rounds angle = angle - INR k * (2 * PI)
    /\ (- PI <= angle <= PI -> k = O).
Proof.
  revert angle. induction rounds as [|n IH]; intros angle; cbn [wrap_down].
  - exists O. split; [cbn; ring|reflexivity].
  - unfold Rltb. destruct (Rlt_dec PI angle) as [Hgt|Hle].
    + destruct (IH (angle - 2 * PI)) as (k & E & _).
      exists (S k). split; [rewrite E, S_INR; ring|]. intros [_ H]. lra.
    + exists O. split; [cbn; ring|reflexivity].
Qed.

Lemma wrap_up_turns (rounds : nat) (angle : R) :
  exists k : nat,
    wrap_up rounds angle = angle + INR k * (2 * PI)
    /\ (- PI <= angle <= PI -> k = O).
Proof.
  revert angle. induction rounds as [|n IH]; intros angle; cbn [wrap_up].
  - exists O. split; [cbn; ring|reflexivity].
  - unfold Rltb. destruct (Rlt_dec angle (- PI)) as [Hlt|Hge].
    + destruct (IH (angle + 2 * PI)) as (k & E & _).
      exists (S k). split; [rewrite E, S_INR; ring|]. intros [H _]. lra.
    + exists O. split; [cbn; ring|reflexivity].
Qed.

(** X28.  Wrapping an angle changes it by whole turns only.  The two
    loops that bring a relative angle into [[-pi, pi]] return the angle
    plus an integer multiple of [2 * pi]; an angle already in the
    interval is returned as it is; and the result has the cosine and the
    sine of the angle given, so it points the same way. *)
Theorem normalize_angle_whole_turns (angle : R) :
  (exists k : Z, normalize_angle angle = angle + IZR k * (2 * PI))
  /\ (- PI <= angle <= PI -> normalize_angle angle = angle)
  /\ cos (normalize_angle angle) = cos angle
  /\ sin (normalize_angle angle) = sin angle.
Proof.
  unfold normalize_angle. cbv zeta.
  destruct (wrap_down_turns (loops_needed (angle - PI)) angle) as (d & Ed & Hd).
  destruct (wrap_up_turns
              (loops_needed (- PI - wrap_down (loops_needed (angle - PI)) angle))
              (wrap_down (loops_needed (angle - PI)) angle)) as (u & Eu & Hu).
  assert (Hk : wrap_up
                 (loops_needed (- PI - wrap_down (loops_needed (angle - PI)) angle))
                 (wrap_down (loops_needed (angle - PI)) angle)
               = angle + IZR (Z.of_nat u - Z.of_nat d) * (2 * PI)).
  { rewrite Eu, Ed, minus_IZR, <- !INR_IZR_INZ. ring. }
  split; [eexists; exact Hk|]. split.
  - intros Hin. rewrite Eu, Ed. rewrite (Hd Hin) in *.
    assert (Hin' : - PI <= wrap_down (loops_needed (angle - PI)) angle <= PI).
    { rewrite Ed. cbn [INR]. lra. }
    rewrite (Hu Hin'). cbn [INR]. ring.
  - rewrite Eu, Ed.
    set (y := angle - INR d * (2 * PI) + INR u * (2 * PI)).
    assert (Hy : y + 2 * INR d * PI = angle + 2 * INR u * PI)
      by (unfold y; ring).
    split.
    + rewrite <- (cos_period y d), Hy. apply cos_period.
    + rewrite <- (sin_period y d), Hy. apply sin_period.
Qed.

Lemma normalize_angle_whole_turns_witness :
  normalize_angle (PI / 2) = PI / 2.
Proof.
  apply (proj1 (proj2 (normalize_angle_whole_turns (PI / 2)))).
  pose proof PI_RGT_0. lra.
Defined.

End WholeTurns.

(** ** The size of the reward *)

Section LaserRange.

Import AdvancedLaserVehicleEnv.

Lemma unchanged_range_ok s s' :
  unchanged arena s s' -> preserved range_ok s s'.
Proof. unfold unchanged, preserved, range_ok. now intros ->. Qed.

Lemma respawn_range i : keeps (preserved range_ok) (respawn i).
Proof.
  unfold respawn.
  repeat first
    [ apply (keeps_weaken _ _ _ unchanged_range_ok);
      first [ apply get_random_start_position_writes; reflexivity
            | apply np_random_uniform_writes; reflexivity
            | apply draw_mines_writes; reflexivity ]
    | keeps_step (preserved_refl range_ok) (preserved_trans range_ok) ];
    try (intros Hs; exact Hs).
  - intros _ v. rewrite arena_set_arena, reset_unmanned. discriminate.
  - intros s0 Hs v. rewrite spawn_vehicle_run. cbn [fst].
    rewrite arena_set_arena. unfold CombatArena.spawn_vehicle.
    cbn [fst CombatArena.vehicle].
    destruct (CombatArena.vehicle (arena s0)) as [v0|] eqn:Hv0.
    + intros [= <-]. now apply Hs.
    + intros [= <-]. reflexivity.
  - intros s0 Hs v. rewrite spawn_vehicle_run. cbn [fst].
    rewrite arena_set_arena. unfold CombatArena.spawn_vehicle.
    cbn [fst CombatArena.vehicle].
    destruct (CombatArena.vehicle (arena s0)) as [v0|] eqn:Hv0.
    + intros [= <-]. now apply Hs.
    + intros [= <-]. reflexivity.
  - intros Hs v.
    destruct (CombatArena.vehicle (arena s)) as [v0|] eqn:Hv0.
    + rewrite arena_set_arena, vehicle_set_vehicle. intros [= <-].
      exact (Hs v0 Hv0).
    + rewrite Hv0. discriminate.
Qed.

Lemma reset_range seeded seed i : keeps (preserved range_ok) (reset seeded seed i).
Proof.
  unfold reset, _reset_environment.
  repeat first
    [ apply respawn_range
    | apply (keeps_weaken _ _ _ unchanged_range_ok);
      apply get_observation_writes; reflexivity
    | keeps_step (preserved_refl range_ok) (preserved_trans range_ok) ];
    try (intros Hs; exact Hs).
Qed.

Lemma reachable_range seeded cfg s : reachable seeded cfg s -> range_ok s.
Proof.
  induction 1 as [d max_steps clock|s seed i _ IH|s action i _ IH|s d _ IH].
  - intros v. discriminate.
  - apply (reset_range seeded seed i s IH).
  - unfold range_ok. rewrite (step_writes arena); try reflexivity. exact IH.
  - exact IH.
Qed.

End LaserRange.

Section RewardBounds.

Import AdvancedLaserVehicleEnv.

Lemma dict_val_set_same k v d : dict_val k (dict_set k v d) = v.
Proof. unfold dict_val. now rewrite dict_get_set_same. Qed.

Lemma dict_val_add_same k v d : dict_val k (dict_add k v d) = dict_val k d + v.
Proof. unfold dict_val at 1. now rewrite dict_get_add_same. Qed.

Lemma dict_val_set_other k k' v d :
  k <> k' -> dict_val k (dict_set k' v d) = dict_val k d.
Proof. intros H. unfold dict_val. now rewrite dict_get_set_other. Qed.

Lemma dict_val_add_other k k' v d :
  k <> k' -> dict_val k (dict_add k' v d) = dict_val k d.
Proof. intros H. unfold dict_val. now rewrite dict_get_add_other. Qed.

Lemma np_min_lower (lo x : R) (xs : list R) :
  lo <= x -> Forall (fun d => lo <= d) xs -> lo <= np_min x xs.
Proof.
  unfold np_min. revert x. induction xs as [|y ys IH]; intros x Hx Hall;
    cbn [fold_left]; [exact Hx|].
  inversion Hall as [|? ? Hy Hys]; subst. apply IH; [|exact Hys].
  now apply Rmin_glb.
Qed.

Lemma np_sum_nonneg (xs : list R) : Forall (fun d => 0 <= d) xs -> 0 <= np_sum xs.
Proof.
  unfold np_sum. induction 1 as [|x xs Hx _ IH]; cbn [fold_right]; lra.
Qed.

Lemma exp_neg_unit (x : R) : 0 <= x -> 0 < exp (- x) <= 1.
Proof.
  intros Hx. split; [apply exp_pos|].
  rewrite <- exp_0. destruct (Req_dec x 0) as [->|Hne].
  - rewrite Ropp_0. lra.
  - left. apply exp_increasing. lra.
Qed.

(** *** The entries, block by block *)

Lemma out_of_bounds_entry s position d :
  dict_val "out_of_bounds" d = 0 ->
  -5 <= dict_val "out_of_bounds" (reward_out_of_bounds s position d) <= 0.
Proof.
  intros H. unfold reward_out_of_bounds. destruct (_ || _).
  - rewrite dict_val_set_same. lra.
  - lra.
Qed.

Lemma mine_penalty_upper position mines d u :
  0 <= u -> dict_val "mine_penalty" d <= u ->
  dict_val "mine_penalty" (reward_mines position mines d)
  <= u + 0.2 * INR (length mines).
Proof.
  revert d u. induction mines as [|m rest IH]; intros d u Hu Hd;
    cbn [reward_mines length].
  - cbn. lra.
  - rewrite S_INR. cbv zeta. set (dist := sqrt _).
    pose proof (pos_INR (length rest)) as Hn.
    destruct (Rltb dist (0.075 + 0.15)).
    + rewrite dict_val_set_same. lra.
    + destruct (Rltb dist (0.075 + 0.3)).
      * assert (H : dict_val "mine_penalty"
                      (reward_mines position rest
                         (dict_set "mine_penalty"
                            (Rmin (dict_val "mine_penalty" d)
                               (-2.0 * (1.0 - (dist - 0.075) / 0.3))) d))
                    <= u + 0.2 * INR (length rest)).
        { apply IH; [exact Hu|]. rewrite dict_val_set_same.
          pose proof (Rmin_l (dict_val "mine_penalty" d)
                        (-2.0 * (1.0 - (dist - 0.075) / 0.3))). lra. }
        lra.
      * destruct (Rltb dist 0.7 && Rltb 0.3 dist) eqn:Hband.
        -- apply andb_prop in Hband as [Hlt Hgt].
           apply Rltb_lt in Hlt. apply Rltb_lt in Hgt.
           assert (H : dict_val "mine_penalty"
                         (reward_mines position rest
                            (dict_add "mine_penalty"
                               (0.2 * ((dist - 0.3) / 0.4)) d))
                       <= (u + 0.2) + 0.2 * INR (length rest)).
           { apply IH; [lra|]. rewrite dict_val_add_same. lra. }
           lra.
        -- assert (H : dict_val "mine_penalty" (reward_mines position rest d)
                       <= u + 0.2 * INR (length rest)) by now apply IH.
           lra.
Qed.

Lemma collision_entry collision d :
  dict_val "collision_reward" d = 0 ->
  -5 <= dict_val "collision_reward" (reward_collision collision d) <= 0.
Proof.
  intros H. unfold reward_collision. destruct collision.
  - rewrite dict_val_set_same. lra.
  - lra.
Qed.

Lemma opponent_entries s position orientation d :
  dict_val "distance_reward" d = 0 ->
  dict_val "rotation_reward" d = 0 ->
  dict_val "goal_reward" d = 0 ->
  0 <= dict_val "distance_reward" (reward_opponent s position orientation d) <= 0.8
  /\ 0 <= dict_val "rotation_reward" (reward_opponent s position orientation d)
     <= 0.5
  /\ 0 <= dict_val "goal_reward" (reward_opponent s position orientation d) <= 3.
Proof.
  intros Hd Hr Hg. unfold reward_opponent.
  destruct (opponent_position s) as [target|]; [|lra]. cbv zeta.
  set (distance := sqrt ((at0 target - at0 position) * (at0 target - at0 position)
                         + (at1 target - at1 position) * (at1 target - at1 position))).
  assert (Hdist : 0 <= distance) by apply sqrt_pos.
  set (factor := if Rltb distance 1.0
                 then 1.0 - (1.0 - distance) / 1.0
                 else 1.0 - Rmin 1.0 ((distance - 1.0) / 2.0)).
  assert (Hfactor : 0 <= factor <= 1).
  { unfold factor. destruct (Rltb distance 1.0) eqn:E.
    - apply Rltb_lt in E. lra.
    - assert (1 <= distance).
      { unfold Rltb in E. destruct (Rlt_dec distance 1.0); [discriminate|lra]. }
      pose proof (Rmin_l 1.0 ((distance - 1.0) / 2.0)).
      assert (0 <= Rmin 1.0 ((distance - 1.0) / 2.0)) by (apply Rmin_glb; lra).
      lra. }
  set (alignment :=
         cos (normalize_angle
                (np_arctan2 (at1 target - at1 position)
                   (at0 target - at0 position) - at2 orientation))).
  assert (Halign : 0 <= Rmax 0 alignment <= 1).
  { pose proof (COS_bound (normalize_angle
                             (np_arctan2 (at1 target - at1 position)
                                (at0 target - at0 position) - at2 orientation)))
      as [_ Hc].
    fold alignment in Hc. unfold Rmax. destruct (Rle_dec 0 alignment); lra. }
  assert (Hkeys : forall d1,
            dict_val "distance_reward" d1 = 0.8 * factor
            \/ dict_val "distance_reward" d1 = 0 ->
            dict_val "rotation_reward" d1 = 0.5 * Rmax 0 alignment
            \/ dict_val "rotation_reward" d1 = 0 ->
            dict_val "goal_reward" d1 = 0 ->
            forall b : bool,
              0 <= dict_val "distance_reward"
                     (if b then dict_add "goal_reward" 3.0 d1 else d1) <= 0.8
              /\ 0 <= dict_val "rotation_reward"
                        (if b then dict_add "goal_reward" 3.0 d1 else d1) <= 0.5
              /\ 0 <= dict_val "goal_reward"
                        (if b then dict_add "goal_reward" 3.0 d1 else d1) <= 3).
  { intros d1 H1 H2 H3 [|].
    - rewrite dict_val_add_same, !dict_val_add_other by discriminate.
      destruct H1 as [-> | ->]; destruct H2 as [-> | ->]; lra.
    - destruct H1 as [-> | ->]; destruct H2 as [-> | ->]; lra. }
  apply Hkeys.
  - destruct (boundary_crossed s).
    + left. rewrite dict_val_set_other by discriminate.
      apply dict_val_set_same.
    + right. exact Hd.
  - destruct (boundary_crossed s).
    + left. apply dict_val_set_same.
    + right. exact Hr.
  - destruct (boundary_crossed s).
    + rewrite !dict_val_set_other by discriminate. exact Hg.
    + exact Hg.
Qed.

Lemma waypoint_entry s d :
  dict_val "waypoint_reward" d = 0 ->
  0 <= dict_val "waypoint_reward" (reward_waypoint s d) <= 0.3.
Proof.
  intros H. unfold reward_waypoint. destruct (boundary_crossed s).
  - rewrite dict_val_set_same. lra.
  - lra.
Qed.

Lemma laser_entries s now laser_hit d :
  clock_after_hit s now ->
  dict_val "laser_reward" d = 0 ->
  0 <= dict_val "goal_reward" d <= 3 ->
  0 <= dict_val "laser_reward" (reward_laser s now laser_hit d) <= 7
  /\ 0 <= dict_val "goal_reward" (reward_laser s now laser_hit d) <= 50.
Proof.
  intros Hclock Hl Hg. unfold reward_laser, clock_after_hit in *.
  destruct laser_hit; [|lra].
  destruct (continuous_hit_start s) as [start|]; cbv zeta.
  - assert (Hramp : 0 <= Rmin 5.0 ((now - start) * 2.0) <= 5).
    { split; [apply Rmin_glb; lra|]. pose proof (Rmin_l 5.0 ((now - start) * 2.0)).
      lra. }
    destruct (Rleb 2.0 (now - start)).
    + rewrite dict_val_set_same, dict_val_set_other by discriminate.
      rewrite dict_val_add_same, dict_val_set_same. lra.
    + rewrite dict_val_add_same, dict_val_set_same.
      rewrite dict_val_add_other, dict_val_set_other by discriminate. lra.
  - rewrite dict_val_set_same, dict_val_set_other by discriminate. lra.
Qed.

Lemma obstacles_entry laser_distances d :
  Forall (fun x => 0 <= x) laser_distances ->
  0 <= dict_val "laser_reward" d <= 7 ->
  -0.5 <= dict_val "laser_reward" (reward_obstacles laser_distances d) <= 7.1.
Proof.
  intros Hall Hl. unfold reward_obstacles. cbv zeta.
  destruct laser_distances as [|x xs].
  - rewrite Rltb_false by lra. lra.
  - inversion Hall as [|? ? Hx Hxs]; subst.
    pose proof (np_min_lower 0 x xs Hx Hxs) as Hmin.
    destruct (Rltb (np_min x xs) 0.3) eqn:E.
    + apply Rltb_lt in E. rewrite dict_val_add_same. lra.
    + destruct (Rltb 0.3 (np_min x xs)).
      * rewrite dict_val_add_same. lra.
      * lra.
Qed.

Lemma speed_entry speed d :
  dict_val "smooth_reward" d = 0 ->
  -0.1 <= dict_val "smooth_reward" (reward_speed speed d) <= 0.2.
Proof.
  intros H. unfold reward_speed. cbv zeta.
  pose proof (Rabs_pos (speed - 1.5)) as Habs.
  destruct (Rltb (Rabs (speed - 1.5)) 0.5) eqn:E.
  - apply Rltb_lt in E. rewrite dict_val_add_same. lra.
  - assert (0.5 <= Rabs (speed - 1.5)).
    { unfold Rltb in E. destruct (Rlt_dec _ _); [discriminate|lra]. }
    rewrite dict_val_add_same.
    pose proof (Rmin_l 1.0 ((Rabs (speed - 1.5) - 0.5) / 1.0)).
    assert (0 <= Rmin 1.0 ((Rabs (speed - 1.5) - 0.5) / 1.0))
      by (apply Rmin_glb; lra).
    lra.
Qed.

(** *** The breakdown before the action terms *)

Lemma dict_val_eq k d d' : dict_get k d = dict_get k d' -> dict_val k d = dict_val k d'.
Proof. unfold dict_val. now intros ->. Qed.

Lemma reward_speed_val k speed d :
  k <> "smooth_reward"%string -> dict_val k (reward_speed speed d) = dict_val k d.
Proof. intros. now apply dict_val_eq, reward_speed_other. Qed.

Lemma reward_obstacles_val k laser_distances d :
  k <> "laser_reward"%string ->
  dict_val k (reward_obstacles laser_distances d) = dict_val k d.
Proof. intros. now apply dict_val_eq, reward_obstacles_other. Qed.

Lemma reward_laser_val k s now laser_hit d :
  k <> "laser_reward"%string -> k <> "goal_reward"%string ->
  dict_val k (reward_laser s now laser_hit d) = dict_val k d.
Proof. intros. now apply dict_val_eq, reward_laser_other. Qed.

Lemma reward_waypoint_val k s d :
  k <> "waypoint_reward"%string -> dict_val k (reward_waypoint s d) = dict_val k d.
Proof. intros. now apply dict_val_eq, reward_waypoint_other. Qed.

Lemma reward_opponent_val k s position orientation d :
  k <> "distance_reward"%string -> k <> "rotation_reward"%string ->
  k <> "goal_reward"%string ->
  dict_val k (reward_opponent s position orientation d) = dict_val k d.
Proof. intros. now apply dict_val_eq, reward_opponent_other. Qed.

Lemma reward_collision_val k collision d :
  k <> "collision_reward"%string ->
  dict_val k (reward_collision collision d) = dict_val k d.
Proof. intros. now apply dict_val_eq, reward_collision_other. Qed.

Lemma reward_mines_val k position mines d :
  k <> "mine_penalty"%string ->
  dict_val k (reward_mines position mines d) = dict_val k d.
Proof. intros. now apply dict_val_eq, reward_mines_other. Qed.

Lemma reward_out_of_bounds_val k s position d :
  k <> "out_of_bounds"%string ->
  dict_val k (reward_out_of_bounds s position d) = dict_val k d.
Proof. intros. now apply dict_val_eq, reward_out_of_bounds_other. Qed.

Ltac through :=
  repeat first
    [ rewrite reward_speed_val by discriminate
    | rewrite reward_obstacles_val by discriminate
    | rewrite reward_laser_val by discriminate
    | rewrite reward_waypoint_val by discriminate
    | rewrite reward_opponent_val by discriminate
    | rewrite reward_collision_val by discriminate
    | rewrite reward_mines_val by discriminate
    | rewrite reward_out_of_bounds_val by discriminate ].

Ltac initial := through; unfold dict_val; cbn; lra.

Lemma shaped_bounds s position orientation velocity collision laser_distances
  now laser_hit :
  clock_after_hit s now ->
  Forall (fun x => 0 <= x) laser_distances ->
  let d := shaped s position orientation velocity collision laser_distances now
             laser_hit in
  dict_val "survival_reward" d = 0.01
  /\ 0 <= dict_val "distance_reward" d <= 0.8
  /\ 0 <= dict_val "rotation_reward" d <= 0.5
  /\ 0 <= dict_val "waypoint_reward" d <= 0.3
  /\ -0.5 <= dict_val "laser_reward" d <= 7.1
  /\ 0 <= dict_val "goal_reward" d <= 50
  /\ -15 <= dict_val "mine_penalty" d
     <= 0.2 * INR (length (CombatArena.mine_positions (arena s)))
  /\ -5 <= dict_val "collision_reward" d <= 0
  /\ -5 <= dict_val "out_of_bounds" d <= 0
  /\ -0.1 <= dict_val "smooth_reward" d <= 0.2
  /\ dict_val "exploration_reward" d = 0
  /\ dict_val "energy_conservation" d = 0
  /\ dict_val "time_penalty" d = -0.005
  /\ dict_val "total_reward" d = 0.
Proof.
  intros Hclock Hall d. unfold d, shaped.
  assert (Hopp : forall d3,
            dict_val "distance_reward" d3 = 0 ->
            dict_val "rotation_reward" d3 = 0 ->
            dict_val "goal_reward" d3 = 0 ->
            dict_val "laser_reward" d3 = 0 ->
            0 <= dict_val "laser_reward"
                   (reward_laser s now laser_hit
                      (reward_waypoint s
                         (reward_opponent s position orientation d3))) <= 7
            /\ 0 <= dict_val "goal_reward"
                      (reward_laser s now laser_hit
                         (reward_waypoint s
                            (reward_opponent s position orientation d3))) <= 50).
  { intros d3 H1 H2 H3 H4.
    apply laser_entries; [exact Hclock| |].
    - through. exact H4.
    - through. apply (opponent_entries s position orientation d3 H1 H2 H3). }
  split; [initial|].
  split.
  { through. apply opponent_entries; initial. }
  split.
  { through. apply opponent_entries; initial. }
  split.
  { through. apply waypoint_entry. initial. }
  split.
  { through. apply obstacles_entry; [exact Hall|]. apply Hopp; initial. }
  split.
  { through. apply Hopp; initial. }
  split.
  { through. split.
    - apply reward_mines_lower_bound. through. unfold dict_val. cbn. lra.
    - pose proof (mine_penalty_upper position
                    (CombatArena.mine_positions (arena s))
                    (reward_out_of_bounds s position initial_reward_components) 0)
        as H.
      rewrite Rplus_0_l in H. apply H; [lra|]. initial. }
  split.
  { through. apply collision_entry. initial. }
  split.
  { through. apply out_of_bounds_entry. unfold dict_val. cbn. lra. }
  split.
  { apply speed_entry. initial. }
  repeat split; initial.
Qed.

(** *** The total *)

Lemma breakdown_sum d :
  dict_keys d = breakdown_keys ->
  np_sum (dict_values d)
  = dict_val "survival_reward" d + dict_val "distance_reward" d
    + dict_val "rotation_reward" d + dict_val "waypoint_reward" d
    + dict_val "laser_reward" d + dict_val "goal_reward" d
    + dict_val "mine_penalty" d + dict_val "collision_reward" d
    + dict_val "out_of_bounds" d + dict_val "smooth_reward" d
    + dict_val "exploration_reward" d + dict_val "energy_conservation" d
    + dict_val "time_penalty" d + dict_val "total_reward" d.
Proof.
  unfold dict_keys, breakdown_keys, initial_reward_components, item.
  cbn [map fst]. intros H.
  do 14 (destruct d as [|[? ?] d]; [discriminate H|];
         cbn [map fst] in H; injection H as -> H).
  destruct d; [|discriminate H].
  unfold dict_val, dict_values, np_sum. cbn. ring.
Qed.

Lemma smooth_entry s action d d' :
  reward_smooth s action d = Ok d' ->
  dict_val "smooth_reward" d <= dict_val "smooth_reward" d'
  <= dict_val "smooth_reward" d + 0.2.
Proof.
  unfold reward_smooth. destruct (previous_action s) as [previous|].
  - destruct (np_sub action previous) as [diff|]; [|discriminate].
    intros [= <-]. cbv zeta. rewrite dict_val_add_same.
    assert (Hdiff : 0 <= np_sum (map Rabs diff)).
    { apply np_sum_nonneg, Forall_forall. intros x Hx.
      apply in_map_iff in Hx as (y & <- & _). apply Rabs_pos. }
    pose proof (exp_neg_unit _ Hdiff). lra.
  - intros [= <-]. lra.
Qed.

Lemma energy_entry action d :
  0 <= dict_val "energy_conservation" (reward_energy action d) <= 0.1.
Proof.
  unfold reward_energy. cbv zeta. rewrite dict_val_set_same.
  assert (Henergy : 0 <= np_sum (map (fun a => a * a) action)).
  { apply np_sum_nonneg, Forall_forall. intros x Hx.
    apply in_map_iff in Hx as (y & <- & _). apply Rle_0_sqr. }
  pose proof (exp_neg_unit _ Henergy). lra.
Qed.

Ltac at_keys H :=
  rewrite ?(H "survival_reward"%string), ?(H "distance_reward"%string),
    ?(H "rotation_reward"%string), ?(H "waypoint_reward"%string),
    ?(H "laser_reward"%string), ?(H "goal_reward"%string),
    ?(H "mine_penalty"%string), ?(H "collision_reward"%string),
    ?(H "out_of_bounds"%string), ?(H "smooth_reward"%string),
    ?(H "exploration_reward"%string), ?(H "energy_conservation"%string),
    ?(H "time_penalty"%string), ?(H "total_reward"%string)
    by discriminate.

(** X29.  The reward of one step is bounded.  On every controller one can
    come to hold, when the clock has not gone back since the running hit
    started and the engine reports no negative hit fraction,
    [_compute_reward] returns a total between -25.595 and 59.905,
    whatever the action, the pose, the velocity and the time in the
    episode. *)
Theorem compute_reward_bounded seeded cfg ph now action info s :
  reachable seeded cfg s ->
  clock_after_hit s now ->
  (forall ray i, rayTest_fan ph = Ok ray -> 0 <= hit_fraction (ray i)) ->
  exists s' total comps,
    _compute_reward ph now action info s = (s', Ok (total, comps))
    /\ -25.595 <= total <= 59.905.
Proof.
  intros Hs Hclock Hfan.
  assert (Hrays : forall v laser_distances,
            CombatArena.vehicle (arena s) = Some v ->
            LaserVehicle.get_laser_distances v ph = Ok laser_distances ->
            Forall (fun x => 0 <= x) laser_distances).
  { intros v laser_distances Hv. unfold LaserVehicle.get_laser_distances.
    destruct (LaserVehicle.get_position_and_orientation v ph); [|discriminate].
    destruct (rayTest_fan ph) as [ray|e] eqn:Hray; [|discriminate].
    intros [= <-]. cbn [map seq].
    rewrite (reachable_range seeded cfg s Hs v Hv).
    repeat (apply Forall_cons;
            [match goal with
             | |- context [hit_fraction (ray ?i)] =>
                 pose proof (Hfan ray i eq_refl);
                 destruct (hit_object (ray i) =? -1)%Z; lra
             end|]).
    apply Forall_nil. }
  pose proof (reachable_arena seeded cfg s Hs) as (_ & _ & Hmines & _ & _).
  rewrite compute_reward_unfold.
  assert (Hzero : forall s0 : t,
            exists s' total comps,
              (s0, Ok (0.0, zero_metrics)) = (s', Ok (total, comps))
              /\ -25.595 <= total <= 59.905).
  { intros s0. eexists _, _, _. split; [reflexivity|]. lra. }
  destruct (CombatArena.vehicle (arena s)) as [v|] eqn:Hv; [|apply Hzero].
  destruct (LaserVehicle.get_position_and_orientation v ph)
    as [[position orientation]|e]; [|apply Hzero].
  destruct (LaserVehicle.get_velocity v ph) as [velocity|e]; [|apply Hzero].
  cbv zeta.
  destruct (LaserVehicle.check_collision v ph) as [collision|e]; [|apply Hzero].
  destruct (LaserVehicle.get_laser_distances v ph) as [laser_distances|e] eqn:Hlas;
    [|apply Hzero].
  pose proof (shaped_bounds s position orientation velocity collision
                laser_distances now (laser_hit_of info) Hclock
                (Hrays v laser_distances eq_refl Hlas)) as Hb.
  cbv zeta in Hb. rewrite Hmines in Hb.
  cbn [length CombatArena.default_mine_positions INR] in Hb.
  pose proof (shaped_keys s position orientation velocity collision
                laser_distances now (laser_hit_of info)) as Hk.
  set (d0 := shaped _ _ _ _ _ _ _ _) in *. clearbody d0.
  destruct Hb as (B1 & B2 & B3 & B4 & B5 & B6 & B7 & B8 & B9 & B10 & B11 & B12
                  & B13 & B14).
  destruct (reward_smooth s action d0) as [d1|e] eqn:Hsmooth; [|apply Hzero].
  pose proof (smooth_entry s action d0 d1 Hsmooth) as Bsmooth.
  assert (Hother1 : forall k, k <> "smooth_reward"%string ->
                              dict_val k d1 = dict_val k d0).
  { intros k Hk1. apply dict_val_eq. now apply (reward_smooth_other k s action). }
  assert (Hk1 : dict_keys d1 = breakdown_keys).
  { unfold reward_smooth in Hsmooth.
    destruct (previous_action s) as [previous|].
    - destruct (np_sub action previous); [|discriminate].
      injection Hsmooth as <-. now apply dict_add_breakdown; [cbn; tauto|].
    - now injection Hsmooth as <-. }
  pose proof (energy_entry action d1) as Benergy.
  assert (Hother2 : forall k, k <> "energy_conservation"%string ->
                              dict_val k (reward_energy action d1) = dict_val k d1).
  { intros k Hk2. apply dict_val_eq. now apply reward_energy_other. }
  assert (Hk2 : dict_keys (reward_energy action d1) = breakdown_keys).
  { unfold reward_energy. cbv zeta. now apply dict_set_breakdown; [cbn; tauto|]. }
  set (d2 := reward_energy action d1) in *. clearbody d2.
  assert (Hend : forall (s2 : t) d',
            dict_keys d' = breakdown_keys ->
            (forall k, k <> "exploration_reward"%string ->
                       dict_val k d' = dict_val k d2) ->
            0 <= dict_val "exploration_reward" d' <= 0.1 ->
            exists s' total comps,
              (set_previous_action (Some action) s2,
               Ok (np_sum (dict_values d'),
                   dict_set "total_reward" (np_sum (dict_values d')) d'))
              = (s', Ok (total, comps))
              /\ -25.595 <= total <= 59.905).
  { intros s2 d' Hk' Hsame Hexp. eexists _, _, _. split; [reflexivity|].
    rewrite (breakdown_sum d' Hk').
    at_keys Hsame. at_keys Hother2. at_keys Hother1. lra. }
  pose proof (reward_exploration_cases position d2
                (set_current_position (Some position) s)) as Hcases.
  destruct (visited_positions (set_current_position (Some position) s))
    as [cells|].
  - destruct (existsb _ cells); rewrite Hcases; apply Hend.
    + exact Hk2.
    + reflexivity.
    + rewrite Hother2, Hother1 by discriminate. lra.
    + now apply dict_set_breakdown; [cbn; tauto|].
    + intros k Hne. now apply dict_val_set_other.
    + rewrite dict_val_set_same. lra.
  - rewrite Hcases. apply Hend.
    + exact Hk2.
    + reflexivity.
    + rewrite Hother2, Hother1 by discriminate. lra.
Qed.

Lemma compute_reward_bounded_witness :
  let s := fst (reset (Scene.constant_generator 0.25) (Some 7%Z)
                  (Scene.quiet_reset (vec3 1.5 1.5 0.1)) Scene.constructed) in
  exists s' total comps,
    _compute_reward (Scene.at_rest (vec3 1.5 1.5 0.1) (vec3 0 0 0)) 0 [0; 0]
      (PyBool false) s
    = (s', Ok (total, comps))
    /\ -25.595 <= total <= 59.905.
Proof.
  intros s.
  apply (compute_reward_bounded (Scene.constant_generator 0.25)
           default_observation_config).
  - apply reachable_reset, reachable_init.
  - unfold clock_after_hit, s.
    rewrite (reset_writes continuous_hit_start (Scene.constant_generator 0.25));
      [exact I|reflexivity..].
  - intros ray i [= <-]. cbn [hit_fraction]. lra.
Defined.

End RewardBounds.
